(** * Buffer-Onefile: the workflow automation engine of [version2.py]

    A shallow embedding of the Selenium script that publishes a media post
    through the Buffer dashboard, and the properties of its session
    manager, locator loops, step sequencer, submission controller and
    evidence collector.

    The browser, the file system and the clock are outside the program.
    They are modelled as an abstract [World] that answers every request the
    script makes ([exec]); an answer is a value, or [None] when the call
    raises.  A run of a Python function is a function from the state to an
    outcome, the new state, and the sequence of events the run produced:
    every request with its answer, every function entry and return, every
    [time.sleep], and the few [print]s whose text carries information that
    is not otherwise observable.  All other console output is left out; it
    never influences control flow.

    [Vesion1.py] is the file-based sibling of the script.  Where the
    properties below concern it too (the cookie restore, the order of the
    session strategies, the locator loop of [click_new_post]) its functions
    differ from those of [version2.py] in pauses, timeouts and selector
    lists only, which are parameters here. *)

From Stdlib Require Import Ascii String List Arith Lia Bool ZArith.
From Stdlib Require Import Init.Byte.
Import ListNotations.
Open Scope string_scope.
Open Scope nat_scope.
Open Scope list_scope.
Set Warnings "-register-all".

(** ** Data *)

Definition xpath := string.
Definition Elem := nat.      (* a WebElement handle *)
Definition Driver := nat.    (* a webdriver.Chrome instance *)
Definition bytes := list byte.

(** A cookie record as Selenium hands it out; ['domain' in cookie] is
    [c_domain <> None]. *)
Record Cookie := mkCookie {
  c_name : string;
  c_value : string;
  c_domain : option string;
  c_path : option string;
  c_secure : bool;
  c_expiry : option nat
}.

(** The expected conditions handed to [WebDriverWait(...).until]. *)
Inductive Cond :=
| presence_of_element_located (x : xpath)
| element_to_be_clickable (x : xpath)
| invisibility_of_element_located (x : xpath)
| url_contains (s : string)
| or_ (cs : list Cond).

(** Every request the script sends to the outside, indexed by the type of
    its answer. *)
Inductive Op : Type -> Type :=
| chrome_launch : Op Driver                       (* body of setup_chrome *)
| quit (d : Driver) : Op unit
| get (d : Driver) (url : string) : Op unit
| current_url (d : Driver) : Op string
| title (d : Driver) : Op string
| wait_until (d : Driver) (timeout : nat) (c : Cond) : Op Elem
| wait_for (d : Driver) (timeout : nat) (c : Cond) : Op unit
| find_element (d : Driver) (x : xpath) : Op Elem
| find_element_in (e : Elem) (x : xpath) : Op Elem
| click (e : Elem) : Op unit
| clear (e : Elem) : Op unit
| send_keys (e : Elem) (keys : string) : Op unit
| is_displayed (e : Elem) : Op bool
| is_enabled (e : Elem) : Op bool
| text (e : Elem) : Op string
| execute_script (d : Driver) (script : string) (e : Elem) : Op unit
| actions_click (d : Driver) (e : Elem) : Op unit
| actions_click_offset (d : Driver) (e : Elem) (dx dy : Z) : Op unit
| switch_to_frame (d : Driver) (e : Elem) : Op unit
| switch_to_default_content (d : Driver) : Op unit
| add_cookie (d : Driver) (c : Cookie) : Op unit
| get_cookies (d : Driver) : Op (list Cookie)
| get_screenshot_as_png (d : Driver) : Op bytes
| file_open (path : string) (mode : string) : Op unit
| pickle_load (path : string) : Op (list Cookie)
| pickle_dump (path : string) (cs : list Cookie) : Op unit
| tempfile_write (suffix : string) (data : bytes) : Op string
| unlink (path : string) : Op unit.

(** The functions of the script whose entry and return are recorded. *)
Inductive Fn :=
| F_cleanup_driver | F_take_screenshot | F_save_cookies | F_load_cookies
| F_check_session_validity | F_handle_captcha | F_login_with_credentials
| F_establish_session | F_click_new_post | F_upload_video | F_type_content
| F_click_customize_button | F_click_second_text_area | F_fill_reels_input
| F_click_section_button | F_click_list_item | F_dismiss_overlays
| F_submit_post | F_process_media_file.

(** Python values that the recorded functions return. *)
Inductive pyval :=
| PyNone
| PyBool (b : bool)
| PyBytes (b : bytes)
| PyList (l : list bytes).

Inductive exn :=
| EnvError                    (* raised by the browser or the file system *)
| ValueError (msg : string)
| TypeError.

Inductive Event :=
| EvOp {A : Type} (o : Op A) (answer : option A)
| EvCall (f : Fn) (d : option Driver)
| EvRet (f : Fn) (v : pyval)
| EvRaise (f : Fn) (e : exn)
| EvExists (path : string) (b : bool)          (* os.path.exists *)
| EvSleep (secs : nat)                         (* time.sleep *)
| EvAttempt (n : nat)          (* "Looking for Share/Post button (Attempt n/3)..." *)
| EvMethod (i : nat)           (* "Attempting click method i..." *)
| EvMethodFailed (i : nat)     (* "Click method i failed: ..." *)
| EvClicked (i : nat)          (* "Waiting for post to be submitted..." after method i *)
| EvSkipped (n : nat)          (* "Skipped n cookies due to domain mismatch" *)
| EvPrint (s : string).

(** ** The outside world *)

Class Env := {
  World : Type;
  exec : forall A, Op A -> World -> option A * World;
  file_exists : string -> World -> bool;
  EMAIL : option string;        (* os.getenv('EMAIL') *)
  PASSWORD : option string      (* os.getenv('PASSWORD') *)
}.

(** ** The monad of runs *)

Inductive outcome (A : Type) :=
| Val (a : A)
| Exn (e : exn).
Arguments Val {A} a.
Arguments Exn {A} e.

Record Out (S A : Type) := mkOut {
  res : outcome A;
  st : S;
  tr : list Event
}.
Arguments mkOut {S A} res st tr.
Arguments res {S A} o.
Arguments st {S A} o.
Arguments tr {S A} o.

Section Script.
Context {E : Env}.

(** The state: the world and the module-level variable [driver]. *)
Record State := mkState {
  world : World;
  driver : option Driver
}.

Definition M (A : Type) := State -> Out State A.

Definition ret {A} (a : A) : M A := fun s => mkOut (Val a) s [].

Definition bind {A B} (m : M A) (f : A -> M B) : M B := fun s =>
  match m s with
  | mkOut (Val a) s1 t1 =>
      match f a s1 with
      | mkOut r s2 t2 => mkOut r s2 (t1 ++ t2)
      end
  | mkOut (Exn e) s1 t1 => mkOut (Exn e) s1 t1
  end.

Definition raise {A} (e : exn) : M A := fun s => mkOut (Exn e) s [].

(** [try: m  except ...: h], for a handler that catches everything raised. *)
Definition try_ {A} (m : M A) (h : exn -> M A) : M A := fun s =>
  match m s with
  | mkOut (Val a) s1 t1 => mkOut (Val a) s1 t1
  | mkOut (Exn e) s1 t1 =>
      match h e s1 with
      | mkOut r s2 t2 => mkOut r s2 (t1 ++ t2)
      end
  end.

(** [try: m  finally: f] *)
Definition finally {A} (m : M A) (f : M unit) : M A := fun s =>
  match m s with
  | mkOut r s1 t1 =>
      match f s1 with
      | mkOut (Val _) s2 t2 => mkOut r s2 (t1 ++ t2)
      | mkOut (Exn e) s2 t2 => mkOut (Exn e) s2 (t1 ++ t2)
      end
  end.

Definition emit (ev : Event) : M unit := fun s => mkOut (Val tt) s [ev].

Definition call {A} (o : Op A) : M A := fun s =>
  match exec A o (world s) with
  | (Some v, w) => mkOut (Val v) (mkState w (driver s)) [EvOp o (Some v)]
  | (None, w) => mkOut (Exn EnvError) (mkState w (driver s)) [EvOp o None]
  end.

Definition exists_ (path : string) : M bool := fun s =>
  let b := file_exists path (world s) in mkOut (Val b) s [EvExists path b].

Definition sleep (secs : nat) : M unit := emit (EvSleep secs).
Definition print (s : string) : M unit := emit (EvPrint s).

Definition get_driver : M (option Driver) := fun s => mkOut (Val (driver s)) s [].
Definition set_driver (d : option Driver) : M unit :=
  fun s => mkOut (Val tt) (mkState (world s) d) [].

End Script.

Declare Scope run_scope.
Delimit Scope run_scope with run.
Notation "x <- m ;; k" := (bind m (fun x => k))
  (at level 100, m at next level, right associativity) : run_scope.
Notation "m ;; k" := (bind m (fun _ => k))
  (at level 100, right associativity) : run_scope.
Open Scope run_scope.

(** What one pass through the body of the attempt loop ends with. *)
Inductive ctl (A : Type) :=
| Continue
| Return (v : A).
Arguments Continue {A}.
Arguments Return {A} v.

Section Functions.
Context {E : Env}.

(** [try: x = m  except: (nothing)]: the value, or [None] when [m] raised. *)
Definition attempt {A} (m : M A) : M (option A) :=
  try_ (a <- m ;; ret (Some a)) (fun _ => ret None).

(** Entry and exit of a script function. *)
Definition fn {A} (f : Fn) (d : option Driver) (enc : A -> pyval) (body : M A) : M A :=
  emit (EvCall f d) ;;
  r <- try_ body (fun e => emit (EvRaise f e) ;; raise e) ;;
  emit (EvRet f (enc r)) ;;
  ret r.

Definition enc_step (r : option bool) : pyval :=
  match r with None => PyNone | Some b => PyBool b end.
Definition enc_png (r : option bytes) : pyval :=
  match r with None => PyNone | Some b => PyBytes b end.
Definition enc_shots (r : option (list bytes)) : pyval :=
  match r with None => PyNone | Some l => PyList l end.
Definition enc_unit (_ : unit) : pyval := PyNone.

(** Python's [sub in s]. *)
Definition contains (sub s : string) : bool :=
  match String.index 0 sub s with Some _ => true | None => false end.

(** Truth value of an optional string: [None] and [''] are false. *)
Definition truthy (s : option string) : bool :=
  match s with
  | None => false
  | Some EmptyString => false
  | Some _ => true
  end.

Definition COOKIE_FILE := "buffer_cookies.pkl".

(** *** cleanup_driver, take_screenshot, save_cookies *)

Definition cleanup_driver : M unit :=
  fn F_cleanup_driver None enc_unit (
    d <- get_driver ;;
    match d with
    | Some d => _ <- attempt (call (quit d)) ;; set_driver None
    | None => ret tt
    end).

Definition take_screenshot (d : Driver) : M (option bytes) :=
  fn F_take_screenshot (Some d) enc_png (
    try_ (png <- call (get_screenshot_as_png d) ;; ret (Some png))
         (fun _ => ret None)).

Definition save_cookies (d : Driver) : M unit :=
  fn F_save_cookies (Some d) enc_unit (
    try_ (call (file_open COOKIE_FILE "wb") ;;
          cs <- call (get_cookies d) ;;
          call (pickle_dump COOKIE_FILE cs))
         (fun _ => ret tt)).

(** *** load_cookies *)

(** The slice [s[1:]]. *)
Definition drop_first (s : string) : string :=
  match s with
  | EmptyString => EmptyString
  | String _ rest => rest
  end.

(** The three-way branch on [cookie_domain]; the result is the value of
    [cookie['domain']] afterwards. *)
Definition normalize_domain (cookie_domain : string) : string :=
  if (cookie_domain =? "publish.buffer.com")%string then ".buffer.com"
  else if String.prefix "." cookie_domain then drop_first cookie_domain
  else if (cookie_domain =? "www.buffer.com")%string then ".buffer.com"
  else cookie_domain.

(** The domains the branch leaves alone. *)
Definition canonical (cookie_domain : string) : bool :=
  negb (cookie_domain =? "publish.buffer.com")%string
  && negb (String.prefix "." cookie_domain)
  && negb (cookie_domain =? "www.buffer.com")%string.

Definition fix_domain (cookie : Cookie) : Cookie :=
  match c_domain cookie with
  | Some cookie_domain =>
      mkCookie (c_name cookie) (c_value cookie)
               (Some (normalize_domain cookie_domain))
               (c_path cookie) (c_secure cookie) (c_expiry cookie)
  | None => cookie
  end.

(** The loop over the stored cookies; returns [skipped]. *)
Fixpoint add_cookies (d : Driver) (cookies : list Cookie) (skipped : nat) : M nat :=
  match cookies with
  | [] => ret skipped
  | cookie :: rest =>
      r <- attempt (call (add_cookie d (fix_domain cookie))) ;;
      match r with
      | Some _ => add_cookies d rest skipped
      | None => add_cookies d rest (skipped + 1)
      end
  end.

(** [settle] is the pause after opening the root domain: 1 second in
    version2.py, 2 seconds in Vesion1.py; the two functions are otherwise
    the same. *)
Definition load_cookies_with (settle : nat) (d : Driver) : M bool :=
  fn F_load_cookies (Some d) PyBool (
    present <- exists_ COOKIE_FILE ;;
    if negb present then ret false
    else
      try_ (call (get d "https://buffer.com") ;;
            sleep settle ;;
            call (file_open COOKIE_FILE "rb") ;;
            cookies <- call (pickle_load COOKIE_FILE) ;;
            skipped <- add_cookies d cookies 0 ;;
            (if 0 <? skipped then emit (EvSkipped skipped) else ret tt) ;;
            ret true)
           (fun _ => ret false)).

Definition load_cookies := load_cookies_with 1.


(** *** check_session_validity *)

Definition indicators : list xpath :=
  [ "//button[contains(text(), 'New Post')]";
    "//button[contains(@class, 'new-post')]";
    "//div[contains(@class, 'dashboard-header')]" ].

(** [for indicator in indicators: try: wait; return True  except: continue],
    then [return False]. *)
Fixpoint check_indicators (d : Driver) (l : list xpath) : M bool :=
  match l with
  | [] => ret false
  | indicator :: rest =>
      r <- attempt (call (wait_until d 3 (presence_of_element_located indicator))) ;;
      match r with
      | Some _ => ret true
      | None => check_indicators d rest
      end
  end.

Definition check_session_validity (d : Driver) : M bool :=
  fn F_check_session_validity (Some d) PyBool (
    try_ (call (get d "https://publish.buffer.com/all-channels") ;;
          sleep 2 ;;
          url <- call (current_url d) ;;
          if negb (contains "publish.buffer.com" url) then ret false
          else check_indicators d indicators)
         (fun _ => ret false)).

(** *** handle_captcha *)

Definition handle_captcha (d : Driver) : M bool :=
  fn F_handle_captcha (Some d) PyBool (
    try_ (captcha_iframe <-
            call (wait_until d 5 (presence_of_element_located
                                    "//iframe[contains(@title,'reCAPTCHA')]")) ;;
          call (switch_to_frame d captcha_iframe) ;;
          try_ (checkbox <-
                  call (wait_until d 5 (element_to_be_clickable
                                          "//div[@class='recaptcha-checkbox-checkmark']")) ;;
                call (click checkbox) ;;
                sleep 2 ;;
                try_ (image_challenge <-
                        call (find_element d "//div[contains(@class,'rc-imageselect')]") ;;
                      shown <- call (is_displayed image_challenge) ;;
                      if shown
                      then call (wait_for d 60 (invisibility_of_element_located
                                                  "//div[contains(@class,'rc-imageselect')]"))
                      else ret tt)
                     (fun _ => ret tt))
               (fun _ => ret tt) ;;
          call (switch_to_default_content d) ;;
          sleep 1 ;;
          ret true)
         (fun _ =>
            _ <- attempt (call (switch_to_default_content d)) ;;
            ret false)).

(** *** login_with_credentials *)

(** [element.send_keys(value)] for a module constant that may be unset. *)
Definition send_keys_opt (e : Elem) (value : option string) : M unit :=
  match value with
  | Some v => call (send_keys e v)
  | None => raise TypeError
  end.

Definition login_with_credentials (d : Driver) : M bool :=
  fn F_login_with_credentials (Some d) PyBool (
    try_ (call (get d "https://login.buffer.com/login") ;;
          _ <- attempt (accept <- call (wait_until d 3 (element_to_be_clickable
                                         "//button[contains(text(),'Accept')]")) ;;
                        call (click accept)) ;;
          _ <- handle_captcha d ;;
          email_field <- call (wait_until d 5 (presence_of_element_located
                                                 "//input[@type='email']")) ;;
          call (clear email_field) ;;
          send_keys_opt email_field EMAIL ;;
          password_field <- call (wait_until d 5 (presence_of_element_located
                                                    "//input[@type='password']")) ;;
          call (clear password_field) ;;
          send_keys_opt password_field PASSWORD ;;
          login_button <- call (wait_until d 5 (element_to_be_clickable
                                                  "//button[@type='submit']")) ;;
          call (click login_button) ;;
          _ <- attempt (call (wait_for d 10 (or_
                  [ url_contains "publish.buffer.com";
                    url_contains "buffer.com/app";
                    presence_of_element_located "//*[contains(text(),'Invalid')]" ]))) ;;
          url <- call (current_url d) ;;
          _ <- call (title d) ;;
          if contains "publish.buffer.com" url || contains "buffer.com/app" url
          then
            try_ (_ <- call (wait_until d 5 (presence_of_element_located
                                               "//button[contains(text(), 'New Post')]")) ;;
                  save_cookies d ;;
                  ret true)
                 (fun _ => ret false)
          else
            _ <- attempt (error_element <- call (find_element d
                            "//*[contains(text(),'Invalid') or contains(text(),'incorrect')]") ;;
                          call (text error_element)) ;;
            ret false)
         (fun _ => ret false)).

(** *** establish_session *)

(** [settle] is the pause after a successful cookie restore: 2 seconds in
    version2.py. *)
Definition establish_session_with (settle : nat) (d : Driver) : M bool :=
  fn F_establish_session (Some d) PyBool (
    valid <- check_session_validity d ;;
    if valid then ret true
    else
      loaded <- load_cookies d ;;
      restored <- (if loaded
                   then sleep settle ;; check_session_validity d
                   else ret false) ;;
      if restored then ret true
      else
        if negb (truthy EMAIL) || negb (truthy PASSWORD)
        then raise (ValueError "EMAIL and PASSWORD must be set in .env file")
        else
          logged_in <- login_with_credentials d ;;
          if logged_in then ret true else ret false).

Definition establish_session := establish_session_with 2.

(** *** The locator loop

    [element = None; for selector in selectors: try: element =
    WebDriverWait(driver, timeout).until(mode((By.XPATH, selector))); break
    except: continue].  Every step function carries this loop with its own
    selectors, expected condition and timeout. *)
Fixpoint resolve (d : Driver) (mode : xpath -> Cond) (timeout : nat)
         (selectors : list xpath) : M (option Elem) :=
  match selectors with
  | [] => ret None
  | selector :: rest =>
      r <- attempt (call (wait_until d timeout (mode selector))) ;;
      match r with
      | Some element => ret (Some element)
      | None => resolve d mode timeout rest
      end
  end.

(** *** click_new_post *)

Definition new_post_selectors : list xpath :=
  [ "//button[contains(text(), 'New Post')]";
    "//button[.//span[contains(text(), 'New Post')]]";
    "//button[contains(@class, 'new-post')]";
    "//button[.//*[name()='svg']]";
    "/html/body/div[1]/div[1]/main/div[1]/header/div[1]/div/button[2]" ].

(** The selector list of Vesion1.py, where each candidate waits 5 seconds. *)
Definition new_post_selectors_v1 : list xpath :=
  [ "/html/body/div[1]/div[1]/main/div[1]/header/div[1]/div/button[2]";
    "//button[contains(text(), 'New Post')]";
    "//button[.//span[contains(text(), 'New Post')]]";
    "//button[contains(@class, 'new-post')]";
    "//button[.//*[name()='svg']]" ].

Definition composer_dialog : Cond :=
  presence_of_element_located
    "//div[contains(@class, 'composer') or contains(text(), 'Create a new post')]".

Definition click_new_post (d : Driver) : M (option bool) :=
  fn F_click_new_post (Some d) enc_step (
    try_ (call (get d "https://publish.buffer.com/all-channels") ;;
          sleep 2 ;;
          new_post_button <- resolve d element_to_be_clickable 3 new_post_selectors ;;
          match new_post_button with
          | None => ret None
          | Some new_post_button =>
              call (click new_post_button) ;;
              sleep 2 ;;
              opened <- attempt (call (wait_until d 5 composer_dialog)) ;;
              match opened with
              | Some _ => ret (Some true)
              | None => ret (Some true)   (* still true: the button was clicked *)
              end
          end)
         (fun _ => ret None)).

(** *** upload_video *)

Definition upload_progress_gone : Cond :=
  invisibility_of_element_located "//div[contains(@class, 'upload-progress')]".
Definition upload_preview : Cond :=
  presence_of_element_located
    "//div[contains(@class, 'media-preview') or contains(text(), 'Upload complete')]".

Definition upload_video (d : Driver) (video_bytes : bytes) : M (option bool) :=
  fn F_upload_video (Some d) enc_step (
    try_ (temp_file_path <- call (tempfile_write ".mp4" video_bytes) ;;
          finally
            (file_input <- call (wait_until d 5 (presence_of_element_located
                                                   "//input[@type='file']")) ;;
             call (send_keys file_input temp_file_path) ;;
             sleep 5 ;;
             try_ (call (wait_for d 60 upload_progress_gone))
                  (fun _ =>
                     try_ (_ <- call (wait_until d 60 upload_preview) ;; ret tt)
                          (fun _ => ret tt)) ;;
             ret (Some true))
            (_ <- attempt (call (unlink temp_file_path)) ;; ret tt))
         (fun _ => ret None)).

(** *** The five plain steps *)

Definition type_content_selectors : list xpath :=
  [ "//div[contains(@class, 'composer')]/div/div/div/div/div/div/div";
    "//div[@role='textbox']";
    "/html/body/div[2]/div/div[1]/div/div[2]/section[3]/div/div/div/div[1]/div[1]/div[1]/div/div" ].

Definition type_content (d : Driver) : M (option bool) :=
  fn F_type_content (Some d) enc_step (
    try_ (text_area <- resolve d presence_of_element_located 3 type_content_selectors ;;
          match text_area with
          | None => ret None
          | Some text_area =>
              call (click text_area) ;;
              call (clear text_area) ;;
              call (send_keys text_area "#viral #Reels") ;;
              ret (Some true)
          end)
         (fun _ => ret None)).

Definition customize_selectors : list xpath :=
  [ "//button[contains(text(), 'Customize')]";
    "//button[contains(text(), 'for each network')]";
    "//button[contains(@class, 'customize')]";
    "/html/body/div[2]/div/div[1]/div/div[2]/section[4]/div/button" ].

(** [find, click, return True], shared by the four click-only steps. *)
Definition click_step (f : Fn) (d : Driver) (selectors : list xpath) : M (option bool) :=
  fn f (Some d) enc_step (
    try_ (target <- resolve d element_to_be_clickable 3 selectors ;;
          match target with
          | None => ret None
          | Some target => call (click target) ;; ret (Some true)
          end)
         (fun _ => ret None)).

Definition click_customize_button (d : Driver) : M (option bool) :=
  click_step F_click_customize_button d customize_selectors.

Definition second_text_area_selectors : list xpath :=
  [ "//div[contains(@class, 'composer')]/div[2]/div[2]/div/div[2]/div/div/div/div/div";
    "//div[@role='textbox'][2]";
    "/html/body/div[2]/div/div[1]/div/div[2]/section[3]/div[2]/div[2]/div/div[2]/div/div/div/div/div" ].

Definition click_second_text_area (d : Driver) : M (option bool) :=
  click_step F_click_second_text_area d second_text_area_selectors.

Definition reels_selectors : list xpath :=
  [ "//input[contains(@placeholder, 'reels')]";
    "//input[contains(@class, 'reels')]";
    "/html/body/div[2]/div/div[1]/div/div[2]/section[3]/div[2]/div[2]/div/div[4]/div/div[1]/div/input" ].

Definition fill_reels_input (d : Driver) : M (option bool) :=
  fn F_fill_reels_input (Some d) enc_step (
    try_ (reels_input <- resolve d presence_of_element_located 3 reels_selectors ;;
          match reels_input with
          | None => ret None
          | Some reels_input =>
              call (click reels_input) ;;
              call (clear reels_input) ;;
              call (send_keys reels_input "#reels") ;;
              ret (Some true)
          end)
         (fun _ => ret None)).

Definition section_button_selectors : list xpath :=
  [ "//button[contains(@class, 'section-button')]";
    "//div[contains(@class, 'section')]/button";
    "/html/body/div[2]/div/div[1]/div/div[2]/section[4]/div/div[2]/div/div/div/div/div/div[1]" ].

Definition click_section_button (d : Driver) : M (option bool) :=
  click_step F_click_section_button d section_button_selectors.

Definition list_item_selectors : list xpath :=
  [ "//ul/li/div/p";
    "//div[contains(@class, 'list-item')]/p";
    "/html/body/div[2]/div/div[1]/div/div[2]/section[4]/div/div[2]/div/div/div/div/div/div[2]/ul/li[1]/div/p" ].

Definition click_list_item (d : Driver) : M (option bool) :=
  click_step F_click_list_item d list_item_selectors.


(** *** dismiss_overlays *)

Definition overlays : list xpath :=
  [ "//div[@id='post-preview']";
    "//div[contains(@class, 'modal')]";
    "//div[contains(@class, 'popup')]";
    "//div[contains(@class, 'overlay')]";
    "//div[contains(@class, 'dialog')]" ].

Definition close_buttons : list xpath :=
  [ ".//button[contains(@class, 'close')]";
    ".//button[contains(@aria-label, 'close')]";
    ".//button[contains(@title, 'close')]";
    ".//span[contains(@class, 'close')]" ].

(** The inner loop over [close_buttons]; [true] when a close control was
    clicked (the function then returns True). *)
Fixpoint try_close_buttons (overlay_element : Elem) (l : list xpath) : M bool :=
  match l with
  | [] => ret false
  | close_btn :: rest =>
      r <- attempt (close_button <- call (find_element_in overlay_element close_btn) ;;
                    call (click close_button) ;;
                    sleep 1) ;;
      match r with
      | Some _ => ret true
      | None => try_close_buttons overlay_element rest
      end
  end.

(** The loop over [overlays]; [true] when an overlay was dismissed. *)
Fixpoint dismiss_loop (d : Driver) (l : list xpath) : M bool :=
  match l with
  | [] => ret false
  | overlay :: rest =>
      r <- attempt (overlay_element <- call (find_element d overlay) ;;
                    shown <- call (is_displayed overlay_element) ;;
                    if shown then
                      closed <- try_close_buttons overlay_element close_buttons ;;
                      if closed then ret true
                      else
                        call (actions_click_offset d overlay_element (-10) (-10)) ;;
                        sleep 1 ;;
                        ret true
                    else ret false) ;;
      match r with
      | Some true => ret true
      | _ => dismiss_loop d rest
      end
  end.

Definition dismiss_overlays (d : Driver) : M bool :=
  fn F_dismiss_overlays (Some d) PyBool (
    try_ (dismiss_loop d overlays) (fun _ => ret false)).

(** *** submit_post *)

Definition max_attempts := 3.

Definition share_selectors : list xpath :=
  [ "//button[contains(text(), 'Share')]";
    "//button[contains(text(), 'Post')]";
    "//button[contains(text(), 'Schedule')]";
    "//button[contains(@class, 'share')]";
    "//button[contains(@class, 'post')]";
    "//button[.//span[contains(text(), 'Share')]]";
    "//button[.//span[contains(text(), 'Post')]]" ].

(** The selector loop of [submit_post].  [share_button] is assigned as soon
    as a wait returns, and the loop is left only when that element is
    displayed and enabled; otherwise the assignment stays and the next
    selector is tried. *)
Fixpoint find_share_button (d : Driver) (l : list xpath) (share_button : option Elem)
  : M (option Elem) :=
  match l with
  | [] => ret share_button
  | selector :: rest =>
      found <- attempt (call (wait_until d 5 (presence_of_element_located selector))) ;;
      match found with
      | None => find_share_button d rest share_button
      | Some b =>
          usable <- attempt (shown <- call (is_displayed b) ;;
                             if shown then call (is_enabled b) else ret false) ;;
          match usable with
          | Some true => ret (Some b)
          | _ => find_share_button d rest (Some b)
          end
      end
  end.

(** The four [click_methods], in the order of the list literal. *)
Definition click_methods (d : Driver) (share_button : Elem) : list (M unit) :=
  [ call (click share_button);
    call (execute_script d "arguments[0].click();" share_button);
    call (actions_click d share_button);
    (call (execute_script d "arguments[0].scrollIntoView(true);" share_button) ;;
     sleep 1 ;;
     call (click share_button)) ].

Definition post_submitted : Cond :=
  or_ [ url_contains "publish.buffer.com/all-channels";
        presence_of_element_located
          "//*[contains(text(), 'Post scheduled') or contains(text(), 'Post shared')]" ].

(** [for i, click_method in enumerate(click_methods, 1)]; [Some true] when
    the function returned True from inside the loop, [None] when the loop
    ran out.  [n] is [len(click_methods)]. *)
Fixpoint try_click_methods (d : Driver) (n i : nat) (methods : list (M unit))
  : M (option bool) :=
  match methods with
  | [] => ret None
  | click_method :: rest =>
      r <- try_ (emit (EvMethod i) ;;
                 click_method ;;
                 emit (EvClicked i) ;;
                 sleep 3 ;;
                 confirmed <- attempt (call (wait_for d 10 post_submitted)) ;;
                 match confirmed with
                 | Some _ => ret (Some true)
                 | None => ret (Some true)   (* still true: the button was clicked *)
                 end)
                (fun _ =>
                   emit (EvMethodFailed i) ;;
                   (if i <? n then sleep 1 else ret tt) ;;
                   ret None) ;;
      match r with
      | Some v => ret (Some v)
      | None => try_click_methods d n (S i) rest
      end
  end.

Definition submit_attempt (d : Driver) (attempt_no : nat) : M (ctl (option bool)) :=
  try_ (emit (EvAttempt attempt_no) ;;
        (if 1 <? attempt_no
         then _ <- dismiss_overlays d ;; sleep 2
         else ret tt) ;;
        share_button <- find_share_button d share_selectors None ;;
        match share_button with
        | None =>
            if attempt_no <? max_attempts
            then sleep 2 ;; ret Continue
            else ret (Return None)
        | Some share_button =>
            let methods := click_methods d share_button in
            r <- try_click_methods d (List.length methods) 1 methods ;;
            match r with
            | Some v => ret (Return (Some v))
            | None =>
                if attempt_no <? max_attempts
                then _ <- dismiss_overlays d ;; sleep 2 ;; ret Continue
                else ret (Return None)
            end
        end)
       (fun _ =>
          if attempt_no <? max_attempts
          then sleep 2 ;; ret Continue
          else ret (Return None)).

(** [for attempt in range(1, max_attempts + 1)]; a loop that runs out
    returns Python's implicit None. *)
Fixpoint submit_attempts (d : Driver) (attempts : list nat) : M (option bool) :=
  match attempts with
  | [] => ret None
  | attempt_no :: rest =>
      c <- submit_attempt d attempt_no ;;
      match c with
      | Return v => ret v
      | Continue => submit_attempts d rest
      end
  end.

Definition submit_post (d : Driver) : M (option bool) :=
  fn F_submit_post (Some d) enc_step (submit_attempts d (seq 1 max_attempts)).

(** *** process_media_file *)

(** One block of the sequencer: run the step; on None print the message
    and return None; on True take a screenshot and append it when it is
    truthy (a [bytes] value is truthy when it is not empty); then go on
    with [k]. *)
Definition run_step (d : Driver) (step : M (option bool)) (failure : string)
           (screenshot_bytes_list : list bytes)
           (k : list bytes -> M (option (list bytes))) : M (option (list bytes)) :=
  result <- step ;;
  match result with
  | None => print failure ;; ret None
  | Some true =>
      screenshot_bytes <- take_screenshot d ;;
      match screenshot_bytes with
      | Some (b :: bs) => k (screenshot_bytes_list ++ [b :: bs])
      | _ => k screenshot_bytes_list
      end
  | Some false => k screenshot_bytes_list
  end.

(** The nine steps, from "Click the New Post button" to "Submit the post". *)
Definition workflow (d : Driver) (video_bytes : bytes) : M (option (list bytes)) :=
  run_step d (click_new_post d) "Failed to click New Post button" [] (fun l1 =>
  run_step d (upload_video d video_bytes) "Failed to upload video" l1 (fun l2 =>
  run_step d (type_content d) "Failed to type content" l2 (fun l3 =>
  run_step d (click_customize_button d) "Failed to click customize button" l3 (fun l4 =>
  run_step d (click_second_text_area d) "Failed to click second text area" l4 (fun l5 =>
  run_step d (fill_reels_input d) "Failed to fill reels input" l5 (fun l6 =>
  run_step d (click_section_button d) "Failed to click section button" l6 (fun l7 =>
  run_step d (click_list_item d) "Failed to click list item" l7 (fun l8 =>
  run_step d (submit_post d) "Failed to submit post" l8 (fun l9 =>
  ret (Some l9)))))))))).

Definition setup_chrome : M Driver := call chrome_launch.

(** The handler of the outer [try] tests ['driver' in locals()]; [driver]
    is declared global, so the test is false and nothing is captured. *)
Definition process_media_file (video_bytes : bytes) : M (option (list bytes)) :=
  fn F_process_media_file None enc_shots (
    try_ (current <- get_driver ;;
          d <- match current with
               | None => d <- setup_chrome ;; set_driver (Some d) ;; ret d
               | Some d => ret d
               end ;;
          established <- establish_session d ;;
          if established then workflow d video_bytes
          else
            print "Failed to establish session" ;;
            cleanup_driver ;;
            d <- setup_chrome ;;
            set_driver (Some d) ;;
            established <- establish_session d ;;
            if established then workflow d video_bytes
            else
              print "Failed to establish session after retry" ;;
              ret None)
         (fun _ => ret None)).

End Functions.

(** ** check_session_validity of Vesion1.py

    The probe of the file-based sibling: 5 seconds of settling, seven
    indicators polled for 5 seconds each, and when none is found one more
    poll of 10 seconds for the New Post button. *)

Section Vesion1.
Context {E : Env}.

Definition indicators_v1 : list xpath :=
  [ "//button[contains(text(), 'New Post')]";
    "//button[.//span[contains(text(), 'New Post')]]";
    "//button[contains(@class, 'new-post')]";
    "/html/body/div[1]/div[1]/main/div[1]/header/div[1]/div/button[2]";
    "//div[contains(@class, 'dashboard')]";
    "//div[contains(@class, 'channels')]";
    "//a[contains(@href, 'channels')]" ].

Fixpoint check_indicators_v1 (d : Driver) (l : list xpath) : M bool :=
  match l with
  | [] => ret false
  | indicator :: rest =>
      r <- attempt (call (wait_until d 5 (presence_of_element_located indicator))) ;;
      match r with
      | Some _ => ret true
      | None => check_indicators_v1 d rest
      end
  end.

Definition check_session_validity_v1 (d : Driver) : M bool :=
  fn F_check_session_validity (Some d) PyBool (
    try_ (call (get d "https://publish.buffer.com/all-channels") ;;
          sleep 5 ;;
          url <- call (current_url d) ;;
          if negb (contains "publish.buffer.com" url) then ret false
          else
            found <- check_indicators_v1 d indicators_v1 ;;
            if found then ret true
            else
              try_ (_ <- call (wait_until d 10 (presence_of_element_located
                                 "//button[contains(text(), 'New Post')]")) ;;
                    ret true)
                   (fun _ => ret false))
         (fun _ => ret false)).

End Vesion1.


(** ** combine_screenshots

    Pillow is outside the program: [image_open] is [Image.open] on the
    bytes of one screenshot ([None] when it raises) and [png_save] is the
    PNG encoder.  An image is its size and its pixels.  The function is
    pure; the outer [try] only guards against Pillow failing on images
    that opened, which is not modelled. *)

Record Image (pixel : Type) := mkImage {
  width : nat;
  height : nat;
  pix : nat -> nat -> pixel
}.
Arguments mkImage {pixel} width height pix.
Arguments width {pixel} i.
Arguments height {pixel} i.
Arguments pix {pixel} i x y.

Class Imaging := {
  pixel : Type;
  black : pixel;
  image_open : bytes -> option (Image pixel);
  png_save : Image pixel -> bytes
}.

Section Evidence.
Context {I : Imaging}.

(** [Image.new('RGB', (w, h))] *)
Definition image_new (w h : nat) : Image pixel := mkImage w h (fun _ _ => black).

(** [grid.paste(img, (x, y))]: the pixels of [img] replace those of the
    canvas in the box at [(x, y)], clipped to the canvas. *)
Definition paste (grid img : Image pixel) (x y : nat) : Image pixel :=
  mkImage (width grid) (height grid)
    (fun a b =>
       if (x <=? a) && (a <? x + width img) && (y <=? b) && (b <? y + height img)
          && (a <? width grid) && (b <? height grid)
       then pix img (a - x) (b - y)
       else pix grid a b).

(** The first loop: open every screenshot, skipping those that fail. *)
Fixpoint open_images (screenshot_bytes_list : list bytes) : list (Image pixel) :=
  match screenshot_bytes_list with
  | [] => []
  | png_bytes :: rest =>
      match image_open png_bytes with
      | Some img => img :: open_images rest
      | None => open_images rest
      end
  end.

(** The second loop, [for i, img in enumerate(images)], from index [i]. *)
Fixpoint paste_images (cols img_width img_height : nat) (grid_img : Image pixel)
         (i : nat) (images : list (Image pixel)) : Image pixel :=
  match images with
  | [] => grid_img
  | img :: rest =>
      let row := i / cols in
      let col := i mod cols in
      let x := col * img_width in
      let y := row * img_height in
      paste_images cols img_width img_height (paste grid_img img x y) (S i) rest
  end.

(** The grid image before it is encoded. *)
Definition combine_grid (screenshot_bytes_list : list bytes) : option (Image pixel) :=
  match screenshot_bytes_list with
  | [] => None
  | _ =>
      let images := open_images screenshot_bytes_list in
      match images with
      | [] => None
      | first :: _ =>
          let num_images := List.length images in
          let cols := 2 in
          let rows := (num_images + cols - 1) / cols in
          let img_width := width first in
          let img_height := height first in
          let grid_width := cols * img_width in
          let grid_height := rows * img_height in
          let grid_img := image_new grid_width grid_height in
          Some (paste_images cols img_width img_height grid_img 0 images)
      end
  end.

Definition combine_screenshots (screenshot_bytes_list : list bytes) : option bytes :=
  match combine_grid screenshot_bytes_list with
  | Some grid_img => Some (png_save grid_img)
  | None => None
  end.

(** An image of size [w] x [h]. *)
Definition sized (w h : nat) (img : Image pixel) : Prop :=
  width img = w /\ height img = h.

(** The box of the grid for snapshot [k] when snapshots are [w] x [h]:
    column [k mod 2], row [k / 2]. *)
Definition in_box (w h k X Y : nat) : Prop :=
  (k mod 2) * w <= X < (k mod 2) * w + w /\ (k / 2) * h <= Y < (k / 2) * h + h.

End Evidence.

(** A toy imaging library for concrete runs: a screenshot's first byte
    fixes the colour of a 2x1 image, an empty one does not open. *)
Definition toy_imaging : Imaging := {|
  pixel := nat;
  black := 0;
  image_open := fun png_bytes =>
    match png_bytes with
    | [] => None
    | b :: _ => Some (mkImage 2 1 (fun _ _ => Byte.to_nat b))
    end;
  png_save := fun img => match Byte.of_nat (width img) with
                         | Some b => [b]
                         | None => []
                         end
|}.

Section Readable.
Context {I : Imaging}.


End Readable.

(** ** The Telegram handlers

    The bot library is outside the program, like the browser: a request to
    it is answered by the world, or raises.  A handler runs in the state of
    the script; its events are its own requests to the bot and, wrapped in
    [HScript], the events of the script functions it calls.  The texts are
    those of the source without their leading pictograph. *)

(** What a handler reads of [message]: the file_id of its video and of its
    document, when it has one. *)
Record Message := mkMessage {
  video : option string;
  document : option string
}.

Inductive BotOp : Type -> Type :=
| send_message (chat_id : option string) (text : string) : BotOp unit
| send_photo (chat_id : option string) (photo : bytes) (caption : string) : BotOp unit
| get_file (file_id : string) : BotOp string            (* file_info.file_path *)
| download_file (file_path : string) : BotOp bytes.

Inductive HEvent :=
| HBot {A : Type} (o : BotOp A) (answer : option A)
| HScript (ev : Event).

Class Bot {E : Env} := {
  bot_exec : forall A, BotOp A -> World -> option A * World;
  TELEGRAM_USER_CHAT_ID : option string;   (* os.getenv('TELEGRAM_USER_CHAT_ID') *)
  str : exn -> string                      (* str(e) *)
}.

Record HOut (S A : Type) := mkHOut {
  hres : outcome A;
  hst : S;
  htr : list HEvent
}.
Arguments mkHOut {S A} hres hst htr.
Arguments hres {S A} _.
Arguments hst {S A} _.
Arguments htr {S A} _.

Section Handlers.
Context {E : Env} {B : Bot}.

Definition Handler (A : Type) := State -> HOut State A.


Definition hbind {A C} (m : Handler A) (f : A -> Handler C) : Handler C := fun s =>
  match m s with
  | mkHOut (Val a) s1 t1 =>
      match f a s1 with
      | mkHOut r s2 t2 => mkHOut r s2 (t1 ++ t2)
      end
  | mkHOut (Exn e) s1 t1 => mkHOut (Exn e) s1 t1
  end.

(** [try: m  except Exception as e: h e] *)
Definition htry {A} (m : Handler A) (h : exn -> Handler A) : Handler A := fun s =>
  match m s with
  | mkHOut (Val a) s1 t1 => mkHOut (Val a) s1 t1
  | mkHOut (Exn e) s1 t1 =>
      match h e s1 with
      | mkHOut r s2 t2 => mkHOut r s2 (t1 ++ t2)
      end
  end.


(** A request to the bot. *)
Definition bot {A} (o : BotOp A) : Handler A := fun s =>
  match bot_exec A o (world s) with
  | (Some v, w) => mkHOut (Val v) (mkState w (driver s)) [HBot o (Some v)]
  | (None, w) => mkHOut (Exn EnvError) (mkState w (driver s)) [HBot o None]
  end.

(** A call of a function of the script. *)
Definition script {A} (m : M A) : Handler A := fun s =>
  match m s with
  | mkOut r s1 t => mkHOut r s1 (map HScript t)
  end.

End Handlers.

Declare Scope handler_scope.
Delimit Scope handler_scope with handler.
Notation "x <- m ;; k" := (hbind m (fun x => k))
  (at level 100, m at next level, right associativity) : handler_scope.
Notation "m ;; k" := (hbind m (fun _ => k))
  (at level 100, right associativity) : handler_scope.

Definition received_text := "Received your media file. Processing...".
Definition unsupported_text := "Unsupported file type. Please send a video or image.".
Definition processing_text := "Processing your file through Buffer...".
Definition combining_text := "Combining screenshots...".
Definition caption_text := "All screenshots from your Buffer session".
Definition posted_text := "Your media has been successfully posted to Buffer!".
Definition not_combined_text :=
  "Failed to combine screenshots, but your media was posted to Buffer.".
Definition failed_text := "Failed to process your media file through Buffer.".
Definition hint_text := "Please send a video or image file to post to Buffer.".

Section TelegramHandlers.
Context {E : Env} {B : Bot} {I : Imaging}.
Open Scope handler_scope.

Definition error_text (e : exn) : string := "An error occurred: " ++ str e.

(** [handle_media] from the download on, [file_path] being
    [file_info.file_path].  A list is truthy when it is not empty; the
    stream that [combine_screenshots] returns is truthy whatever it holds. *)
Definition post_file (file_path : string) : Handler unit :=
  downloaded_file <- bot (download_file file_path) ;;
  bot (send_message TELEGRAM_USER_CHAT_ID processing_text) ;;
  screenshot_bytes_list <- script (process_media_file downloaded_file) ;;
  match screenshot_bytes_list with
  | Some (shot :: shots) =>
      bot (send_message TELEGRAM_USER_CHAT_ID combining_text) ;;
      match combine_screenshots (shot :: shots) with
      | Some combined_image_bytes =>
          bot (send_photo TELEGRAM_USER_CHAT_ID combined_image_bytes caption_text) ;;
          bot (send_message TELEGRAM_USER_CHAT_ID posted_text)
      | None =>
          bot (send_message TELEGRAM_USER_CHAT_ID not_combined_text)
      end
  | _ =>
      bot (send_message TELEGRAM_USER_CHAT_ID failed_text)
  end.

Definition handle_media (message : Message) : Handler unit :=
  htry
    (bot (send_message TELEGRAM_USER_CHAT_ID received_text) ;;
     match video message with
     | Some file_id =>
         file_path <- bot (get_file file_id) ;;
         post_file file_path
     | None =>
         match document message with
         | Some file_id =>
             file_path <- bot (get_file file_id) ;;
             post_file file_path
         | None =>
             bot (send_message TELEGRAM_USER_CHAT_ID unsupported_text)
         end
     end)
    (fun e => bot (send_message TELEGRAM_USER_CHAT_ID (error_text e))).

Definition handle_text : Handler unit :=
  bot (send_message TELEGRAM_USER_CHAT_ID hint_text).


End TelegramHandlers.

(** ** Judgements on runs *)

Section Judgements.
Context {E : Env}.

(** Every event of a run of [m] is in the alphabet [q]; the run leaves the
    global [driver] as it was; a run that returns [a] has [P a]; and [m]
    raises only if [X] allows it. *)
Definition hoare {A} (q : Event -> bool) (X : bool) (P : A -> Prop) (m : M A) : Prop :=
  forall s,
    forallb q (tr (m s)) = true /\
    driver (st (m s)) = driver s /\
    match res (m s) with
    | Val a => P a
    | Exn _ => X = true
    end.

Definition any {A} : A -> Prop := fun _ => True.

Definition everything : Event -> bool := fun _ => true.

(** The events outside a filter [p]. *)
Definition outside (p : Event -> bool) : Event -> bool := fun ev => negb (p ev).

(** A run of [m] either emits nothing that [p] selects, or ends as [P]
    says. *)
Definition unless {A} (p : Event -> bool) (P : outcome A -> Prop) (m : M A) : Prop :=
  forall s, forallb (outside p) (tr (m s)) = true \/ P (res (m s)).

(** The run returned True, possibly wrapped as a loop's [Return]. *)
Definition done_true {B} (wrap : option bool -> B) : outcome B -> Prop :=
  fun r => r = Val (wrap (Some true)).

(** The confirmation polls of the three steps that have one. *)
Definition dialog_poll (ev : Event) : bool :=
  match ev with
  | EvOp o _ =>
      match o with
      | wait_until _ 5 (presence_of_element_located _) => true
      | _ => false
      end
  | _ => false
  end.

Definition upload_poll (ev : Event) : bool :=
  match ev with
  | EvOp o _ =>
      match o with
      | wait_until _ 60 _ => true
      | _ => false
      end
  | _ => false
  end.

Definition submit_poll (ev : Event) : bool :=
  match ev with
  | EvOp o _ =>
      match o with
      | wait_for _ 10 _ => true
      | _ => false
      end
  | _ => false
  end.

(** The outcome of a run of [m] and what [p] keeps of its events
    satisfy [Q]. *)
Definition wp {A} (p : Event -> bool) (m : M A)
           (Q : outcome A -> State -> list Event -> Prop) (s : State) : Prop :=
  Q (res (m s)) (st (m s)) (filter p (tr (m s))).

End Judgements.

(** ** Vocabulary of the statements *)

(** One poll of a locator loop: the candidate, its timeout, the answer. *)
Definition tried (d : Driver) (mode : xpath -> Cond) (timeout : nat)
           (selector : xpath) (answer : option Elem) : Event :=
  EvOp (wait_until d timeout (mode selector)) answer.

(** The injections of a cookie list, one per cookie, with their answers. *)
Definition add_events (d : Driver) (cookies : list Cookie)
           (answers : list (option unit)) : list Event :=
  map (fun ca => EvOp (add_cookie d (fix_domain (fst ca))) (snd ca))
      (combine cookies answers).

Definition raised {A} (a : option A) : bool :=
  match a with None => true | Some _ => false end.

Definition count_skipped (answers : list (option unit)) : nat :=
  List.length (filter raised answers).

Definition skipped_report (answers : list (option unit)) : list Event :=
  if 0 <? count_skipped answers then [EvSkipped (count_skipped answers)] else [].

(** The cookie list an event carries, when it is a successful unpickling. *)
Definition loaded_cookies (ev : Event) : option (list Cookie) :=
  match ev with
  | EvOp o a =>
      match o in Op T return option T -> option (list Cookie) with
      | pickle_load _ => fun a => a
      | _ => fun _ => None
      end a
  | _ => None
  end.

(** The entries and returns of the four session functions. *)
Definition session_fn (f : Fn) : bool :=
  match f with
  | F_check_session_validity | F_load_cookies
  | F_login_with_credentials | F_establish_session => true
  | _ => false
  end.

Definition session_ev (ev : Event) : bool :=
  match ev with
  | EvCall f _ | EvRet f _ | EvRaise f _ => session_fn f
  | _ => false
  end.

Definition session_trace (t : list Event) : list Event := filter session_ev t.

(** The probe failed and the cookie file could not be restored. *)
Definition probe_then_no_restore (d : Driver) : list Event :=
  [ EvCall F_establish_session (Some d);
    EvCall F_check_session_validity (Some d);
    EvRet F_check_session_validity (PyBool false);
    EvCall F_load_cookies (Some d);
    EvRet F_load_cookies (PyBool false) ].

(** The probe failed, the cookies were restored, the second probe failed. *)
Definition probe_then_stale_restore (d : Driver) : list Event :=
  [ EvCall F_establish_session (Some d);
    EvCall F_check_session_validity (Some d);
    EvRet F_check_session_validity (PyBool false);
    EvCall F_load_cookies (Some d);
    EvRet F_load_cookies (PyBool true);
    EvCall F_check_session_validity (Some d);
    EvRet F_check_session_validity (PyBool false) ].

Definition is_login_call (ev : Event) : bool :=
  match ev with
  | EvCall F_login_with_credentials _ => true
  | _ => false
  end.

Definition failed_before_login (d : Driver) (before : list Event) : Prop :=
  before = probe_then_no_restore d \/ before = probe_then_stale_restore d.

(** What a run of [establish_session] shows of the four session functions,
    with its outcome. *)
Inductive session_shape (d : Driver) : outcome bool -> list Event -> Prop :=
| valid_at_once :
    session_shape d (Val true)
      [ EvCall F_establish_session (Some d);
        EvCall F_check_session_validity (Some d);
        EvRet F_check_session_validity (PyBool true);
        EvRet F_establish_session (PyBool true) ]
| valid_after_restore :
    session_shape d (Val true)
      [ EvCall F_establish_session (Some d);
        EvCall F_check_session_validity (Some d);
        EvRet F_check_session_validity (PyBool false);
        EvCall F_load_cookies (Some d);
        EvRet F_load_cookies (PyBool true);
        EvCall F_check_session_validity (Some d);
        EvRet F_check_session_validity (PyBool true);
        EvRet F_establish_session (PyBool true) ]
| credentials_missing before msg :
    failed_before_login d before ->
    session_shape d (Exn (ValueError msg))
      (before ++ [EvRaise F_establish_session (ValueError msg)])
| login_attempted before b :
    failed_before_login d before ->
    session_shape d (Val b)
      (before ++ [ EvCall F_login_with_credentials (Some d);
                   EvRet F_login_with_credentials (PyBool b);
                   EvRet F_establish_session (PyBool b) ]).

(** *** The submission controller

    What [submit_ev] keeps of a run of [submit_post]: the announcement of
    each attempt, the entries and returns of [dismiss_overlays], the
    announcement of each click method with the clicks and scripts it
    sends, and the messages for a method that raised or went through. *)
Definition submit_ev (ev : Event) : bool :=
  match ev with
  | EvAttempt _ | EvMethod _ | EvMethodFailed _ | EvClicked _ => true
  | EvCall f _ | EvRet f _ | EvRaise f _ =>
      match f with F_dismiss_overlays => true | _ => false end
  | EvOp o _ =>
      match o with
      | click _ | execute_script _ _ _ | actions_click _ _ => true
      | _ => false
      end
  | _ => false
  end.

Definition is_click (ev : Event) : bool :=
  match ev with
  | EvOp o _ => match o with click _ => true | _ => false end
  | _ => false
  end.

Definition is_attempt (ev : Event) : bool :=
  match ev with
  | EvAttempt _ => true
  | _ => false
  end.

Definition is_clicked (ev : Event) : bool :=
  match ev with
  | EvClicked _ => true
  | _ => false
  end.

(** A class of events that contains no request, no entry or return, and
    no announcement or failure of a click method. *)
Definition plain (c : Event -> bool) : Prop :=
  (forall A (o : Op A) a, c (EvOp o a) = false) /\
  (forall f d, c (EvCall f d) = false) /\
  (forall f v, c (EvRet f v) = false) /\
  (forall i, c (EvMethod i) = false) /\
  (forall i, c (EvMethodFailed i) = false).

(** One pass of overlay dismissal: entry, the clicks on close controls it
    tried, return. *)
Definition dismissal (d : Driver) (t : list Event) : Prop :=
  exists b noise,
    t = EvCall F_dismiss_overlays (Some d) :: noise
        ++ [EvRet F_dismiss_overlays (PyBool b)] /\
    forallb is_click noise = true.

(** The requests of click method [i] on the button [b], and whether the
    method raised. *)
Inductive strategy_run (d : Driver) (b : Elem) : nat -> bool -> list Event -> Prop :=
| direct_click a :
    strategy_run d b 1 (raised a) [EvOp (click b) a]
| javascript_click a :
    strategy_run d b 2 (raised a)
      [EvOp (execute_script d "arguments[0].click();" b) a]
| action_chains_click a :
    strategy_run d b 3 (raised a) [EvOp (actions_click d b) a]
| scroll_raised :
    strategy_run d b 4 true
      [EvOp (execute_script d "arguments[0].scrollIntoView(true);" b) None]
| scroll_then_click a :
    strategy_run d b 4 (raised a)
      [EvOp (execute_script d "arguments[0].scrollIntoView(true);" b) (Some tt);
       EvOp (click b) a].

(** The click loop from method [i] on: methods are tried in turn while
    they raise; the first that does not raise ends the loop with True;
    after method 4 the loop is exhausted. *)
Inductive clicks_shape (d : Driver) (b : Elem) : nat -> option bool -> list Event -> Prop :=
| clicks_exhausted :
    clicks_shape d b 5 None []
| click_accepted i t :
    strategy_run d b i false t ->
    clicks_shape d b i (Some true) (EvMethod i :: t ++ [EvClicked i])
| click_raised i t r rest :
    strategy_run d b i true t ->
    clicks_shape d b (S i) r rest ->
    clicks_shape d b i r (EvMethod i :: t ++ EvMethodFailed i :: rest).

(** Dismissal opens every attempt after the first ... *)
Definition opening (d : Driver) (n : nat) (t : list Event) : Prop :=
  if 1 <? n then dismissal d t else t = [].

(** ... and closes every attempt but the last in which all methods raised. *)
Definition closing (d : Driver) (n : nat) (t : list Event) : Prop :=
  if n <? max_attempts then dismissal d t else t = [].

Definition bail_out (n : nat) : ctl (option bool) :=
  if n <? max_attempts then Continue else Return None.

Inductive attempt_shape (d : Driver) (n : nat) : ctl (option bool) -> list Event -> Prop :=
| attempt_without_click t0 :
    opening d n t0 ->
    attempt_shape d n (bail_out n) (EvAttempt n :: t0)
| attempt_clicked t0 b t :
    opening d n t0 ->
    clicks_shape d b 1 (Some true) t ->
    attempt_shape d n (Return (Some true)) (EvAttempt n :: t0 ++ t)
| attempt_exhausted t0 b t t1 :
    opening d n t0 ->
    clicks_shape d b 1 None t ->
    closing d n t1 ->
    attempt_shape d n (bail_out n) (EvAttempt n :: t0 ++ t ++ t1).

Inductive submit_shape (d : Driver) : list nat -> option bool -> list Event -> Prop :=
| submit_loop_over :
    submit_shape d [] None []
| submit_return n rest v t :
    attempt_shape d n (Return v) t ->
    submit_shape d (n :: rest) v t
| submit_continue n rest v t t' :
    attempt_shape d n Continue t ->
    submit_shape d rest v t' ->
    submit_shape d (n :: rest) v (t ++ t').

Definition is_exn {A} (r : outcome A) : bool :=
  match r with Exn _ => true | Val _ => false end.

(** *** The step sequencer

    What [top_ev] keeps of a run of [process_media_file]: the entries and
    returns of the functions it calls itself, its own messages, and the
    launch and the shutdown of a browser. *)
Definition step_fn (f : Fn) : bool :=
  match f with
  | F_click_new_post | F_upload_video | F_type_content
  | F_click_customize_button | F_click_second_text_area | F_fill_reels_input
  | F_click_section_button | F_click_list_item | F_submit_post => true
  | _ => false
  end.

Definition top_fn (f : Fn) : bool :=
  step_fn f ||
  match f with
  | F_establish_session | F_cleanup_driver | F_take_screenshot
  | F_process_media_file => true
  | _ => false
  end.

Definition top_ev (ev : Event) : bool :=
  match ev with
  | EvCall f _ | EvRet f _ | EvRaise f _ => top_fn f
  | EvPrint _ => true
  | EvOp o _ =>
      match o with
      | chrome_launch | quit _ => true
      | _ => false
      end
  | _ => false
  end.

(** The nine steps in the order of the source, each with the message
    printed when it returns None. *)
Definition the_steps : list (Fn * string) :=
  [ (F_click_new_post, "Failed to click New Post button");
    (F_upload_video, "Failed to upload video");
    (F_type_content, "Failed to type content");
    (F_click_customize_button, "Failed to click customize button");
    (F_click_second_text_area, "Failed to click second text area");
    (F_fill_reels_input, "Failed to fill reels input");
    (F_click_section_button, "Failed to click section button");
    (F_click_list_item, "Failed to click list item");
    (F_submit_post, "Failed to submit post") ].

(** The evidence list after a capture: a screenshot is appended when the
    capture returned non-empty bytes. *)
Definition keep (l : list bytes) (png : option bytes) : list bytes :=
  match png with
  | Some (b :: bs) => l ++ [b :: bs]
  | _ => l
  end.

Definition kept (pngs : list (option bytes)) : list bytes :=
  fold_left keep pngs [].

(** A completed step followed by its capture. *)
Definition step_block (d : Driver) (f : Fn) (png : option bytes) : list Event :=
  [ EvCall f (Some d); EvRet f (PyBool true);
    EvCall F_take_screenshot (Some d); EvRet F_take_screenshot (enc_png png) ].

Fixpoint step_blocks (d : Driver) (fs : list Fn) (pngs : list (option bytes)) : list Event :=
  match fs, pngs with
  | f :: fs', png :: pngs' => step_block d f png ++ step_blocks d fs' pngs'
  | _, _ => []
  end.

(** A run of the steps [todo] that starts with the evidence list [l]. *)
Inductive steps_shape (d : Driver) :
  list (Fn * string) -> list bytes -> option (list bytes) -> list Event -> Prop :=
| steps_done l :
    steps_shape d [] l (Some l) []
| step_failed f msg todo l :
    steps_shape d ((f, msg) :: todo) l None
      [EvCall f (Some d); EvRet f PyNone; EvPrint msg]
| step_captured f msg todo l png v t :
    steps_shape d todo (keep l png) v t ->
    steps_shape d ((f, msg) :: todo) l v (step_block d f png ++ t).

(** What follows the shutdown of the first browser. *)
Inductive retry_shape : option (list bytes) -> list Event -> Prop :=
| relaunch_raised :
    retry_shape None [EvOp chrome_launch None]
| second_try_valid d2 v t :
    steps_shape d2 the_steps [] v t ->
    retry_shape v
      (EvOp chrome_launch (Some d2) :: EvCall F_establish_session (Some d2)
         :: EvRet F_establish_session (PyBool true) :: t)
| second_try_failed d2 :
    retry_shape None
      [ EvOp chrome_launch (Some d2); EvCall F_establish_session (Some d2);
        EvRet F_establish_session (PyBool false);
        EvPrint "Failed to establish session after retry" ]
| second_try_raised d2 e :
    retry_shape None
      [ EvOp chrome_launch (Some d2); EvCall F_establish_session (Some d2);
        EvRaise F_establish_session e ].

(** What follows the first entry into [establish_session], after that
    entry. *)
Inductive session_phase (d : Driver) : option (list bytes) -> list Event -> Prop :=
| first_try_valid v t :
    steps_shape d the_steps [] v t ->
    session_phase d v (EvRet F_establish_session (PyBool true) :: t)
| first_try_raised e :
    session_phase d None [EvRaise F_establish_session e]
| first_try_failed a v t :
    retry_shape v t ->
    session_phase d v
      (EvRet F_establish_session (PyBool false)
         :: EvPrint "Failed to establish session"
         :: EvCall F_cleanup_driver None
         :: EvOp (quit d) a
         :: EvRet F_cleanup_driver PyNone
         :: t).

(** The body of [process_media_file] for a given value of the global
    [driver]. *)
Inductive process_shape (current : option Driver) :
  option (list bytes) -> list Event -> Prop :=
| launch_raised :
    current = None ->
    process_shape current None [EvOp chrome_launch None]
| launched d v t :
    current = None ->
    session_phase d v t ->
    process_shape current v
      (EvOp chrome_launch (Some d) :: EvCall F_establish_session (Some d) :: t)
| reused d v t :
    current = Some d ->
    session_phase d v t ->
    process_shape current v (EvCall F_establish_session (Some d) :: t).

Definition is_step_failure (ev : Event) : bool :=
  match ev with
  | EvRet f PyNone => step_fn f
  | _ => false
  end.

Definition is_establish (ev : Event) : bool :=
  match ev with
  | EvCall F_establish_session _ | EvRet F_establish_session _
  | EvRaise F_establish_session _ => true
  | _ => false
  end.

Definition is_step_call (ev : Event) : bool :=
  match ev with
  | EvCall f _ => step_fn f
  | _ => false
  end.

Definition step_completed (ev : Event) : bool :=
  match ev with
  | EvRet f (PyBool true) => step_fn f
  | _ => false
  end.

Definition is_evidence_ev (ev : Event) : bool :=
  match ev with
  | EvCall f _ | EvRet f _ =>
      step_fn f || match f with F_take_screenshot => true | _ => false end
  | _ => false
  end.

(** The step that returned None in a run, if any. *)
Definition failed_step (t : list Event) : option Fn :=
  match filter is_step_failure t with
  | EvRet f _ :: _ => Some f
  | _ => None
  end.

Section MethodSpecs.
Context {E : Env}.

(** [m] is click method [i] on button [b]. *)
Definition method_spec (d : Driver) (b : Elem) (i : nat) (m : M unit) : Prop :=
  forall s,
    driver (st (m s)) = driver s /\
    strategy_run d b i (is_exn (res (m s))) (filter submit_ev (tr (m s))).

Fixpoint methods_from (d : Driver) (b : Elem) (i : nat) (methods : list (M unit)) : Prop :=
  match methods with
  | [] => True
  | m :: rest => method_spec d b i m /\ methods_from d b (S i) rest
  end.

(** The events of overlay dismissal: nothing [submit_ev] keeps but clicks. *)
Definition dismiss_alphabet (ev : Event) : bool := outside submit_ev ev || is_click ev.

Definition not_false (r : option bool) : Prop := r <> Some false.

Definition not_return_false (c : ctl (option bool)) : Prop := c <> Return (Some false).

(** A step is an entry and a return of None or True. *)
Definition step_spec (d : Driver) (f : Fn) (step : M (option bool)) : Prop :=
  forall s,
    exists r,
      res (step s) = Val r /\ r <> Some false /\
      driver (st (step s)) = driver s /\
      filter top_ev (tr (step s)) = [EvCall f (Some d); EvRet f (enc_step r)].

(** The postcondition of a run of the steps [todo]. *)
Definition steps_post (d : Driver) (todo : list (Fn * string)) (l : list bytes)
           (s : State) : outcome (option (list bytes)) -> State -> list Event -> Prop :=
  fun r s1 t =>
    driver s1 = driver s /\ exists v, r = Val v /\ steps_shape d todo l v t.

End MethodSpecs.

(** *** Requests *)

(** Any request sent to the outside. *)
Definition is_request (ev : Event) : bool :=
  match ev with
  | EvOp _ _ => true
  | _ => false
  end.

(** A request that was answered. *)
Definition answered (ev : Event) : bool :=
  match ev with
  | EvOp _ (Some _) => true
  | _ => false
  end.

(** The polls of a locator loop that raised, one per candidate. *)
Definition failed_polls (d : Driver) (mode : xpath -> Cond) (timeout : nat)
           (selectors : list xpath) : list Event :=
  map (fun x => tried d mode timeout x None) selectors.

Definition is_poll (ev : Event) : bool :=
  match ev with
  | EvOp o _ =>
      match o with
      | wait_until _ _ _ => true
      | _ => false
      end
  | _ => false
  end.

(** The time an event may take by the script's own account: the length of
    a sleep, the timeout of a poll. *)
Definition waiting (ev : Event) : nat :=
  match ev with
  | EvSleep secs => secs
  | EvOp o _ =>
      match o with
      | wait_until _ timeout _ => timeout
      | wait_for _ timeout _ => timeout
      | _ => 0
      end
  | _ => 0
  end.

Definition waited (t : list Event) : nat := list_sum (map waiting t).

(** *** The session functions *)

(** What a run of [check_session_validity] does between its entry and its
    return, with the value it returns. *)
Inductive probe_shape (d : Driver) : bool -> list Event -> Prop :=
| probe_unreachable :
    probe_shape d false
      [EvOp (get d "https://publish.buffer.com/all-channels") None]
| probe_no_url :
    probe_shape d false
      [ EvOp (get d "https://publish.buffer.com/all-channels") (Some tt);
        EvSleep 2; EvOp (current_url d) None ]
| probe_elsewhere url :
    contains "publish.buffer.com" url = false ->
    probe_shape d false
      [ EvOp (get d "https://publish.buffer.com/all-channels") (Some tt);
        EvSleep 2; EvOp (current_url d) (Some url) ]
| probe_no_indicator url :
    contains "publish.buffer.com" url = true ->
    probe_shape d false
      ([ EvOp (get d "https://publish.buffer.com/all-channels") (Some tt);
         EvSleep 2; EvOp (current_url d) (Some url) ]
       ++ failed_polls d presence_of_element_located 3 indicators)
| probe_valid url before x e after :
    contains "publish.buffer.com" url = true ->
    indicators = before ++ x :: after ->
    probe_shape d true
      ([ EvOp (get d "https://publish.buffer.com/all-channels") (Some tt);
         EvSleep 2; EvOp (current_url d) (Some url) ]
       ++ failed_polls d presence_of_element_located 3 before
       ++ [tried d presence_of_element_located 3 x (Some e)]).

(** The polls of a run of Vesion1.py's [check_session_validity], with the
    value it returns. *)
Inductive polls_shape_v1 (d : Driver) : bool -> list Event -> Prop :=
| v1_not_polled :
    polls_shape_v1 d false []
| v1_indicator_found before x e after :
    indicators_v1 = before ++ x :: after ->
    polls_shape_v1 d true
      (failed_polls d presence_of_element_located 5 before
         ++ [tried d presence_of_element_located 5 x (Some e)])
| v1_last_chance a :
    polls_shape_v1 d (negb (raised a))
      (failed_polls d presence_of_element_located 5 indicators_v1
         ++ [tried d presence_of_element_located 10
               "//button[contains(text(), 'New Post')]" a]).

(** What [save_cookies] asks of the outside, in order. *)
Inductive save_shape (d : Driver) : list Event -> Prop :=
| save_not_opened :
    save_shape d [EvOp (file_open COOKIE_FILE "wb") None]
| save_not_read :
    save_shape d [ EvOp (file_open COOKIE_FILE "wb") (Some tt);
                   EvOp (get_cookies d) None ]
| save_dumped cs a :
    save_shape d [ EvOp (file_open COOKIE_FILE "wb") (Some tt);
                   EvOp (get_cookies d) (Some cs);
                   EvOp (pickle_dump COOKIE_FILE cs) a ].

Definition is_add_cookie (ev : Event) : bool :=
  match ev with
  | EvOp o _ => match o with add_cookie _ _ => true | _ => false end
  | _ => false
  end.

Definition is_save_call (ev : Event) : bool :=
  match ev with
  | EvCall F_save_cookies _ => true
  | _ => false
  end.

(** *** What a step does to the page *)

(** A poll of a locator loop (3 seconds per candidate) that answered. *)
Definition located (ev : Event) : bool :=
  match ev with
  | EvOp o a =>
      match o with
      | wait_until _ 3 _ => negb (raised a)
      | _ => false
      end
  | _ => false
  end.

(** The requests that act on an element: click, clear, send_keys. *)
Definition is_interaction (ev : Event) : bool :=
  match ev with
  | EvOp o _ =>
      match o with
      | click _ | clear _ | send_keys _ _ => true
      | _ => false
      end
  | _ => false
  end.

Definition step_ev (ev : Event) : bool := located ev || is_interaction ev.

(** A click that went through; a text that was typed. *)
Definition clicked_ok (ev : Event) : bool := is_click ev && answered ev.

Definition sent_ok (ev : Event) : bool :=
  match ev with
  | EvOp o a =>
      match o with
      | send_keys _ _ => negb (raised a)
      | _ => false
      end
  | _ => false
  end.

(** What a clicking step that returned [r] shows under [step_ev]. *)
Definition clicked_resolved (d : Driver) (selectors : list xpath)
           (r : option bool) (t : list Event) : Prop :=
  (r = Some true /\
   exists x e,
     In x selectors /\
     t = [tried d element_to_be_clickable 3 x (Some e); EvOp (click e) (Some tt)]) \/
  (r = None /\ filter clicked_ok t = []).

(** What a typing step that returned [r] shows under [step_ev]. *)
Definition typed_into (d : Driver) (selectors : list xpath) (keys : string)
           (r : option bool) (t : list Event) : Prop :=
  (r = Some true /\
   exists x e,
     In x selectors /\
     t = [ tried d presence_of_element_located 3 x (Some e);
           EvOp (click e) (Some tt); EvOp (clear e) (Some tt);
           EvOp (send_keys e keys) (Some tt) ]) \/
  (r = None /\ filter sent_ok t = []).



(** *** Overlays and the submit button *)

(** A click on a close control, or beside an overlay, that went through. *)
Definition dismiss_ok (ev : Event) : bool :=
  match ev with
  | EvOp o a =>
      match o with
      | click _ | actions_click_offset _ _ _ _ => negb (raised a)
      | _ => false
      end
  | _ => false
  end.

(** The element a poll found, when the event is a poll that answered. *)
Definition found_element (ev : Event) : option Elem :=
  match ev with
  | EvOp o a =>
      match o in Op T return option T -> option Elem with
      | wait_until _ _ _ => fun a => a
      | _ => fun _ => None
      end a
  | _ => None
  end.

Definition no_find (ev : Event) : bool :=
  match found_element ev with
  | Some _ => false
  | None => true
  end.

(** The element of the last poll of [t] that answered, [init] if none did. *)
Definition last_found (t : list Event) (init : option Elem) : option Elem :=
  fold_left (fun acc ev =>
               match found_element ev with
               | Some e => Some e
               | None => acc
               end) t init.

Definition is_method (ev : Event) : bool :=
  match ev with
  | EvMethod _ => true
  | _ => false
  end.

Definition is_dismiss_call (ev : Event) : bool :=
  match ev with
  | EvCall F_dismiss_overlays _ => true
  | _ => false
  end.

(** The passes of overlay dismissal that attempt [n] can make: one before
    the search when it is not the first attempt, one after the click loop
    when it is not the last. *)
Definition dismiss_budget (n : nat) : nat :=
  (if 1 <? n then 1 else 0) + (if n <? max_attempts then 1 else 0).

(** *** The browser of a run *)

(** The launch and the shutdown of a browser. *)
Definition is_lifecycle (ev : Event) : bool :=
  match ev with
  | EvOp o _ =>
      match o with
      | chrome_launch | quit _ => true
      | _ => false
      end
  | _ => false
  end.

(** The launches and shutdowns of a run of [process_media_file] that
    starts with [current] in the global [driver]. *)
Inductive lifecycle_shape : option Driver -> list Event -> Prop :=
| browser_reused d :
    lifecycle_shape (Some d) []
| browser_replaced d a a' :
    lifecycle_shape (Some d) [EvOp (quit d) a; EvOp chrome_launch a']
| launch_failed :
    lifecycle_shape None [EvOp chrome_launch None]
| browser_launched d :
    lifecycle_shape None [EvOp chrome_launch (Some d)]
| browser_relaunched d a a' :
    lifecycle_shape None
      [EvOp chrome_launch (Some d); EvOp (quit d) a; EvOp chrome_launch a'].

(** The browser that is alive after an event, [current] being alive
    before it: a launch that answers starts one, a shutdown leaves none. *)
Definition browser_after (current : option Driver) (ev : Event) : option Driver :=
  match ev with
  | EvOp o a =>
      match o in Op T return option T -> option Driver with
      | chrome_launch => fun a => match a with Some d => Some d | None => current end
      | quit _ => fun _ => None
      | _ => fun _ => current
      end a
  | _ => current
  end.

Definition live_browser (t : list Event) (current : option Driver) : option Driver :=
  fold_left browser_after t current.

Definition is_process_ret (ev : Event) : bool :=
  match ev with
  | EvRet F_process_media_file _ => true
  | _ => false
  end.

(** *** Handler events *)

(** The event sends [text] as a message. *)
Definition says (text : string) (ev : HEvent) : bool :=
  match ev with
  | HBot o _ =>
      match o with
      | send_message _ t => (t =? text)%string
      | _ => false
      end
  | HScript _ => false
  end.

Definition is_bot (ev : HEvent) : bool :=
  match ev with
  | HBot _ _ => true
  | HScript _ => false
  end.

Section RunPredicates.
Context {E : Env}.

(** The postcondition of a dismissal loop: True after exactly one click
    that went through, False after none. *)
Definition dismissed_once : outcome bool -> State -> list Event -> Prop :=
  fun r _ t => exists b, r = Val b /\ List.length t = if b then 1 else 0.

(** The global [driver] after a run is the browser its launches and
    shutdowns leave alive. *)
Definition tracked {A} (m : M A) : Prop :=
  forall s, driver (st (m s)) = live_browser (tr (m s)) (driver s).

(** A run of [m] waits at most [n] seconds. *)
Definition within {A} (n : nat) (m : M A) : Prop :=
  forall s, waited (tr (m s)) <= n.

End RunPredicates.

(** ** A scripted world for concrete runs

    The world is a counter of the requests made so far; [policy] fixes the
    answer to each request from the request and the counter. *)

Definition default_answer {A} (o : Op A) : A :=
  match o in Op T return T with
  | chrome_launch => 1
  | quit _ => tt
  | get _ _ => tt
  | current_url _ => "https://publish.buffer.com/all-channels"
  | title _ => "Buffer"
  | wait_until _ _ _ => 7
  | wait_for _ _ _ => tt
  | find_element _ _ => 8
  | find_element_in _ _ => 9
  | click _ => tt
  | clear _ => tt
  | send_keys _ _ => tt
  | is_displayed _ => true
  | is_enabled _ => true
  | text _ => "Invalid"
  | execute_script _ _ _ => tt
  | actions_click _ _ => tt
  | actions_click_offset _ _ _ _ => tt
  | switch_to_frame _ _ => tt
  | switch_to_default_content _ => tt
  | add_cookie _ _ => tt
  | get_cookies _ => []
  | get_screenshot_as_png _ => [x89; x50]
  | file_open _ _ => tt
  | pickle_load _ =>
      [ mkCookie "sid" "1" (Some "publish.buffer.com") (Some "/") true None;
        mkCookie "pref" "2" (Some ".buffer.com") (Some "/") false None;
        mkCookie "lang" "3" None None false None ]
  | pickle_dump _ _ => tt
  | tempfile_write _ _ => "/tmp/tmpa1b2c3.mp4"
  | unlink _ => tt
  end.

Definition Policy := forall A, Op A -> nat -> option A.

Definition scripted (policy : Policy) (cookie_file : bool)
           (email password : option string) : Env := {|
  World := nat;
  exec := fun A o n => (policy A o n, S n);
  file_exists := fun _ _ => cookie_file;
  EMAIL := email;
  PASSWORD := password
|}.

(** The answer to request number [n]: a launched browser is named after
    the request that launched it, everything else has its default. *)
Definition answer_at {A} (o : Op A) (n : nat) : A :=
  match o in Op T return T with
  | chrome_launch => S n
  | o' => default_answer o'
  end.

(** Every request succeeds, except those [bad] singles out, which raise. *)
Definition failing (bad : forall A, Op A -> nat -> bool) : Policy :=
  fun A o n => if bad A o n then None else Some (answer_at o n).

(** The stored cookie named "pref" is refused by the browser. *)
Definition refuse_pref : forall A, Op A -> nat -> bool :=
  fun A o _ =>
    match o with
    | add_cookie _ c => (c_name c =? "pref")%string
    | _ => false
    end.

Definition env_refuse_pref : Env := scripted (failing refuse_pref) true None None.

(** The confirmation polls raise; everything else answers. *)
Definition no_confirmation : forall A, Op A -> nat -> bool :=
  fun A o _ =>
    match o with
    | wait_until _ 5 (presence_of_element_located x) =>
        (x =? "//div[contains(@class, 'composer') or contains(text(), 'Create a new post')]")%string
    | wait_until _ 60 _ => true
    | wait_for _ _ _ => true
    | _ => false
    end.

Definition env_no_confirmation : Env :=
  scripted (failing no_confirmation) true (Some "me@example.com") (Some "secret").

(** The browser never reports its URL, so no probe and no login succeeds;
    there is no cookie file. *)
Definition no_url : forall A, Op A -> nat -> bool :=
  fun A o _ =>
    match o with
    | current_url _ => true
    | _ => false
    end.

Definition env_logged_out : Env :=
  scripted (failing no_url) false (Some "me@example.com") (Some "secret").

(** No clickable element is ever found, so the first step fails. *)
Definition no_button : forall A, Op A -> nat -> bool :=
  fun A o _ =>
    match o with
    | wait_until _ 3 (element_to_be_clickable _) => true
    | _ => false
    end.

Definition env_no_button : Env :=
  scripted (failing no_button) false (Some "me@example.com") (Some "secret").

(** The temporary file cannot be written, so the second step fails. *)
Definition no_tempfile : forall A, Op A -> nat -> bool :=
  fun A o _ =>
    match o with
    | tempfile_write _ _ => true
    | _ => false
    end.

Definition env_no_tempfile : Env :=
  scripted (failing no_tempfile) false (Some "me@example.com") (Some "secret").

(** Every request succeeds. *)
Definition env_all_fine : Env :=
  scripted (failing (fun _ _ _ => false)) false (Some "me@example.com") (Some "secret").

(** Every request succeeds but the screenshot asked for by request
    number [k]. *)
Definition capture_fails_at (k : nat) : forall A, Op A -> nat -> bool :=
  fun A o n =>
    match o with
    | get_screenshot_as_png _ => n =? k
    | _ => false
    end.

Definition env_capture_fails (k : nat) : Env :=
  scripted (failing (capture_fails_at k)) false (Some "me@example.com") (Some "secret").

(** No click of any kind goes through. *)
Definition no_click : forall A, Op A -> nat -> bool :=
  fun A o _ =>
    match o with
    | click _ | execute_script _ _ _ | actions_click _ _ => true
    | _ => false
    end.

Definition env_no_click : Env :=
  scripted (failing no_click) false (Some "me@example.com") (Some "secret").

(** As [no_url], and only the first launch of a browser succeeds. *)
Definition no_second_browser : forall A, Op A -> nat -> bool :=
  fun A o n =>
    match o with
    | current_url _ => true
    | chrome_launch => negb (n =? 0)
    | _ => false
    end.

Definition env_no_second_browser : Env :=
  scripted (failing no_second_browser) false (Some "me@example.com") (Some "secret").

(** The first [k] requests that are polls raise. *)
Definition early_polls_fail (k : nat) : forall A, Op A -> nat -> bool :=
  fun A o n =>
    match o with
    | wait_until _ _ _ => n <? k
    | _ => false
    end.

Definition env_slow_page : Env :=
  scripted (failing (early_polls_fail 2)) false (Some "me@example.com") (Some "secret").

(** Every request succeeds but the screenshots. *)
Definition no_capture : forall A, Op A -> nat -> bool :=
  fun A o _ =>
    match o with
    | get_screenshot_as_png _ => true
    | _ => false
    end.

Definition env_no_capture : Env :=
  scripted (failing no_capture) false (Some "me@example.com") (Some "secret").



(** A bot that answers every request, in a scripted world. *)
Definition bot_answer {A} (o : BotOp A) : A :=
  match o in BotOp T return T with
  | send_message _ _ => tt
  | send_photo _ _ _ => tt
  | get_file _ => "videos/file_0.mp4"
  | download_file _ => [x00; x01]
  end.

Definition answering_bot (policy : Policy) (cookie_file : bool)
           (email password : option string)
  : @Bot (scripted policy cookie_file email password) := {|
  bot_exec := fun A o (n : @World (scripted policy cookie_file email password)) =>
                (Some (bot_answer o), S n);
  TELEGRAM_USER_CHAT_ID := Some "1001";
  str := fun _ => "error"
|}.

(** *** A world with a cookie file

    The state of the world is the cookie file: absent, present without a
    pickled list (just opened for writing), or holding the list of the
    last dump.  Opening for writing creates or truncates the file, a dump
    fills it, a load reads what the last dump wrote and raises on anything
    else.  The browser reports the cookies [jar], or raises when there is
    no jar, and accepts every other request. *)
Inductive CookieFile :=
| Absent
| Truncated
| Pickled (cs : list Cookie).

Definition file_exec (jar : option (list Cookie)) (A : Type) (o : Op A)
  : CookieFile -> option A * CookieFile :=
  match o in Op T return CookieFile -> option T * CookieFile with
  | file_open _ mode => fun w =>
      if (mode =? "wb")%string then (Some tt, Truncated)
      else match w with
           | Absent => (None, w)
           | _ => (Some tt, w)
           end
  | pickle_dump _ cs => fun w => (Some tt, Pickled cs)
  | pickle_load _ => fun w =>
      match w with
      | Pickled cs => (Some cs, w)
      | _ => (None, w)
      end
  | get_cookies _ => fun w => (jar, w)
  | o' => fun w => (Some (default_answer o'), w)
  end.

Definition file_world (jar : option (list Cookie)) : Env := {|
  World := CookieFile;
  exec := file_exec jar;
  file_exists := fun _ w => match w with Absent => false | _ => true end;
  EMAIL := None;
  PASSWORD := None
|}.

Definition start {E : Env} (w : World) : State := mkState w None.

(* ================================================================== *)
(** * Properties *)

(** ** Cookie domains *)

Lemma prefix_dot_inv (s : string) :
  String.prefix "." s = true -> exists rest, s = String "."%char rest.
Proof.
  destruct s as [|c rest]; [discriminate|].
  change (String.prefix "." (String c rest))
    with (if Ascii.ascii_dec "."%char c then String.prefix "" rest else false).
  destruct (Ascii.ascii_dec "."%char c) as [<-|]; [|discriminate].
  intros _. now exists rest.
Qed.

Lemma string_cons_neq (c : Ascii.ascii) (s : string) : s <> String c s.
Proof.
  intros H. apply (f_equal String.length) in H. simpl in H. lia.
Qed.

Lemma canonical_fixed (d : string) : canonical d = true -> normalize_domain d = d.
Proof.
  unfold canonical, normalize_domain. intros H.
  apply andb_prop in H as [H Hw]. apply andb_prop in H as [Hp Hd].
  apply negb_true_iff in Hp, Hd, Hw. now rewrite Hp, Hd, Hw.
Qed.

Lemma fixed_canonical (d : string) : normalize_domain d = d -> canonical d = true.
Proof.
  unfold canonical, normalize_domain.
  destruct (d =? "publish.buffer.com")%string eqn:Hp.
  - apply String.eqb_eq in Hp. subst d. discriminate.
  - destruct (String.prefix "." d) eqn:Hd.
    + apply prefix_dot_inv in Hd as [rest ->]. simpl. intros H.
      now apply string_cons_neq in H.
    + destruct (d =? "www.buffer.com")%string eqn:Hw; [|reflexivity].
      apply String.eqb_eq in Hw. subst d. discriminate.
Qed.

(** C3, as the script has it: the branch is one pass whose fixed points
    are the domains without a leading dot other than the two sub-domain
    spellings; normalising twice equals normalising once exactly when the
    first pass lands on such a domain.  Both sub-domain spellings become
    ['.buffer.com'], the leading-dot form becomes ['buffer.com'], and the
    two meet only after a second pass. *)
Theorem normalize_domain_fixed_points :
  (forall d, canonical d = true -> normalize_domain d = d) /\
  (forall d, normalize_domain (normalize_domain d) = normalize_domain d
             <-> canonical (normalize_domain d) = true) /\
  normalize_domain "publish.buffer.com" = ".buffer.com" /\
  normalize_domain "www.buffer.com" = ".buffer.com" /\
  normalize_domain ".buffer.com" = "buffer.com" /\
  normalize_domain (normalize_domain "publish.buffer.com")
    = normalize_domain ".buffer.com".
Proof.
  split; [exact canonical_fixed|].
  split; [|repeat split; reflexivity].
  intros d. split; [apply fixed_canonical | apply canonical_fixed].
Qed.

Lemma normalize_domain_fixed_points_witness :
  canonical "buffer.com" = true /\ normalize_domain "buffer.com" = "buffer.com".
Proof.
  split; [reflexivity|].
  apply (proj1 normalize_domain_fixed_points). reflexivity.
Defined.

(** C3 as stated fails: the image of ['publish.buffer.com'] still changes
    under a second pass, and it differs from the image of ['.buffer.com']. *)
Lemma normalize_domain_not_idempotent :
  normalize_domain (normalize_domain "publish.buffer.com")
    <> normalize_domain "publish.buffer.com" /\
  normalize_domain ".buffer.com" <> normalize_domain "publish.buffer.com".
Proof. split; discriminate. Qed.

(** ** The evidence grid *)

Section EvidenceProofs.
Context {I : Imaging}.
Variables w h : nat.

Local Abbreviation sized := (sized w h).
Local Abbreviation in_box := (in_box w h).

Ltac divmod2 k :=
  let H1 := fresh in
  let H2 := fresh in
  pose proof (Nat.div_mod_eq k 2) as H1;
  pose proof (Nat.mod_upper_bound k 2 ltac:(discriminate)) as H2.

Lemma in_box_inj (k k' X Y : nat) : in_box k X Y -> in_box k' X Y -> k = k'.
Proof.
  intros [Hx Hy] [Hx' Hy'].
  assert (k mod 2 = k' mod 2) by (divmod2 k; divmod2 k'; nia).
  assert (k / 2 = k' / 2) by nia.
  divmod2 k. divmod2 k'. lia.
Qed.

Lemma open_images_map (l : list bytes) (imgs : list (Image pixel)) :
  map image_open l = map Some imgs -> open_images l = imgs.
Proof.
  revert imgs. induction l as [|b l IH]; intros [|img imgs] H; try discriminate.
  - reflexivity.
  - simpl in H. injection H as Hb Hl. simpl. rewrite Hb. f_equal. now apply IH.
Qed.

Lemma paste_images_size (imgs : list (Image pixel)) (g : Image pixel) (i : nat) :
  width (paste_images 2 w h g i imgs) = width g /\
  height (paste_images 2 w h g i imgs) = height g.
Proof.
  revert g i. induction imgs as [|img imgs IH]; intros g i; cbn [paste_images]; [easy|].
  destruct (IH (paste g img (i mod 2 * w) (i / 2 * h)) (S i)) as [-> ->]. easy.
Qed.

Lemma paste_outside (g img : Image pixel) (k X Y : nat) :
  sized img -> ~ in_box k X Y ->
  pix (paste g img (k mod 2 * w) (k / 2 * h)) X Y = pix g X Y.
Proof.
  intros [Hw Hh] Hout. unfold paste; cbn [pix width height]. rewrite Hw, Hh.
  destruct ((k mod 2 * w <=? X) && (X <? k mod 2 * w + w)
            && (k / 2 * h <=? Y) && (Y <? k / 2 * h + h)) eqn:Hbox.
  - exfalso. apply Hout.
    repeat (apply andb_prop in Hbox as [Hbox ?]).
    unfold in_box. rewrite Nat.leb_le in *. rewrite Nat.ltb_lt in *. lia.
  - reflexivity.
Qed.

Lemma paste_images_outside (imgs : list (Image pixel)) (g : Image pixel) (i X Y : nat) :
  Forall sized imgs ->
  (forall k, i <= k < i + List.length imgs -> ~ in_box k X Y) ->
  pix (paste_images 2 w h g i imgs) X Y = pix g X Y.
Proof.
  revert g i. induction imgs as [|img imgs IH]; intros g i Hs Hout;
    cbn [paste_images]; [easy|].
  pose proof (Forall_inv Hs) as Himg. pose proof (Forall_inv_tail Hs) as Hrest.
  rewrite IH; [|assumption|].
  - apply paste_outside; [assumption|]. apply Hout. cbn [List.length]. lia.
  - intros k Hk. apply Hout. cbn [List.length]. lia.
Qed.

Lemma paste_inside (g img : Image pixel) (k a b : nat) :
  sized img -> a < w -> b < h ->
  k mod 2 * w + a < width g -> k / 2 * h + b < height g ->
  pix (paste g img (k mod 2 * w) (k / 2 * h)) (k mod 2 * w + a) (k / 2 * h + b)
  = pix img a b.
Proof.
  intros [Hw Hh] Ha Hb HX HY. unfold paste; cbn [pix width height]. rewrite Hw, Hh.
  replace (k mod 2 * w + a - k mod 2 * w) with a by lia.
  replace (k / 2 * h + b - k / 2 * h) with b by lia.
  assert (Hc : ((k mod 2 * w <=? k mod 2 * w + a)
                && (k mod 2 * w + a <? k mod 2 * w + w)
                && (k / 2 * h <=? k / 2 * h + b)
                && (k / 2 * h + b <? k / 2 * h + h)
                && (k mod 2 * w + a <? width g)
                && (k / 2 * h + b <? height g)) = true).
  { repeat (apply andb_true_intro; split);
      first [apply Nat.leb_le | apply Nat.ltb_lt]; lia. }
  now rewrite Hc.
Qed.

Lemma paste_images_inside (imgs : list (Image pixel)) (g : Image pixel)
      (i j a b : nat) (img : Image pixel) :
  Forall sized imgs -> nth_error imgs j = Some img -> a < w -> b < h ->
  (i + j) mod 2 * w + a < width g -> (i + j) / 2 * h + b < height g ->
  pix (paste_images 2 w h g i imgs) ((i + j) mod 2 * w + a) ((i + j) / 2 * h + b)
  = pix img a b.
Proof.
  revert g i j. induction imgs as [|img0 imgs IH]; intros g i j Hs Hj Ha Hb HX HY.
  - destruct j; discriminate.
  - pose proof (Forall_inv Hs) as Himg. pose proof (Forall_inv_tail Hs) as Hrest.
    destruct j as [|j]; cbn [nth_error paste_images] in Hj |- *.
    + injection Hj as ->. rewrite Nat.add_0_r in *.
      rewrite paste_images_outside; [now apply paste_inside|assumption|].
      intros k Hk Hin.
      assert (in_box i (i mod 2 * w + a) (i / 2 * h + b)) by (unfold in_box; lia).
      pose proof (in_box_inj _ _ _ _ Hin H). lia.
    + replace (i + S j) with (S i + j) in * by lia.
      apply IH; try assumption.
Qed.

(** C6: for N >= 1 snapshots that all open to images of size w x h, the
    result encodes a grid of width 2w and height ceil(N/2) h (the number
    of rows is the one [rows] with N <= 2 rows < N + 2) in which snapshot
    i fills the box at column i mod 2 and row i div 2; the empty list
    gives None. *)
Theorem combine_screenshots_grid :
  combine_screenshots [] = None /\
  forall (l : list bytes) (imgs : list (Image pixel)),
    l <> [] ->
    map image_open l = map Some imgs ->
    Forall sized imgs ->
    exists grid,
      combine_screenshots l = Some (png_save grid) /\
      combine_grid l = Some grid /\
      width grid = 2 * w /\
      (exists rows, height grid = rows * h /\
                    List.length l <= 2 * rows < List.length l + 2) /\
      forall i img a b,
        nth_error imgs i = Some img -> a < w -> b < h ->
        pix grid (i mod 2 * w + a) (i / 2 * h + b) = pix img a b.
Proof.
  split; [reflexivity|].
  intros l imgs Hne Hopen Hs.
  assert (Hlen : List.length l = List.length imgs).
  { apply (f_equal (@List.length _)) in Hopen. now rewrite !length_map in Hopen. }
  pose proof (open_images_map _ _ Hopen) as Himgs.
  destruct l as [|b0 l0]; [contradiction|].
  destruct imgs as [|first rest]; [discriminate|].
  pose proof (Forall_inv Hs) as [Hw Hh].
  set (N := List.length (first :: rest)) in *.
  set (g0 := image_new (2 * w) ((N + 2 - 1) / 2 * h)).
  exists (paste_images 2 w h g0 0 (first :: rest)).
  assert (Hgrid : combine_grid (b0 :: l0)
                  = Some (paste_images 2 w h g0 0 (first :: rest))).
  { unfold combine_grid. rewrite Himgs. rewrite Hw, Hh. reflexivity. }
  split; [unfold combine_screenshots; now rewrite Hgrid|].
  split; [exact Hgrid|].
  destruct (paste_images_size (first :: rest) g0 0) as [Hgw Hgh].
  split; [rewrite Hgw; reflexivity|].
  split.
  - exists ((N + 2 - 1) / 2). split; [rewrite Hgh; reflexivity|].
    rewrite Hlen. fold N. divmod2 (N + 2 - 1). lia.
  - intros i img a b Hi Ha Hb.
    assert (HiN : i < N) by (apply nth_error_Some; congruence).
    apply (paste_images_inside (first :: rest) g0 0 i a b img Hs Hi Ha Hb).
    + unfold g0, image_new; cbn [width height Nat.add]. divmod2 i. nia.
    + unfold g0, image_new; cbn [width height Nat.add]. divmod2 i. divmod2 (N + 2 - 1).
      assert (i / 2 + 1 <= (N + 2 - 1) / 2) by lia. nia.
Qed.

End EvidenceProofs.

Lemma combine_screenshots_grid_witness :
  exists grid,
    @combine_screenshots toy_imaging [[x07]; [x09]; [x0b]]
      = Some (@png_save toy_imaging grid) /\
    width grid = 4 /\ height grid = 2 /\
    pix grid 2 0 = 9 /\ pix grid 0 1 = 11.
Proof.
  destruct (proj2 (@combine_screenshots_grid toy_imaging 2 1)
              [[x07]; [x09]; [x0b]]
              [mkImage 2 1 (fun _ _ => 7); mkImage 2 1 (fun _ _ => 9);
               mkImage 2 1 (fun _ _ => 11)])
    as (grid & Hsave & _ & Hw & (rows & Hh & Hrows) & Hpix).
  - discriminate.
  - reflexivity.
  - repeat constructor.
  - exists grid. split; [exact Hsave|]. split; [exact Hw|].
    split; [simpl in Hrows; lia|]. split.
    + apply (Hpix 1 (mkImage 2 1 (fun _ _ => 9)) 0 0); [reflexivity|lia|lia].
    + apply (Hpix 2 (mkImage 2 1 (fun _ _ => 11)) 0 0); [reflexivity|lia|lia].
Defined.

(** ** Reasoning about runs *)

Section Logic.
Context {E : Env}.

Lemma bind_val {A B} (m : M A) (f : A -> M B) (s : State) (a : A) :
  res (m s) = Val a ->
  bind m f s = mkOut (res (f a (st (m s)))) (st (f a (st (m s))))
                     (tr (m s) ++ tr (f a (st (m s)))).
Proof.
  intros H. unfold bind. destruct (m s) as [r s1 t1]. cbn [res st tr] in *. subst r.
  now destruct (f a s1).
Qed.

Lemma bind_exn {A B} (m : M A) (f : A -> M B) (s : State) (e : exn) :
  res (m s) = Exn e -> bind m f s = mkOut (Exn e) (st (m s)) (tr (m s)).
Proof.
  intros H. unfold bind. destruct (m s) as [r s1 t1]. cbn [res st tr] in *. now subst r.
Qed.

Lemma try_val {A} (m : M A) (h : exn -> M A) (s : State) (a : A) :
  res (m s) = Val a -> try_ m h s = m s.
Proof.
  intros H. unfold try_. destruct (m s) as [r s1 t1]. cbn [res] in H. now subst r.
Qed.

Lemma try_exn {A} (m : M A) (h : exn -> M A) (s : State) (e : exn) :
  res (m s) = Exn e ->
  try_ m h s = mkOut (res (h e (st (m s)))) (st (h e (st (m s))))
                     (tr (m s) ++ tr (h e (st (m s)))).
Proof.
  intros H. unfold try_. destruct (m s) as [r s1 t1]. cbn [res st tr] in *. subst r.
  now destruct (h e s1).
Qed.

Lemma finally_val {A} (m : M A) (f : M unit) (s : State) (u : unit) :
  res (f (st (m s))) = Val u ->
  finally m f s = mkOut (res (m s)) (st (f (st (m s)))) (tr (m s) ++ tr (f (st (m s)))).
Proof.
  intros H. unfold finally. destruct (m s) as [r s1 t1]. cbn [res st tr] in *.
  destruct (f s1) as [r2 s2 t2]. cbn [res] in H. now subst r2.
Qed.

Lemma call_cases {A} (o : Op A) (s : State) :
  exists a w,
    call o s = mkOut (match a with Some v => Val v | None => Exn EnvError end)
                     (mkState w (driver s)) [EvOp o a].
Proof.
  unfold call. destruct (exec A o (world s)) as [[v|] w].
  - now exists (Some v), w.
  - now exists None, w.
Qed.

Lemma outside_filter (p : Event -> bool) (t : list Event) :
  forallb (outside p) t = true -> filter p t = [].
Proof.
  induction t as [|ev t IH]; cbn [forallb filter]; [easy|].
  unfold outside at 1. intros H. apply andb_prop in H as [Hev Ht].
  apply negb_true_iff in Hev. rewrite Hev. auto.
Qed.

(** *** Rules *)

Lemma hoare_ret {A} q X (P : A -> Prop) (a : A) : P a -> hoare q X P (ret a).
Proof. intros H s. now repeat split. Qed.

Lemma hoare_raise {A} q (P : A -> Prop) (e : exn) : hoare q true P (raise e).
Proof. intros s. now repeat split. Qed.

Lemma hoare_emit q X (P : unit -> Prop) (ev : Event) :
  q ev = true -> P tt -> hoare q X P (emit ev).
Proof. intros Hq HP s. cbn [emit tr res st forallb]. now rewrite Hq. Qed.

Lemma hoare_call {A} q (P : A -> Prop) (o : Op A) :
  (forall a, q (EvOp o a) = true) -> (forall v, P v) -> hoare q true P (call o).
Proof.
  intros Hq HP s. destruct (call_cases o s) as (a & w & ->). cbn [tr res st forallb driver].
  rewrite Hq. destruct a; auto.
Qed.

Lemma hoare_exists q X (P : bool -> Prop) (path : string) :
  (forall b, q (EvExists path b) = true) -> (forall b, P b) ->
  hoare q X P (exists_ path).
Proof. intros Hq HP s. cbn [exists_ tr res st forallb]. rewrite Hq. auto. Qed.

Lemma hoare_get_driver q X (P : option Driver -> Prop) :
  (forall d, P d) -> hoare q X P get_driver.
Proof. intros HP s. cbn. auto. Qed.

Lemma hoare_bind {A B} q X (P1 : A -> Prop) (P : B -> Prop) (m : M A) (f : A -> M B) :
  hoare q X P1 m -> (forall a, P1 a -> hoare q X P (f a)) -> hoare q X P (bind m f).
Proof.
  intros Hm Hf s. destruct (Hm s) as (Hq & Hd & Hr).
  destruct (res (m s)) as [a|e] eqn:Hres.
  - rewrite (bind_val _ _ _ a Hres). cbn [res st tr].
    destruct (Hf a Hr (st (m s))) as (Hq2 & Hd2 & Hr2).
    rewrite forallb_app, Hq, Hq2, Hd2, Hd. now repeat split.
  - rewrite (bind_exn _ _ _ e Hres). cbn [res st tr]. now repeat split.
Qed.

Lemma hoare_try {A} q X (P : A -> Prop) (m : M A) (h : exn -> M A) :
  hoare q true P m -> (forall e, hoare q X P (h e)) -> hoare q X P (try_ m h).
Proof.
  intros Hm Hh s. destruct (Hm s) as (Hq & Hd & Hr).
  destruct (res (m s)) as [a|e] eqn:Hres.
  - rewrite (try_val _ _ _ a Hres). rewrite Hres. now repeat split.
  - rewrite (try_exn _ _ _ e Hres). cbn [res st tr].
    destruct (Hh e (st (m s))) as (Hq2 & Hd2 & Hr2).
    rewrite forallb_app, Hq, Hq2, Hd2, Hd. now repeat split.
Qed.

Lemma hoare_finally {A} q X (P : A -> Prop) (m : M A) (f : M unit) :
  hoare q X P m -> hoare q false any f -> hoare q X P (finally m f).
Proof.
  intros Hm Hf s. destruct (Hm s) as (Hq & Hd & Hr).
  destruct (Hf (st (m s))) as (Hq2 & Hd2 & Hr2).
  destruct (res (f (st (m s)))) as [u|e] eqn:Hres; [|discriminate].
  rewrite (finally_val _ _ _ u Hres). cbn [res st tr].
  rewrite forallb_app, Hq, Hq2, Hd2, Hd. now repeat split.
Qed.

Lemma hoare_weaken {A} q X X' (P P' : A -> Prop) (m : M A) :
  hoare q X P m -> (X = true -> X' = true) -> (forall a, P a -> P' a) ->
  hoare q X' P' m.
Proof.
  intros Hm HX HP s. destruct (Hm s) as (Hq & Hd & Hr). repeat split; [assumption..|].
  destruct (res (m s)); auto.
Qed.

Lemma hoare_attempt {A} q X (P : option A -> Prop) (m : M A) :
  hoare q true any m -> (forall r, P r) -> hoare q X P (attempt m).
Proof.
  intros Hm HP. unfold attempt. apply hoare_try.
  - apply (hoare_bind q true any); [assumption|]. intros a _. now apply hoare_ret.
  - intros e. now apply hoare_ret.
Qed.

Lemma fn_val {A} f d enc (body : M A) (s : State) (a : A) :
  res (body s) = Val a ->
  fn f d enc body s
  = mkOut (Val a) (st (body s)) (EvCall f d :: tr (body s) ++ [EvRet f (enc a)]).
Proof.
  intros H. unfold fn, bind, try_, emit, ret, raise.
  destruct (body s) as [r s1 t1]. cbn [res st tr] in *. subst r.
  cbn [app]. now rewrite ?app_nil_r.
Qed.

Lemma fn_exn {A} f d enc (body : M A) (s : State) (e : exn) :
  res (body s) = Exn e ->
  fn f d enc body s
  = mkOut (Exn e) (st (body s)) (EvCall f d :: tr (body s) ++ [EvRaise f e]).
Proof.
  intros H. unfold fn, bind, try_, emit, ret, raise.
  destruct (body s) as [r s1 t1]. cbn [res st tr] in *. subst r.
  cbn [app]. now rewrite ?app_nil_r.
Qed.

Lemma hoare_fn {A} q X (P : A -> Prop) f d enc (body : M A) :
  q (EvCall f d) = true -> (forall v, q (EvRet f v) = true) ->
  (forall e, q (EvRaise f e) = true) ->
  hoare q X P body -> hoare q X P (fn f d enc body).
Proof.
  intros Hc Hr Hx Hb s. destruct (Hb s) as (Hq & Hd & Hres).
  destruct (res (body s)) as [a|e] eqn:Hbody.
  - rewrite (fn_val _ _ _ _ _ a Hbody). cbn [res st tr forallb].
    rewrite Hc, forallb_app, Hq. cbn [forallb]. rewrite Hr. now repeat split.
  - rewrite (fn_exn _ _ _ _ _ e Hbody). cbn [res st tr forallb].
    rewrite Hc, forallb_app, Hq. cbn [forallb]. rewrite Hx. now repeat split.
Qed.

End Logic.

(** ** The locator loop *)

Section Locator.
Context {E : Env}.

Lemma attempt_call {A} (o : Op A) (s : State) :
  exists a w,
    attempt (call o) s = mkOut (Val a) (mkState w (driver s)) [EvOp o a].
Proof.
  unfold attempt, try_, bind, call, ret.
  destruct (exec A o (world s)) as [[v|] w'].
  - now exists (Some v), w'.
  - now exists None, w'.
Qed.

(** C2: the loop polls the candidates in list order, each with the given
    timeout; it returns the element of the first candidate whose poll
    answered, after every earlier candidate was polled and raised, and
    polls nothing after it; it returns None only after every candidate of
    the list was polled and raised.  It never raises. *)
Theorem resolve_first_match (d : Driver) (mode : xpath -> Cond) (timeout : nat)
        (selectors : list xpath) (s : State) :
  exists r,
    res (resolve d mode timeout selectors s) = Val r /\
    match r with
    | Some element =>
        exists before selector after,
          selectors = before ++ selector :: after /\
          tr (resolve d mode timeout selectors s)
          = map (fun x => tried d mode timeout x None) before
            ++ [tried d mode timeout selector (Some element)]
    | None =>
        tr (resolve d mode timeout selectors s)
        = map (fun x => tried d mode timeout x None) selectors
    end.
Proof.
  revert s. induction selectors as [|x rest IH]; intros s.
  - exists None. now split.
  - cbn [resolve].
    destruct (attempt_call (wait_until d timeout (mode x)) s) as (a & w & Hrun).
    rewrite (bind_val _ _ _ a) by (now rewrite Hrun).
    rewrite Hrun. cbn [res st tr].
    destruct a as [element|].
    + exists (Some element). split; [reflexivity|].
      exists [], x, rest. now split.
    + destruct (IH (mkState w (driver s))) as (r & Hres & Htr).
      exists r. split; [exact Hres|].
      destruct r as [element|].
      * destruct Htr as (before & selector & after & -> & Htr).
        exists (x :: before), selector, after. split; [reflexivity|].
        cbn [tr app map]. now rewrite Htr.
      * cbn [tr app map]. now rewrite Htr.
Qed.

End Locator.

(** The loop of Vesion1.py's [click_new_post] on a page whose first two
    candidates do not resolve: the third is taken and the rest is not
    polled. *)
Example resolve_v1_third_candidate :
  res (@resolve env_slow_page 1 element_to_be_clickable 5 new_post_selectors_v1
         (@start env_slow_page 0)) = Val (Some 7) /\
  tr (@resolve env_slow_page 1 element_to_be_clickable 5 new_post_selectors_v1
        (@start env_slow_page 0))
  = [ tried 1 element_to_be_clickable 5
        "/html/body/div[1]/div[1]/main/div[1]/header/div[1]/div/button[2]" None;
      tried 1 element_to_be_clickable 5 "//button[contains(text(), 'New Post')]" None;
      tried 1 element_to_be_clickable 5
        "//button[.//span[contains(text(), 'New Post')]]" (Some 7) ].
Proof. split; reflexivity. Qed.

(** ** Cookie restore *)

Section CookieRestore.
Context {E : Env}.

Lemma add_cookies_run (d : Driver) (cookies : list Cookie) (skipped : nat) (s : State) :
  exists answers s',
    List.length answers = List.length cookies /\
    add_cookies d cookies skipped s
    = mkOut (Val (skipped + count_skipped answers)) s' (add_events d cookies answers).
Proof.
  revert skipped s. induction cookies as [|cookie rest IH]; intros skipped s.
  - exists [], s. split; [reflexivity|]. cbn. now rewrite Nat.add_0_r.
  - cbn [add_cookies].
    destruct (attempt_call (add_cookie d (fix_domain cookie)) s) as (a & w & Hrun).
    rewrite (bind_val _ _ _ a) by (now rewrite Hrun).
    rewrite Hrun. cbn [res st tr].
    destruct a as [[]|].
    + destruct (IH skipped (mkState w (driver s))) as (answers & s' & Hlen & Hrun').
      exists (Some tt :: answers), s'. split; [cbn; now rewrite Hlen|].
      rewrite Hrun'. reflexivity.
    + destruct (IH (skipped + 1) (mkState w (driver s))) as (answers & s' & Hlen & Hrun').
      exists (None :: answers), s'. split; [cbn; now rewrite Hlen|].
      rewrite Hrun'. cbn [res st tr]. unfold count_skipped; cbn [filter raised List.length].
      f_equal. f_equal. lia.
Qed.

Lemma loaded_cookies_add_events d cookies answers :
  Forall (fun ev => loaded_cookies ev = None) (add_events d cookies answers).
Proof.
  unfold add_events. apply Forall_forall. intros ev Hin.
  apply in_map_iff in Hin as ([c a] & <- & _). reflexivity.
Qed.

(** The body of [load_cookies], run to its end, case by case. *)
Lemma load_cookies_body (settle : nat) (d : Driver) (s : State) :
  (exists t s',
      load_cookies_with settle d s
      = mkOut (Val false) s' (EvCall F_load_cookies (Some d) :: t
                                ++ [EvRet F_load_cookies (PyBool false)]) /\
      Forall (fun ev => loaded_cookies ev = None) t) \/
  (exists before cs answers s',
      List.length answers = List.length cs /\
      Forall (fun ev => loaded_cookies ev = None) before /\
      load_cookies_with settle d s
      = mkOut (Val true) s'
          (EvCall F_load_cookies (Some d) :: (before
             ++ EvOp (pickle_load COOKIE_FILE) (Some cs)
             :: add_events d cs answers ++ skipped_report answers)
             ++ [EvRet F_load_cookies (PyBool true)])).
Proof.
  unfold load_cookies_with.
  match goal with |- context [fn _ _ _ ?b] => set (body := b) end.
  assert (Hbody :
    (exists t s', body s = mkOut (Val false) s' t /\
                  Forall (fun ev => loaded_cookies ev = None) t) \/
    (exists before cs answers s',
        List.length answers = List.length cs /\
        Forall (fun ev => loaded_cookies ev = None) before /\
        body s = mkOut (Val true) s'
                   (before ++ EvOp (pickle_load COOKIE_FILE) (Some cs)
                      :: add_events d cs answers ++ skipped_report answers))).
  { unfold body, bind, try_, exists_, call, sleep, emit, ret.
    destruct (file_exists COOKIE_FILE (world s)); cbn [negb world driver app];
      [|left; eexists _, _; split; [reflexivity|repeat constructor]].
    destruct (exec unit (get d "https://buffer.com") (world s)) as [[[]|] w1];
      cbn [world driver app];
      [|left; eexists _, _; split; [reflexivity|repeat constructor]].
    destruct (exec unit (file_open COOKIE_FILE "rb") w1) as [[[]|] w2];
      cbn [world driver app];
      [|left; eexists _, _; split; [reflexivity|repeat constructor]].
    destruct (exec (list Cookie) (pickle_load COOKIE_FILE) w2) as [[cs|] w3];
      cbn [world driver app];
      [|left; eexists _, _; split; [reflexivity|repeat constructor]].
    destruct (add_cookies_run d cs 0 (mkState w3 (driver s)))
      as (answers & s' & Hlen & Hrun).
    rewrite Hrun. cbn [Nat.add].
    right. exists [EvExists COOKIE_FILE true; EvOp (get d "https://buffer.com") (Some tt);
                   EvSleep settle; EvOp (file_open COOKIE_FILE "rb") (Some tt)],
                  cs, answers, s'.
    split; [exact Hlen|]. split; [repeat constructor|].
    unfold skipped_report.
    destruct (0 <? count_skipped answers); cbn [app];
      rewrite ?app_nil_r; reflexivity. }
  destruct Hbody as [(t & s' & Hrun & Hnone)|(before & cs & answers & s' & Hlen & Hnone & Hrun)].
  - left. exists t, s'. split; [|exact Hnone].
    rewrite (fn_val _ _ _ _ _ false) by (now rewrite Hrun). now rewrite Hrun.
  - right. exists before, cs, answers, s'. split; [exact Hlen|]. split; [exact Hnone|].
    rewrite (fn_val _ _ _ _ _ true) by (now rewrite Hrun). now rewrite Hrun.
Qed.

(** C9: once the stored cookie set has been unpickled, every cookie of it
    is handed to the browser in turn (after the domain rewrite), whether
    or not earlier ones were refused; the refused ones are counted, the
    count is reported when it is positive, and the function returns True. *)
Theorem load_cookies_partial_restore (settle : nat) (d : Driver) (s : State)
        (cookies : list Cookie) :
  In (EvOp (pickle_load COOKIE_FILE) (Some cookies)) (tr (load_cookies_with settle d s)) ->
  res (load_cookies_with settle d s) = Val true /\
  exists before answers,
    List.length answers = List.length cookies /\
    tr (load_cookies_with settle d s)
    = before ++ EvOp (pickle_load COOKIE_FILE) (Some cookies)
        :: add_events d cookies answers
        ++ skipped_report answers
        ++ [EvRet F_load_cookies (PyBool true)].
Proof.
  intros Hin.
  destruct (load_cookies_body settle d s)
    as [(t & s' & Hrun & Hnone)|(before & cs & answers & s' & Hlen & Hnone & Hrun)];
    rewrite Hrun in Hin |- *; cbn [res tr] in Hin |- *.
  - exfalso.
    destruct Hin as [Hin|Hin]; [discriminate|].
    apply in_app_or in Hin as [Hin|[Hin|[]]]; [|discriminate].
    rewrite Forall_forall in Hnone. apply Hnone in Hin. discriminate.
  - split; [reflexivity|].
    assert (cs = cookies) as ->.
    { destruct Hin as [Hin|Hin]; [discriminate|].
      apply in_app_or in Hin as [Hin|[Hin|[]]]; [|discriminate].
      apply in_app_or in Hin as [Hin|[Hin|Hin]].
      - rewrite Forall_forall in Hnone. apply Hnone in Hin. discriminate.
      - apply (f_equal loaded_cookies) in Hin. cbn in Hin. congruence.
      - apply in_app_or in Hin as [Hin|Hin].
        + pose proof (loaded_cookies_add_events d cs answers) as Hadd.
          rewrite Forall_forall in Hadd. apply Hadd in Hin. discriminate.
        + unfold skipped_report in Hin.
          destruct (0 <? count_skipped answers); [destruct Hin as [Hin|[]]|destruct Hin];
            discriminate. }
    exists (EvCall F_load_cookies (Some d) :: before), answers.
    split; [exact Hlen|].
    cbn [app]. f_equal. rewrite <- !app_assoc. cbn [app]. now rewrite <- app_assoc.
Qed.

End CookieRestore.

Lemma load_cookies_partial_restore_witness :
  res (@load_cookies_with env_refuse_pref 1 1 (@start env_refuse_pref 0)) = Val true /\
  exists before answers,
    List.length answers = 3 /\
    tr (@load_cookies_with env_refuse_pref 1 1 (@start env_refuse_pref 0))
    = before ++ EvOp (pickle_load COOKIE_FILE) (Some (default_answer (pickle_load COOKIE_FILE)))
        :: add_events 1 (default_answer (pickle_load COOKIE_FILE)) answers
        ++ skipped_report answers
        ++ [EvRet F_load_cookies (PyBool true)].
Proof.
  apply (@load_cookies_partial_restore env_refuse_pref 1 1 (@start env_refuse_pref 0)
           (default_answer (pickle_load COOKIE_FILE))).
  vm_compute. do 5 right. left. reflexivity.
Defined.

(** ** Alphabets of the loops *)

Section Alphabets.
Context {E : Env}.

Lemma in_alphabet (q : Event -> bool) (t : list Event) (ev : Event) :
  forallb q t = true -> In ev t -> q ev = true.
Proof. intros H Hin. rewrite forallb_forall in H. now apply H. Qed.

Lemma hoare_any {A} q X (P : A -> Prop) (m : M A) :
  (forall a, P a) -> hoare q X any m -> hoare q X P m.
Proof. intros HP H. apply (hoare_weaken q X X any P); auto. Qed.

Lemma hoare_resolve q X d mode timeout selectors :
  (forall x a, q (tried d mode timeout x a) = true) ->
  hoare q X any (resolve d mode timeout selectors).
Proof.
  intros Hq. induction selectors as [|x rest IH]; cbn [resolve].
  - now apply hoare_ret.
  - apply (hoare_bind q X any).
    + apply hoare_attempt; [|easy]. apply hoare_call; [apply Hq|easy].
    + intros [element|] _; [now apply hoare_ret|exact IH].
Qed.

Lemma hoare_check_indicators q X d l :
  (forall x a, q (tried d presence_of_element_located 3 x a) = true) ->
  hoare q X any (check_indicators d l).
Proof.
  intros Hq. induction l as [|x rest IH]; cbn [check_indicators].
  - now apply hoare_ret.
  - apply (hoare_bind q X any).
    + apply hoare_attempt; [|easy]. apply hoare_call; [apply Hq|easy].
    + intros [element|] _; [now apply hoare_ret|exact IH].
Qed.

Lemma hoare_add_cookies q X d cookies skipped :
  (forall c a, q (EvOp (add_cookie d c) a) = true) ->
  hoare q X any (add_cookies d cookies skipped).
Proof.
  intros Hq. revert skipped. induction cookies as [|c rest IH]; intros skipped;
    cbn [add_cookies].
  - now apply hoare_ret.
  - apply (hoare_bind q X any).
    + apply hoare_attempt; [|easy]. apply hoare_call; [apply Hq|easy].
    + intros [[]|] _; apply IH.
Qed.

Lemma hoare_try_close_buttons q X overlay_element l :
  (forall x a, q (EvOp (find_element_in overlay_element x) a) = true) ->
  (forall e a, q (EvOp (click e) a) = true) ->
  (forall n, q (EvSleep n) = true) ->
  hoare q X any (try_close_buttons overlay_element l).
Proof.
  intros Hf Hc Hs. induction l as [|x rest IH]; cbn [try_close_buttons].
  - now apply hoare_ret.
  - apply (hoare_bind q X any).
    + apply hoare_attempt; [|easy].
      apply (hoare_bind q true any); [apply hoare_call; [apply Hf|easy]|intros b _].
      apply (hoare_bind q true any); [apply hoare_call; [apply Hc|easy]|intros _ _].
      apply hoare_emit; [apply Hs|easy].
    + intros [u|] _; [now apply hoare_ret|exact IH].
Qed.

Lemma hoare_dismiss_loop q X d l :
  (forall x a, q (EvOp (find_element d x) a) = true) ->
  (forall e a, q (EvOp (is_displayed e) a) = true) ->
  (forall e x a, q (EvOp (find_element_in e x) a) = true) ->
  (forall e a, q (EvOp (click e) a) = true) ->
  (forall e a, q (EvOp (actions_click_offset d e (-10) (-10)) a) = true) ->
  (forall n, q (EvSleep n) = true) ->
  hoare q X any (dismiss_loop d l).
Proof.
  intros Hf Hd Hfi Hc Ha Hs. induction l as [|x rest IH]; cbn [dismiss_loop].
  - now apply hoare_ret.
  - apply (hoare_bind q X any).
    + apply hoare_attempt; [|easy].
      apply (hoare_bind q true any); [apply hoare_call; [apply Hf|easy]|intros oe _].
      apply (hoare_bind q true any); [apply hoare_call; [apply Hd|easy]|intros shown _].
      destruct shown; [|now apply hoare_ret].
      apply (hoare_bind q true any);
        [apply hoare_try_close_buttons; [intros; apply Hfi|exact Hc|exact Hs]|intros closed _].
      destruct closed; [now apply hoare_ret|].
      apply (hoare_bind q true any); [apply hoare_call; [apply Ha|easy]|intros _ _].
      apply (hoare_bind q true any); [apply hoare_emit; [apply Hs|easy]|intros _ _].
      now apply hoare_ret.
    + intros [[|]|] _; [now apply hoare_ret|exact IH|exact IH].
Qed.

Lemma hoare_find_share_button q X d l share_button :
  (forall x a, q (tried d presence_of_element_located 5 x a) = true) ->
  (forall e a, q (EvOp (is_displayed e) a) = true) ->
  (forall e a, q (EvOp (is_enabled e) a) = true) ->
  hoare q X any (find_share_button d l share_button).
Proof.
  intros Hw Hd He. revert share_button.
  induction l as [|x rest IH]; intros share_button; cbn [find_share_button].
  - now apply hoare_ret.
  - apply (hoare_bind q X any).
    + apply hoare_attempt; [|easy]. apply hoare_call; [apply Hw|easy].
    + intros [b|] _; [|apply IH].
      apply (hoare_bind q X any).
      * apply hoare_attempt; [|easy].
        apply (hoare_bind q true any); [apply hoare_call; [apply Hd|easy]|intros shown _].
        destruct shown; [apply hoare_call; [apply He|easy]|now apply hoare_ret].
      * intros [[|]|] _; [now apply hoare_ret|apply IH|apply IH].
Qed.

Lemma hoare_res {A} q (P : A -> Prop) (m : M A) (s : State) :
  hoare q false P m -> exists a, res (m s) = Val a /\ P a.
Proof.
  intros H. destruct (H s) as (_ & _ & Hr).
  destruct (res (m s)) as [a|e]; [now exists a|discriminate].
Qed.

End Alphabets.

(** Symbolic execution of a [hoare] goal along the syntax of the program. *)
Ltac hoare_side := first [exact I | easy | intros; reflexivity | intros; exact I].

Ltac hoare_go :=
  repeat first
    [ apply hoare_ret; hoare_side
    | apply hoare_raise
    | apply hoare_emit; [reflexivity | hoare_side]
    | apply hoare_call; [intros; reflexivity | hoare_side]
    | apply hoare_exists; [intros; reflexivity | hoare_side]
    | apply hoare_get_driver; hoare_side
    | apply hoare_try; [|intros ?]
    | apply hoare_finally
    | apply hoare_attempt; [|hoare_side]
    | apply hoare_fn; [reflexivity | intros; reflexivity | intros; reflexivity | ]
    | apply hoare_resolve; intros; reflexivity
    | apply hoare_check_indicators; intros; reflexivity
    | apply hoare_add_cookies; intros; reflexivity
    | apply hoare_try_close_buttons; intros; reflexivity
    | apply hoare_dismiss_loop; intros; reflexivity
    | apply hoare_find_share_button; intros; reflexivity
    | apply (hoare_bind _ _ any); [|intros ? _]
    | match goal with
      | |- hoare _ _ _ (match ?x with _ => _ end) => destruct x
      end ].

(** ** Unconfirmed outcomes *)

Section Unconfirmed.
Context {E : Env}.

Lemma unless_in {A} p (P : outcome A -> Prop) (m : M A) (s : State) (ev : Event) :
  unless p P m -> In ev (tr (m s)) -> p ev = true -> P (res (m s)).
Proof.
  intros H Hin Hp. destruct (H s) as [Hq|HP]; [|exact HP].
  pose proof (in_alphabet _ _ _ Hq Hin) as Hout.
  unfold outside in Hout. rewrite Hp in Hout. discriminate.
Qed.

Lemma unless_quiet {A} p (P : outcome A -> Prop) (m : M A) :
  hoare (outside p) true any m -> unless p P m.
Proof. intros H s. left. apply H. Qed.

Lemma unless_always {A} p (P : outcome A -> Prop) (m : M A) :
  (forall s, P (res (m s))) -> unless p P m.
Proof. intros H s. right. apply H. Qed.

Lemma unless_bind_done {A B} p (P1 : outcome A -> Prop) (P : outcome B -> Prop)
      (m : M A) (f : A -> M B) :
  unless p P1 m ->
  (forall a, unless p P (f a)) ->
  (forall a, P1 (Val a) -> forall s', P (res (f a s'))) ->
  (forall e, ~ P1 (Exn e)) ->
  unless p P (bind m f).
Proof.
  intros Hm Hf Hdone Hexn s.
  destruct (res (m s)) as [a|e] eqn:Hres.
  - rewrite (bind_val _ _ _ a Hres). cbn [res tr].
    destruct (Hm s) as [Hq|HP1].
    + destruct (Hf a (st (m s))) as [Hq2|HP]; [left|now right].
      now rewrite forallb_app, Hq, Hq2.
    + right. apply Hdone. now rewrite <- Hres.
  - rewrite (bind_exn _ _ _ e Hres). cbn [res tr].
    destruct (Hm s) as [Hq|HP1]; [now left|].
    rewrite Hres in HP1. now apply Hexn in HP1.
Qed.

Lemma unless_bind_quiet {A B} p (P : outcome B -> Prop) (m : M A) (f : A -> M B) :
  hoare (outside p) true any m -> (forall a, unless p P (f a)) ->
  unless p P (bind m f).
Proof.
  intros Hm Hf. apply (unless_bind_done p (fun _ => False)).
  - intros s. left. apply Hm.
  - exact Hf.
  - intros a [].
  - intros e [].
Qed.

Lemma unless_try {A} p (P : outcome A -> Prop) (m : M A) (h : exn -> M A) :
  unless p P m -> (forall e, ~ P (Exn e)) -> (forall e, unless p P (h e)) ->
  unless p P (try_ m h).
Proof.
  intros Hm Hexn Hh s.
  destruct (res (m s)) as [a|e] eqn:Hres.
  - rewrite (try_val _ _ _ a Hres). apply Hm.
  - rewrite (try_exn _ _ _ e Hres). cbn [res tr].
    destruct (Hm s) as [Hq|HP].
    + destruct (Hh e (st (m s))) as [Hq2|HP]; [left|now right].
      now rewrite forallb_app, Hq, Hq2.
    + rewrite Hres in HP. now apply Hexn in HP.
Qed.

Lemma unless_finally {A} p (P : outcome A -> Prop) (m : M A) (f : M unit) :
  unless p P m -> hoare (outside p) false any f -> unless p P (finally m f).
Proof.
  intros Hm Hf s.
  destruct (Hf (st (m s))) as (Hq2 & _ & Hr2).
  destruct (res (f (st (m s)))) as [u|e] eqn:Hres; [|discriminate].
  rewrite (finally_val _ _ _ u Hres). cbn [res tr].
  destruct (Hm s) as [Hq|HP]; [left|now right].
  now rewrite forallb_app, Hq, Hq2.
Qed.

Lemma unless_fn {A} p (P : outcome A -> Prop) f d enc (body : M A) :
  p (EvCall f d) = false -> (forall v, p (EvRet f v) = false) ->
  (forall e, p (EvRaise f e) = false) ->
  unless p P body -> unless p P (fn f d enc body).
Proof.
  intros Hc Hr Hx Hb s. destruct (Hb s) as [Hq|HP].
  - left. destruct (res (body s)) as [a|e] eqn:Hres.
    + rewrite (fn_val _ _ _ _ _ a Hres). cbn [tr forallb].
      rewrite forallb_app, Hq. cbn [forallb]. unfold outside. now rewrite Hc, Hr.
    + rewrite (fn_exn _ _ _ _ _ e Hres). cbn [tr forallb].
      rewrite forallb_app, Hq. cbn [forallb]. unfold outside. now rewrite Hc, Hx.
  - right. destruct (res (body s)) as [a|e] eqn:Hres.
    + now rewrite (fn_val _ _ _ _ _ a Hres).
    + now rewrite (fn_exn _ _ _ _ _ e Hres).
Qed.

Lemma done_true_not_exn {B} (wrap : option bool -> B) (e : exn) :
  ~ done_true wrap (Exn e).
Proof. discriminate. Qed.

End Unconfirmed.

Section UnconfirmedSteps.
Context {E : Env}.

Lemma click_new_post_unless (d : Driver) :
  unless dialog_poll (done_true id) (click_new_post d).
Proof.
  unfold click_new_post. apply unless_fn; [reflexivity..|].
  apply unless_try; [|apply done_true_not_exn|intros; apply unless_quiet; hoare_go].
  apply unless_bind_quiet; [hoare_go|intros _].
  apply unless_bind_quiet; [hoare_go|intros _].
  apply unless_bind_quiet; [hoare_go|intros [b|]]; [|apply unless_quiet; hoare_go].
  apply unless_bind_quiet; [hoare_go|intros _].
  apply unless_bind_quiet; [hoare_go|intros _].
  apply unless_always. intros s.
  destruct (hoare_res everything (fun r => r = Some true)
              (opened <- attempt (call (wait_until d 5 composer_dialog)) ;;
               match opened with
               | Some _ => ret (Some true)
               | None => ret (Some true)
               end) s) as (a & Hres & ->); [hoare_go|exact Hres].
Qed.

Lemma upload_video_unless (d : Driver) (video_bytes : bytes) :
  unless upload_poll (done_true id) (upload_video d video_bytes).
Proof.
  unfold upload_video. apply unless_fn; [reflexivity..|].
  apply unless_try; [|apply done_true_not_exn|intros; apply unless_quiet; hoare_go].
  apply unless_bind_quiet; [hoare_go|intros temp_file_path].
  apply unless_finally; [|hoare_go].
  apply unless_bind_quiet; [hoare_go|intros file_input].
  apply unless_bind_quiet; [hoare_go|intros _].
  apply unless_bind_quiet; [hoare_go|intros _].
  apply unless_always. intros s.
  match goal with |- done_true id (res (?m s)) =>
    destruct (hoare_res everything (fun r => r = Some true) m s) as (a & Hres & ->);
      [hoare_go|exact Hres]
  end.
Qed.

Lemma try_click_methods_unless (d : Driver) (n i : nat) (methods : list (M unit)) :
  Forall (hoare (outside submit_poll) true any) methods ->
  unless submit_poll (done_true id) (try_click_methods d n i methods).
Proof.
  intros Hm. revert i. induction Hm as [|click_method rest Hquiet _ IH]; intros i;
    cbn [try_click_methods].
  - apply unless_quiet. hoare_go.
  - apply (unless_bind_done _ (done_true id)).
    + apply unless_try; [|apply done_true_not_exn|intros; apply unless_quiet; hoare_go].
      apply unless_bind_quiet; [hoare_go|intros _].
      apply unless_bind_quiet; [exact Hquiet|intros _].
      apply unless_bind_quiet; [hoare_go|intros _].
      apply unless_bind_quiet; [hoare_go|intros _].
      apply unless_always. intros s.
      match goal with |- done_true id (res (?m s)) =>
        destruct (hoare_res everything (fun r => r = Some true) m s) as (a & Hres & ->);
          [hoare_go|exact Hres]
      end.
    + intros [v|]; [apply unless_quiet; hoare_go|apply IH].
    + intros a Ha s'. injection Ha as ->. reflexivity.
    + apply done_true_not_exn.
Qed.

Lemma click_methods_quiet (d : Driver) (share_button : Elem) :
  Forall (hoare (outside submit_poll) true any) (click_methods d share_button).
Proof.
  unfold click_methods.
  repeat (apply Forall_cons; [hoare_go|]). apply Forall_nil.
Qed.

Lemma dismiss_overlays_quiet (d : Driver) :
  hoare (outside submit_poll) true any (dismiss_overlays d).
Proof. unfold dismiss_overlays. hoare_go. Qed.

Lemma submit_attempt_unless (d : Driver) (attempt_no : nat) :
  unless submit_poll (done_true Return) (submit_attempt d attempt_no).
Proof.
  unfold submit_attempt.
  apply unless_try; [|apply done_true_not_exn|].
  - apply unless_bind_quiet; [hoare_go|intros _].
    apply unless_bind_quiet;
      [destruct (1 <? attempt_no); [|hoare_go];
       apply (hoare_bind _ _ any); [apply dismiss_overlays_quiet|intros; hoare_go]
      |intros _].
    apply unless_bind_quiet; [hoare_go|intros [share_button|]].
    + apply (unless_bind_done _ (done_true id)).
      * apply try_click_methods_unless, click_methods_quiet.
      * intros [v|]; apply unless_quiet; [hoare_go|].
        destruct (attempt_no <? max_attempts); [|hoare_go].
        apply (hoare_bind _ _ any); [apply dismiss_overlays_quiet|intros; hoare_go].
      * intros a Ha s'. injection Ha as ->. reflexivity.
      * apply done_true_not_exn.
    + apply unless_quiet. hoare_go.
  - intros e. apply unless_quiet. hoare_go.
Qed.

Lemma submit_post_unless (d : Driver) :
  unless submit_poll (done_true id) (submit_post d).
Proof.
  unfold submit_post. apply unless_fn; [reflexivity..|].
  induction (seq 1 max_attempts) as [|attempt_no rest IH]; cbn [submit_attempts].
  - apply unless_quiet. hoare_go.
  - apply (unless_bind_done _ (done_true Return)).
    + apply submit_attempt_unless.
    + intros [|v]; [exact IH|apply unless_quiet; hoare_go].
    + intros a Ha s'. injection Ha as ->. reflexivity.
    + apply done_true_not_exn.
Qed.

(** C7: a step whose action went through but whose confirmation poll
    raised still returns True: [click_new_post] when the composer dialog
    is not seen, [upload_video] when neither the progress bar's
    disappearance nor the preview is seen, [submit_post] when no
    post-submission signal is seen; and a step that returned True is
    followed by its screenshot and by the rest of the step sequence. *)
Theorem unconfirmed_is_success (d : Driver) (video_bytes : bytes) (s : State) :
  (In (EvOp (wait_until d 5 composer_dialog) None) (tr (click_new_post d s)) ->
   res (click_new_post d s) = Val (Some true)) /\
  (In (EvOp (wait_until d 60 upload_preview) None) (tr (upload_video d video_bytes s)) ->
   res (upload_video d video_bytes s) = Val (Some true)) /\
  (In (EvOp (wait_for d 10 post_submitted) None) (tr (submit_post d s)) ->
   res (submit_post d s) = Val (Some true)) /\
  (forall (step : M (option bool)) failure l k,
     res (step s) = Val (Some true) ->
     exists l' s',
       tr (run_step d step failure l k s)
       = tr (step s) ++ tr (take_screenshot d (st (step s))) ++ tr (k l' s') /\
       res (run_step d step failure l k s) = res (k l' s')).
Proof.
  repeat split.
  - intros Hin. now apply (unless_in _ _ _ _ _ (click_new_post_unless d) Hin).
  - intros Hin. now apply (unless_in _ _ _ _ _ (upload_video_unless d video_bytes) Hin).
  - intros Hin. now apply (unless_in _ _ _ _ _ (submit_post_unless d) Hin).
  - intros step failure l k Hstep. unfold run_step.
    rewrite (bind_val _ _ _ (Some true) Hstep). cbn [res tr].
    destruct (hoare_res everything any (take_screenshot d) (st (step s)))
      as (png & Hpng & _); [unfold take_screenshot; hoare_go|].
    rewrite (bind_val _ _ _ png Hpng). cbn [res tr].
    destruct png as [[|b bs]|]; eexists _, _; split; reflexivity.
Qed.

End UnconfirmedSteps.

Ltac find_in := repeat first [left; reflexivity | right].

Lemma unconfirmed_is_success_witness :
  res (@click_new_post env_no_confirmation 1 (@start env_no_confirmation 0))
    = Val (Some true) /\
  res (@upload_video env_no_confirmation 1 [x00] (@start env_no_confirmation 0))
    = Val (Some true) /\
  res (@submit_post env_no_confirmation 1 (@start env_no_confirmation 0))
    = Val (Some true).
Proof.
  destruct (@unconfirmed_is_success env_no_confirmation 1 [x00]
              (@start env_no_confirmation 0)) as (H1 & H2 & H3 & _).
  split; [|split].
  - apply H1. vm_compute. find_in.
  - apply H2. vm_compute. find_in.
  - apply H3. vm_compute. find_in.
Defined.

(** ** Session establishment *)

Section Session.
Context {E : Env}.

(** A recorded function whose body is silent under [p] and cannot raise
    shows, under [p], as its entry and its return. *)
Lemma fn_skeleton {A} p (P : A -> Prop) f d enc (body : M A) (s : State) :
  hoare (outside p) false P body ->
  exists a,
    res (fn f d enc body s) = Val a /\ P a /\
    driver (st (fn f d enc body s)) = driver s /\
    filter p (tr (fn f d enc body s))
    = filter p [EvCall f d] ++ filter p [EvRet f (enc a)].
Proof.
  intros H. destruct (H s) as (Hq & Hd & Hr).
  destruct (res (body s)) as [a|e] eqn:Hres; [|discriminate].
  exists a. rewrite (fn_val _ _ _ _ _ a Hres). cbn [res st tr].
  split; [reflexivity|]. split; [exact Hr|]. split; [exact Hd|].
  change (EvCall f d :: tr (body s) ++ [EvRet f (enc a)])
    with ([EvCall f d] ++ tr (body s) ++ [EvRet f (enc a)]).
  rewrite !filter_app. now rewrite (outside_filter p _ Hq).
Qed.

Lemma check_session_validity_skeleton (d : Driver) (s : State) :
  exists b,
    res (check_session_validity d s) = Val b /\
    driver (st (check_session_validity d s)) = driver s /\
    session_trace (tr (check_session_validity d s))
    = [EvCall F_check_session_validity (Some d);
       EvRet F_check_session_validity (PyBool b)].
Proof.
  unfold check_session_validity, session_trace.
  match goal with |- context [fn ?f ?d ?enc ?body] =>
    destruct (fn_skeleton session_ev any f d enc body s) as (b & Hres & _ & Hd & Hsk) end.
  - hoare_go.
  - exists b. now repeat split.
Qed.

Lemma load_cookies_skeleton (d : Driver) (s : State) :
  exists b,
    res (load_cookies d s) = Val b /\
    driver (st (load_cookies d s)) = driver s /\
    session_trace (tr (load_cookies d s))
    = [EvCall F_load_cookies (Some d); EvRet F_load_cookies (PyBool b)].
Proof.
  unfold load_cookies, load_cookies_with, session_trace.
  match goal with |- context [fn ?f ?d ?enc ?body] =>
    destruct (fn_skeleton session_ev any f d enc body s) as (b & Hres & _ & Hd & Hsk) end.
  - hoare_go.
  - exists b. now repeat split.
Qed.

Lemma login_with_credentials_skeleton (d : Driver) (s : State) :
  exists b,
    res (login_with_credentials d s) = Val b /\
    driver (st (login_with_credentials d s)) = driver s /\
    session_trace (tr (login_with_credentials d s))
    = [EvCall F_login_with_credentials (Some d);
       EvRet F_login_with_credentials (PyBool b)].
Proof.
  unfold login_with_credentials, session_trace.
  match goal with |- context [fn ?f ?d ?enc ?body] =>
    destruct (fn_skeleton session_ev any f d enc body s) as (b & Hres & _ & Hd & Hsk) end.
  - unfold handle_captcha, save_cookies, send_keys_opt. hoare_go.
  - exists b. now repeat split.
Qed.

(** *** Backward rules for [wp] *)

Lemma wp_ret {A} p (a : A) Q s : Q (Val a) s [] -> wp p (ret a) Q s.
Proof. easy. Qed.

Lemma wp_raise {A} p (e : exn) (Q : outcome A -> State -> list Event -> Prop) s :
  Q (Exn e) s [] -> wp p (raise e) Q s.
Proof. easy. Qed.

Lemma wp_emit p ev (Q : outcome unit -> State -> list Event -> Prop) s :
  Q (Val tt) s (filter p [ev]) -> wp p (emit ev) Q s.
Proof. easy. Qed.

Lemma wp_bind {A B} p (m : M A) (f : A -> M B) Q s :
  wp p m (fun r s1 t1 =>
            match r with
            | Val a => wp p (f a) (fun r2 s2 t2 => Q r2 s2 (t1 ++ t2)) s1
            | Exn e => Q (Exn e) s1 t1
            end) s ->
  wp p (bind m f) Q s.
Proof.
  unfold wp. intros H. destruct (res (m s)) as [a|e] eqn:Hres.
  - rewrite (bind_val _ _ _ a Hres). cbn [res st tr]. rewrite filter_app. apply H.
  - now rewrite (bind_exn _ _ _ e Hres).
Qed.

Lemma wp_try {A} p (m : M A) (h : exn -> M A) Q s :
  wp p m (fun r s1 t1 =>
            match r with
            | Val a => Q (Val a) s1 t1
            | Exn e => wp p (h e) (fun r2 s2 t2 => Q r2 s2 (t1 ++ t2)) s1
            end) s ->
  wp p (try_ m h) Q s.
Proof.
  unfold wp. intros H. destruct (res (m s)) as [a|e] eqn:Hres.
  - rewrite (try_val _ _ _ a Hres). now rewrite Hres.
  - rewrite (try_exn _ _ _ e Hres). cbn [res st tr]. rewrite filter_app. apply H.
Qed.

Lemma wp_fn {A} p f d enc (body : M A) Q s :
  wp p body (fun r s1 t =>
               Q r s1 (filter p [EvCall f d] ++ t
                       ++ filter p [match r with
                                    | Val a => EvRet f (enc a)
                                    | Exn e => EvRaise f e
                                    end])) s ->
  wp p (fn f d enc body) Q s.
Proof.
  unfold wp. intros H. destruct (res (body s)) as [a|e] eqn:Hres.
  - rewrite (fn_val _ _ _ _ _ a Hres). cbn [res st tr].
    change (EvCall f d :: tr (body s) ++ [EvRet f (enc a)])
      with ([EvCall f d] ++ tr (body s) ++ [EvRet f (enc a)]).
    now rewrite !filter_app.
  - rewrite (fn_exn _ _ _ _ _ e Hres). cbn [res st tr].
    change (EvCall f d :: tr (body s) ++ [EvRaise f e])
      with ([EvCall f d] ++ tr (body s) ++ [EvRaise f e]).
    now rewrite !filter_app.
Qed.

(** A run that is silent under [p]. *)
Lemma wp_quiet {A} p X (P : A -> Prop) (m : M A) Q s :
  hoare (outside p) X P m ->
  (forall a s1, P a -> driver s1 = driver s -> Q (Val a) s1 []) ->
  (X = true -> forall e s1, driver s1 = driver s -> Q (Exn e) s1 []) ->
  wp p m Q s.
Proof.
  unfold wp. intros H HV HE. destruct (H s) as (Hq & Hd & Hr).
  rewrite (outside_filter p _ Hq).
  destruct (res (m s)) as [a|e]; auto.
Qed.

(** A run known by its outcome and what [p] keeps of it. *)
Lemma wp_known {A} p (m : M A) (X : A -> list Event) Q s :
  (forall s0, exists a, res (m s0) = Val a /\ driver (st (m s0)) = driver s0 /\
                        filter p (tr (m s0)) = X a) ->
  (forall a s1, driver s1 = driver s -> Q (Val a) s1 (X a)) ->
  wp p m Q s.
Proof.
  unfold wp. intros H HQ. destruct (H s) as (a & -> & Hd & ->). now apply HQ.
Qed.

Lemma wp_conseq {A} p (m : M A) (Q Q' : outcome A -> State -> list Event -> Prop) s :
  wp p m Q s -> (forall r s1 t, Q r s1 t -> Q' r s1 t) -> wp p m Q' s.
Proof. unfold wp. auto. Qed.

(** *** The shape of establish_session *)

Lemma establish_session_shape (settle : nat) (d : Driver) (s : State) :
  wp session_ev (establish_session_with settle d) (fun r _ t => session_shape d r t) s.
Proof.
  unfold establish_session_with.
  apply wp_fn. apply wp_bind.
  apply (wp_known _ _ _ _ _ (check_session_validity_skeleton d)).
  intros [|] s1 _.
  { apply wp_ret. apply valid_at_once. }
  apply wp_bind.
  apply (wp_known _ _ _ _ _ (load_cookies_skeleton d)).
  intros loaded s2 _. apply wp_bind.
  assert (Hlogin : forall before s3,
    failed_before_login d before ->
    wp session_ev
       (if negb (truthy EMAIL) || negb (truthy PASSWORD)
        then raise (ValueError "EMAIL and PASSWORD must be set in .env file")
        else logged_in <- login_with_credentials d ;;
             (if logged_in then ret true else ret false))
       (fun r _ t =>
          session_shape d r
            (before ++ t
             ++ [match r with
                 | Val a => EvRet F_establish_session (PyBool a)
                 | Exn e => EvRaise F_establish_session e
                 end])) s3).
  { intros before s3 Hbefore.
    destruct (negb (truthy EMAIL) || negb (truthy PASSWORD)).
    - apply wp_raise. apply (credentials_missing d _ _ Hbefore).
    - apply wp_bind.
      apply (wp_known _ _ _ _ _ (login_with_credentials_skeleton d)).
      intros b s4 _.
      assert (Hb : (if b then ret true else ret false) = ret b) by now destruct b.
      rewrite Hb. apply wp_ret. rewrite app_nil_r.
      apply (login_attempted d _ b Hbefore). }
  destruct loaded.
  - apply wp_bind. apply wp_emit.
    apply (wp_known _ _ _ _ _ (check_session_validity_skeleton d)).
    intros [|] s4 _.
    + apply wp_ret. apply valid_after_restore.
    + eapply wp_conseq; [apply (Hlogin (probe_then_stale_restore d)); now right|].
      intros [a|e] s5 t H; exact H.
  - apply wp_ret.
    eapply wp_conseq; [apply (Hlogin (probe_then_no_restore d)); now left|].
    intros [a|e] s5 t H; exact H.
Qed.

End Session.

(** The place of the only element of a list that satisfies [P]. *)
Lemma unique_split {A} (P : A -> bool) (pre : list A) (x : A) (post : list A) :
  forallb (fun a => negb (P a)) pre = true ->
  forallb (fun a => negb (P a)) post = true ->
  forall before y after,
    pre ++ x :: post = before ++ y :: after -> P y = true -> before = pre.
Proof.
  intros Hpre Hpost. induction pre as [|a pre IH]; intros before y after Heq Hy.
  - destruct before as [|b before]; [reflexivity|].
    cbn [app] in Heq. injection Heq as _ Heq. exfalso.
    assert (Hin : In y post) by (rewrite Heq; apply in_elt).
    rewrite forallb_forall in Hpost. apply Hpost in Hin. rewrite Hy in Hin. discriminate.
  - cbn [forallb] in Hpre. apply andb_prop in Hpre as [Ha Hpre].
    destruct before as [|b before]; cbn [app] in Heq; injection Heq as Hhd Heq.
    + subst y. rewrite Hy in Ha. discriminate.
    + subst b. f_equal. now apply (IH Hpre before y after).
Qed.

Section SessionOrder.
Context {E : Env}.

Ltac in_absurd H :=
  cbn [In app] in H;
  repeat (destruct H as [H|H]; [discriminate H|]);
  try contradiction.

(** C4: in what a run of [establish_session] shows of the session
    functions, everything before an entry into [login_with_credentials] is
    the failed first probe followed by a cookie restore that either failed
    itself or was followed by a failed second probe; and a run in which a
    probe returned True contains no entry into [login_with_credentials]. *)
Theorem credential_login_is_last_resort (settle : nat) (d : Driver) (s : State) :
  (forall before after d',
     session_trace (tr (establish_session_with settle d s))
     = before ++ EvCall F_login_with_credentials d' :: after ->
     failed_before_login d before) /\
  (In (EvRet F_check_session_validity (PyBool true))
      (tr (establish_session_with settle d s)) ->
   forall d', ~ In (EvCall F_login_with_credentials d')
                   (tr (establish_session_with settle d s))).
Proof.
  pose proof (establish_session_shape settle d s) as Hshape. unfold wp in Hshape.
  fold (session_trace (tr (establish_session_with settle d s))) in Hshape.
  split.
  - intros before after d' Heq. rewrite Heq in Hshape.
    inversion Hshape as [Hr Hsk|Hr Hsk|pre msg Hpre Hr Hsk|pre b Hpre Hr Hsk].
    + exfalso. symmetry in Hsk.
      apply (f_equal (filter is_login_call)) in Hsk. rewrite filter_app in Hsk.
      cbn [filter is_login_call] in Hsk.
      destruct (filter is_login_call before); discriminate.
    + exfalso. symmetry in Hsk.
      apply (f_equal (filter is_login_call)) in Hsk. rewrite filter_app in Hsk.
      cbn [filter is_login_call] in Hsk.
      destruct (filter is_login_call before); discriminate.
    + exfalso.
      apply (f_equal (filter is_login_call)) in Hsk. rewrite !filter_app in Hsk.
      cbn [filter is_login_call] in Hsk.
      assert (Hnone : filter is_login_call pre = [])
        by (destruct Hpre as [-> | ->]; reflexivity).
      rewrite Hnone in Hsk. cbn [app] in Hsk.
      destruct (filter is_login_call before); discriminate.
    + assert (Hb : before = pre); [|now rewrite Hb].
      apply (unique_split is_login_call pre
               (EvCall F_login_with_credentials (Some d))
               [EvRet F_login_with_credentials (PyBool b);
                EvRet F_establish_session (PyBool b)]
               ltac:(destruct Hpre as [-> | ->]; reflexivity)
               ltac:(reflexivity)
               before (EvCall F_login_with_credentials d') after);
        [exact Hsk|reflexivity].
  - intros Hprobe d' Hlogin.
    assert (Hp : In (EvRet F_check_session_validity (PyBool true))
                    (session_trace (tr (establish_session_with settle d s))))
      by (apply filter_In; now split).
    assert (Hl : In (EvCall F_login_with_credentials d')
                    (session_trace (tr (establish_session_with settle d s))))
      by (apply filter_In; now split).
    inversion Hshape as [Hr Hsk|Hr Hsk|pre msg Hpre Hr Hsk|pre b Hpre Hr Hsk];
      rewrite <- Hsk in Hp, Hl.
    + in_absurd Hl.
    + in_absurd Hl.
    + destruct Hpre as [-> | ->]; unfold probe_then_no_restore, probe_then_stale_restore in Hp;
        in_absurd Hp.
    + destruct Hpre as [-> | ->]; unfold probe_then_no_restore, probe_then_stale_restore in Hp;
        in_absurd Hp.
Qed.

End SessionOrder.

Lemma credential_login_is_last_resort_witness :
  failed_before_login 1
    [ EvCall F_establish_session (Some 1);
      EvCall F_check_session_validity (Some 1);
      EvRet F_check_session_validity (PyBool false);
      EvCall F_load_cookies (Some 1);
      EvRet F_load_cookies (PyBool false) ].
Proof.
  apply (proj1 (@credential_login_is_last_resort env_logged_out 2 1
                  (@start env_logged_out 0))
           _ [EvRet F_login_with_credentials (PyBool false);
              EvRet F_establish_session (PyBool false)] (Some 1)).
  vm_compute. reflexivity.
Defined.

(** ** The submission controller *)

Section Submission.
Context {E : Env}.

Lemma wp_spec {A} p (m : M A) (R : A -> list Event -> Prop) Q s :
  (forall s0, exists a, res (m s0) = Val a /\ driver (st (m s0)) = driver s0 /\
                        R a (filter p (tr (m s0)))) ->
  (forall a s1 t, driver s1 = driver s -> R a t -> Q (Val a) s1 t) ->
  wp p m Q s.
Proof.
  unfold wp. intros H HQ. destruct (H s) as (a & -> & Hd & HR). now apply HQ.
Qed.

Lemma forallb_filter_impl (q p r : Event -> bool) (t : list Event) :
  (forall ev, q ev = true -> p ev = true -> r ev = true) ->
  forallb q t = true -> forallb r (filter p t) = true.
Proof.
  intros Himp. induction t as [|ev t IH]; cbn [forallb filter]; [easy|].
  intros H. apply andb_prop in H as [Hev Ht].
  destruct (p ev) eqn:Hp; [|auto].
  cbn [forallb]. rewrite (Himp ev Hev Hp). auto.
Qed.

Lemma dismiss_overlays_skeleton (d : Driver) (s0 : State) :
  exists b,
    res (dismiss_overlays d s0) = Val b /\
    driver (st (dismiss_overlays d s0)) = driver s0 /\
    dismissal d (filter submit_ev (tr (dismiss_overlays d s0))).
Proof.
  unfold dismiss_overlays.
  match goal with |- context [fn ?f ?dd ?enc ?body] => set (bd := body) end.
  assert (Hbody : hoare dismiss_alphabet false any bd) by (unfold bd; hoare_go).
  destruct (Hbody s0) as (Hq & Hd & Hr).
  destruct (res (bd s0)) as [b|e] eqn:Hres; [|discriminate].
  exists b. rewrite (fn_val _ _ _ _ _ b Hres). cbn [res st tr].
  split; [reflexivity|]. split; [exact Hd|].
  exists b, (filter submit_ev (tr (bd s0))). split.
  - change (EvCall F_dismiss_overlays (Some d) :: tr (bd s0)
              ++ [EvRet F_dismiss_overlays (PyBool b)])
      with ([EvCall F_dismiss_overlays (Some d)] ++ tr (bd s0)
              ++ [EvRet F_dismiss_overlays (PyBool b)]).
    now rewrite !filter_app.
  - apply (forallb_filter_impl dismiss_alphabet); [|exact Hq].
    intros ev Hev Hp. unfold dismiss_alphabet, outside in Hev.
    now rewrite Hp in Hev.
Qed.

Lemma call_method_spec (o : Op unit) (s : State) :
  driver (st (call o s)) = driver s /\
  exists a, is_exn (res (call o s)) = raised a /\ tr (call o s) = [EvOp o a].
Proof.
  destruct (call_cases o s) as (a & w & ->). cbn [st res tr driver].
  split; [reflexivity|]. exists a. now destruct a.
Qed.

Lemma click_methods_spec (d : Driver) (b : Elem) :
  methods_from d b 1 (click_methods d b).
Proof.
  unfold click_methods. cbn [methods_from]. repeat split.
  - apply (proj1 (call_method_spec (click b) s)).
  - destruct (call_method_spec (click b) s) as (_ & a & -> & ->). apply direct_click.
  - apply (proj1 (call_method_spec (execute_script d "arguments[0].click();" b) s)).
  - destruct (call_method_spec (execute_script d "arguments[0].click();" b) s)
      as (_ & a & -> & ->). apply javascript_click.
  - apply (proj1 (call_method_spec (actions_click d b) s)).
  - destruct (call_method_spec (actions_click d b) s) as (_ & a & -> & ->).
    apply action_chains_click.
  - destruct (call_cases (execute_script d "arguments[0].scrollIntoView(true);" b) s)
      as ([[]|] & w & Hrun).
    + rewrite (bind_val _ _ _ tt) by (now rewrite Hrun). rewrite Hrun. cbn [res st tr].
      rewrite (bind_val _ _ _ tt) by reflexivity. cbn [res st tr sleep emit].
      now rewrite (proj1 (call_method_spec (click b) (mkState w (driver s)))).
    + rewrite (bind_exn _ _ _ EnvError) by (now rewrite Hrun). now rewrite Hrun.
  - destruct (call_cases (execute_script d "arguments[0].scrollIntoView(true);" b) s)
      as ([[]|] & w & Hrun).
    + rewrite (bind_val _ _ _ tt) by (now rewrite Hrun). rewrite Hrun. cbn [res st tr].
      rewrite (bind_val _ _ _ tt) by reflexivity. cbn [res st tr sleep emit].
      destruct (call_method_spec (click b) (mkState w (driver s)))
        as (_ & a & -> & ->).
      apply scroll_then_click.
    + rewrite (bind_exn _ _ _ EnvError) by (now rewrite Hrun). rewrite Hrun.
      apply scroll_raised.
Qed.

Lemma wp_method (d : Driver) (b : Elem) (i : nat) (m : M unit) Q s :
  method_spec d b i m ->
  (forall s1 t, driver s1 = driver s -> strategy_run d b i false t -> Q (Val tt) s1 t) ->
  (forall e s1 t, driver s1 = driver s -> strategy_run d b i true t -> Q (Exn e) s1 t) ->
  wp submit_ev m Q s.
Proof.
  unfold wp. intros Hm HV HE. destruct (Hm s) as [Hd Hrun].
  destruct (res (m s)) as [[]|e]; cbn [is_exn] in Hrun; auto.
Qed.

Lemma try_click_methods_shape (d : Driver) (b : Elem) (n : nat)
      (methods : list (M unit)) (i : nat) (s : State) :
  methods_from d b i methods ->
  i + List.length methods = 5 ->
  wp submit_ev (try_click_methods d n i methods)
     (fun r s1 t => driver s1 = driver s /\ exists v, r = Val v /\ clicks_shape d b i v t) s.
Proof.
  revert i s. induction methods as [|m rest IH]; intros i s Hm Hlen; cbn [try_click_methods].
  - apply wp_ret. split; [reflexivity|]. exists None. split; [reflexivity|].
    cbn [List.length] in Hlen. replace i with 5 by lia. apply clicks_exhausted.
  - destruct Hm as [Hm Hrest]. cbn [List.length] in Hlen.
    apply wp_bind. apply wp_try. apply wp_bind. apply wp_emit.
    apply wp_bind. apply (wp_method d b i m); [exact Hm| |].
    + intros s1 t Hd1 Hrun.
      apply wp_bind. apply wp_emit. apply wp_bind. apply wp_emit.
      eapply (wp_quiet _ false (fun r => r = Some true)); [hoare_go| |discriminate].
      intros a s2 -> Hd2. apply wp_ret.
      split; [congruence|]. exists (Some true). split; [reflexivity|].
      cbn [filter submit_ev app]. rewrite !app_nil_r.
      apply click_accepted. exact Hrun.
    + intros e s1 t Hd1 Hrun.
      apply wp_bind. apply wp_emit. apply wp_bind.
      eapply (wp_quiet _ false any); [destruct (i <? n); hoare_go| |discriminate].
      intros _ s2 _ Hd2. apply wp_ret.
      eapply wp_conseq; [apply (IH (S i) s2 Hrest); lia|].
      intros r s3 t3 (Hd3 & v & -> & Hshape).
      split; [congruence|]. exists v. split; [reflexivity|].
      cbn [filter submit_ev app]. rewrite ?app_nil_r, <- app_assoc. cbn [app].
      apply click_raised; assumption.
Qed.

Lemma clicks_some_true (d : Driver) (b : Elem) (i : nat) (v : bool) (t : list Event) :
  clicks_shape d b i (Some v) t -> v = true.
Proof.
  intros H. remember (Some v) as r eqn:Hr. induction H; try discriminate; auto.
  now injection Hr as <-.
Qed.

Lemma wp_dismiss_then_sleep (d : Driver) (s : State) :
  wp submit_ev (_ <- dismiss_overlays d ;; sleep 2)
     (fun r s1 t => r = Val tt /\ driver s1 = driver s /\ dismissal d t) s.
Proof.
  apply wp_bind.
  apply (wp_spec _ _ (fun _ t => dismissal d t)).
  - intros s0. destruct (dismiss_overlays_skeleton d s0) as (b & H1 & H2 & H3).
    now exists b.
  - intros _ s1 t Hd Hdis. apply wp_emit. cbn [filter submit_ev]. now rewrite app_nil_r.
Qed.

Lemma wp_opening (d : Driver) (n : nat) (s : State) :
  wp submit_ev (if 1 <? n then _ <- dismiss_overlays d ;; sleep 2 else ret tt)
     (fun r s1 t => r = Val tt /\ driver s1 = driver s /\ opening d n t) s.
Proof.
  unfold opening. destruct (1 <? n).
  - apply wp_dismiss_then_sleep.
  - now apply wp_ret.
Qed.

Ltac norm :=
  cbn [filter submit_ev app]; rewrite ?app_nil_r, <- ?app_assoc; cbn [app].

Lemma submit_attempt_shape (d : Driver) (n : nat) (s : State) :
  wp submit_ev (submit_attempt d n)
     (fun r s1 t => driver s1 = driver s /\ exists c, r = Val c /\ attempt_shape d n c t) s.
Proof.
  unfold submit_attempt. apply wp_try. apply wp_bind. apply wp_emit. apply wp_bind.
  eapply wp_conseq; [apply wp_opening|].
  intros r s1 t0 (-> & Hd1 & Hopen).
  apply wp_bind.
  apply (wp_quiet _ false any); [hoare_go| |discriminate].
  intros [b|] s2 _ Hd2.
  - apply wp_bind.
    eapply wp_conseq;
      [apply (try_click_methods_shape d b _ _ 1 s2 (click_methods_spec d b)); reflexivity|].
    intros r s3 t3 (Hd3 & [v|] & -> & Hclicks).
    + apply wp_ret. pose proof (clicks_some_true _ _ _ _ _ Hclicks) as Hv. subst v.
      split; [congruence|]. exists (Return (Some true)). split; [reflexivity|].
      norm. now apply (attempt_clicked d n t0 b).
    + assert (Hclose :
        wp submit_ev
           (if n <? max_attempts
            then _ <- dismiss_overlays d ;; sleep 2 ;; ret Continue
            else ret (Return None))
           (fun r s4 t1 => r = Val (bail_out n) /\ driver s4 = driver s3 /\ closing d n t1) s3).
      { unfold bail_out, closing. destruct (n <? max_attempts); [|now apply wp_ret].
        apply wp_bind.
        apply (wp_spec _ _ (fun _ t => dismissal d t)).
        - intros s0. destruct (dismiss_overlays_skeleton d s0) as (b0 & H1 & H2 & H3).
          now exists b0.
        - intros _ s4 t Hd4 Hdis. apply wp_bind. apply wp_emit. apply wp_ret.
          cbn [filter submit_ev]. now rewrite !app_nil_r. }
      eapply wp_conseq; [apply Hclose|].
      intros r s4 t1 (-> & Hd4 & Hcl).
      split; [congruence|]. exists (bail_out n). split; [reflexivity|].
      norm. now apply (attempt_exhausted d n t0 b).
  - assert (Hgive :
      wp submit_ev
         (if n <? max_attempts then sleep 2 ;; ret Continue else ret (Return None))
         (fun r s4 t1 => r = Val (bail_out n) /\ driver s4 = driver s2 /\ t1 = []) s2).
    { unfold bail_out. destruct (n <? max_attempts); [|now apply wp_ret].
      apply wp_bind. apply wp_emit. now apply wp_ret. }
    eapply wp_conseq; [apply Hgive|].
    intros r s4 t1 (-> & Hd4 & ->).
    split; [congruence|]. exists (bail_out n). split; [reflexivity|].
    norm. now apply attempt_without_click.
Qed.

Lemma submit_attempts_shape (d : Driver) (attempts : list nat) (s : State) :
  wp submit_ev (submit_attempts d attempts)
     (fun r s1 t => driver s1 = driver s /\
                    exists v, r = Val v /\ submit_shape d attempts v t) s.
Proof.
  revert s. induction attempts as [|n rest IH]; intros s; cbn [submit_attempts].
  - apply wp_ret. split; [reflexivity|]. exists None. split; [reflexivity|].
    apply submit_loop_over.
  - apply wp_bind. eapply wp_conseq; [apply submit_attempt_shape|].
    intros r s1 t (Hd1 & [|v] & -> & Hshape).
    + eapply wp_conseq; [apply IH|].
      intros r s2 t2 (Hd2 & v & -> & Hrest).
      split; [congruence|]. exists v. split; [reflexivity|].
      now apply submit_continue.
    + apply wp_ret. split; [exact Hd1|]. exists v. split; [reflexivity|].
      rewrite app_nil_r. now apply submit_return.
Qed.

(** *** Counting attempts and accepted clicks *)

Lemma strategy_run_plain c d b i x t :
  plain c -> strategy_run d b i x t -> filter c t = [].
Proof.
  intros (Hop & _) []; cbn [filter]; now rewrite ?Hop.
Qed.

Lemma dismissal_plain c d t : plain c -> dismissal d t -> filter c t = [].
Proof.
  intros (Hop & Hcall & Hret & _) (b & noise & -> & Hnoise).
  cbn [filter]. rewrite Hcall, filter_app. cbn [filter]. rewrite Hret, app_nil_r.
  induction noise as [|ev noise IH]; [reflexivity|].
  cbn [forallb] in Hnoise. apply andb_prop in Hnoise as [Hev Hnoise].
  cbn [filter]. destruct ev; try discriminate. rewrite Hop. auto.
Qed.

Lemma opening_plain c d n t : plain c -> opening d n t -> filter c t = [].
Proof.
  intros Hc. unfold opening. destruct (1 <? n); [now apply dismissal_plain|now intros ->].
Qed.

Lemma closing_plain c d n t : plain c -> closing d n t -> filter c t = [].
Proof.
  intros Hc. unfold closing.
  destruct (n <? max_attempts); [now apply dismissal_plain|now intros ->].
Qed.

Lemma plain_is_attempt : plain is_attempt.
Proof. now repeat split. Qed.

Lemma plain_is_clicked : plain is_clicked.
Proof. now repeat split. Qed.

Lemma clicks_shape_no_attempt d b i v t :
  clicks_shape d b i v t -> filter is_attempt t = [].
Proof.
  induction 1 as [|i t Hrun|i t r rest Hrun _ IH]; [reflexivity| |].
  - cbn [filter is_attempt]. rewrite filter_app.
    now rewrite (strategy_run_plain _ _ _ _ _ _ plain_is_attempt Hrun).
  - cbn [filter is_attempt]. rewrite filter_app. cbn [filter is_attempt].
    now rewrite (strategy_run_plain _ _ _ _ _ _ plain_is_attempt Hrun), IH.
Qed.

Lemma clicks_none_no_clicked d b i t :
  clicks_shape d b i None t -> filter is_clicked t = [].
Proof.
  intros H. remember None as r eqn:Hr.
  induction H as [|i t Hrun|i t r rest Hrun _ IH]; [reflexivity|discriminate|].
  cbn [filter is_clicked]. rewrite filter_app. cbn [filter is_clicked].
  now rewrite (strategy_run_plain _ _ _ _ _ _ plain_is_clicked Hrun), IH.
Qed.

Lemma attempt_shape_one_attempt d n c t :
  attempt_shape d n c t -> filter is_attempt t = [EvAttempt n].
Proof.
  intros [t0 H0|t0 b t1 H0 H1|t0 b t1 t2 H0 H1 H2]; cbn [filter is_attempt];
    rewrite ?filter_app.
  - now rewrite (opening_plain _ _ _ _ plain_is_attempt H0).
  - now rewrite (opening_plain _ _ _ _ plain_is_attempt H0),
      (clicks_shape_no_attempt _ _ _ _ _ H1).
  - now rewrite (opening_plain _ _ _ _ plain_is_attempt H0),
      (clicks_shape_no_attempt _ _ _ _ _ H1),
      (closing_plain _ _ _ _ plain_is_attempt H2).
Qed.

Lemma bail_out_not_true n : bail_out n <> Return (Some true).
Proof. unfold bail_out. now destruct (n <? max_attempts). Qed.

Lemma attempt_shape_no_clicked d n c t :
  attempt_shape d n c t -> c <> Return (Some true) -> filter is_clicked t = [].
Proof.
  intros [t0 H0|t0 b t1 H0 H1|t0 b t1 t2 H0 H1 H2] Hc; cbn [filter is_clicked];
    rewrite ?filter_app.
  - now rewrite (opening_plain _ _ _ _ plain_is_clicked H0).
  - now contradiction Hc.
  - now rewrite (opening_plain _ _ _ _ plain_is_clicked H0),
      (clicks_none_no_clicked _ _ _ _ H1),
      (closing_plain _ _ _ _ plain_is_clicked H2).
Qed.

Lemma attempt_shape_result d n v t :
  attempt_shape d n (Return v) t -> v = Some true \/ v = None.
Proof.
  intros H. inversion H as [t0 H0 Hc|t0 b t1 H0 H1 Hc|t0 b t1 t2 H0 H1 H2 Hc]; subst.
  - right. unfold bail_out in Hc. destruct (n <? max_attempts); congruence.
  - now left.
  - right. unfold bail_out in Hc. destruct (n <? max_attempts); congruence.
Qed.

Lemma submit_shape_attempts d attempts v t :
  submit_shape d attempts v t ->
  exists k, filter is_attempt t = map EvAttempt (firstn k attempts).
Proof.
  induction 1 as [|n rest v t Hn|n rest v t t' Hn _ [k IH]].
  - now exists 0.
  - exists 1. now rewrite (attempt_shape_one_attempt _ _ _ _ Hn).
  - exists (S k). rewrite filter_app, (attempt_shape_one_attempt _ _ _ _ Hn), IH.
    reflexivity.
Qed.

Lemma submit_shape_result d attempts v t :
  submit_shape d attempts v t ->
  (v = Some true \/ v = None) /\ (v = None -> filter is_clicked t = []).
Proof.
  induction 1 as [|n rest v t Hn|n rest v t t' Hn _ [IH1 IH2]].
  - now split; [right|].
  - split; [now apply (attempt_shape_result _ _ _ _ Hn)|].
    intros ->. now apply (attempt_shape_no_clicked _ _ _ _ Hn).
  - split; [exact IH1|]. intros Hv. rewrite filter_app, (IH2 Hv).
    now rewrite (attempt_shape_no_clicked _ _ _ _ Hn).
Qed.

Lemma filter_filter_sub (q p : Event -> bool) (t : list Event) :
  (forall ev, q ev = true -> p ev = true) -> filter q (filter p t) = filter q t.
Proof.
  intros Hsub. induction t as [|ev t IH]; [reflexivity|]. cbn [filter].
  destruct (p ev) eqn:Hp; cbn [filter].
  - now rewrite IH.
  - destruct (q ev) eqn:Hq; [|exact IH]. apply Hsub in Hq. congruence.
Qed.

Lemma submit_post_shape (d : Driver) (s : State) :
  exists v,
    res (submit_post d s) = Val v /\
    driver (st (submit_post d s)) = driver s /\
    submit_shape d [1; 2; 3] v (filter submit_ev (tr (submit_post d s))).
Proof.
  assert (H : wp submit_ev (submit_post d)
                 (fun r s1 t => driver s1 = driver s /\
                                exists v, r = Val v /\ submit_shape d [1; 2; 3] v t) s).
  { unfold submit_post. apply wp_fn.
    eapply wp_conseq; [apply submit_attempts_shape|].
    intros r s1 t (Hd & v & -> & Hs). split; [exact Hd|]. exists v. split; [reflexivity|].
    cbn [filter submit_ev app]. rewrite app_nil_r. exact Hs. }
  destruct H as (Hd & v & Hres & Hshape). now exists v.
Qed.

(** C1: a run of [submit_post] never raises; what it shows of attempts,
    dismissals and click methods is a sequence of attempts numbered 1, 2,
    3 at most ([submit_shape] over that list); every attempt after the
    first opens with a pass of overlay dismissal before any click method
    ([opening]); within an attempt the click methods run in the order
    direct click, JavaScript click, ActionChains click, scroll then click,
    each one only after the previous raised, and the first that does not
    raise ends the run with True whatever the confirmation poll says
    ([clicks_shape], [strategy_run]); a run in which no method went
    through returns None. *)
Theorem submit_post_bounded_retry (d : Driver) (s : State) :
  exists v,
    res (submit_post d s) = Val v /\
    submit_shape d [1; 2; 3] v (filter submit_ev (tr (submit_post d s))) /\
    (exists k, filter is_attempt (tr (submit_post d s))
               = map EvAttempt (firstn k [1; 2; 3])) /\
    List.length (filter is_attempt (tr (submit_post d s))) <= 3 /\
    (v = Some true \/ v = None) /\
    (v = None -> forall i, ~ In (EvClicked i) (tr (submit_post d s))).
Proof.
  destruct (submit_post_shape d s) as (v & Hres & _ & Hshape).
  exists v. split; [exact Hres|]. split; [exact Hshape|].
  destruct (submit_shape_attempts _ _ _ _ Hshape) as [k Hk].
  rewrite filter_filter_sub in Hk by (now intros []).
  destruct (submit_shape_result _ _ _ _ Hshape) as [Hv Hnone].
  split; [now exists k|]. split; [|split; [exact Hv|]].
  - rewrite Hk, length_map, length_firstn. cbn [List.length]. lia.
  - intros Hn i Hin. specialize (Hnone Hn).
    rewrite filter_filter_sub in Hnone by (now intros []).
    assert (Hin' : In (EvClicked i) (filter is_clicked (tr (submit_post d s))))
      by (apply filter_In; now split).
    now rewrite Hnone in Hin'.
Qed.

End Submission.

(** ** The step sequencer *)

Section Sequencer.
Context {E : Env}.

Lemma wp_get_driver p (Q : outcome (option Driver) -> State -> list Event -> Prop) s :
  Q (Val (driver s)) s [] -> wp p get_driver Q s.
Proof. easy. Qed.

Lemma wp_set_driver p d (Q : outcome unit -> State -> list Event -> Prop) s :
  Q (Val tt) (mkState (world s) d) [] -> wp p (set_driver d) Q s.
Proof. easy. Qed.

Lemma wp_call {A} p (o : Op A) (Q : outcome A -> State -> list Event -> Prop) s :
  (forall a s1, driver s1 = driver s ->
                Q (match a with Some v => Val v | None => Exn EnvError end) s1
                  (filter p [EvOp o a])) ->
  wp p (call o) Q s.
Proof.
  intros H. unfold wp. destruct (call_cases o s) as (a & w & ->). cbn [res st tr].
  now apply H.
Qed.

(** *** The steps, seen from the sequencer *)

Lemma try_click_methods_top d n i methods :
  Forall (hoare (outside top_ev) true any) methods ->
  hoare (outside top_ev) false not_false (try_click_methods d n i methods).
Proof.
  intros Hm. revert i. induction Hm as [|m rest Hquiet _ IH]; intros i;
    cbn [try_click_methods].
  - now apply hoare_ret.
  - apply (hoare_bind _ _ not_false).
    + apply hoare_try.
      * apply (hoare_bind _ _ any); [hoare_go|intros _ _].
        apply (hoare_bind _ _ any); [exact Hquiet|intros _ _].
        unfold not_false. hoare_go.
      * intros e. unfold not_false. hoare_go.
    + intros [v|] Hv; [now apply hoare_ret|apply IH].
Qed.

Lemma click_methods_top d b :
  Forall (hoare (outside top_ev) true any) (click_methods d b).
Proof.
  unfold click_methods.
  repeat (apply Forall_cons; [hoare_go|]). apply Forall_nil.
Qed.

Lemma submit_attempt_top d n :
  hoare (outside top_ev) false not_return_false (submit_attempt d n).
Proof.
  unfold submit_attempt, not_return_false. apply hoare_try.
  - apply (hoare_bind _ _ any); [hoare_go|intros _ _].
    apply (hoare_bind _ _ any);
      [destruct (1 <? n); unfold dismiss_overlays; hoare_go|intros _ _].
    apply (hoare_bind _ _ any); [hoare_go|intros [b|] _].
    + apply (hoare_bind _ _ not_false).
      * eapply hoare_weaken;
          [apply try_click_methods_top, click_methods_top|discriminate|auto].
      * intros [v|] Hv.
        -- apply hoare_ret. unfold not_false in Hv. congruence.
        -- destruct (n <? max_attempts); unfold dismiss_overlays; hoare_go.
    + destruct (n <? max_attempts); hoare_go.
  - intros e. destruct (n <? max_attempts); hoare_go.
Qed.

Lemma submit_attempts_top d attempts :
  hoare (outside top_ev) false not_false (submit_attempts d attempts).
Proof.
  induction attempts as [|n rest IH]; cbn [submit_attempts].
  - now apply hoare_ret.
  - apply (hoare_bind _ _ not_return_false); [apply submit_attempt_top|].
    intros [|v] Hv; [exact IH|]. apply hoare_ret.
    unfold not_return_false in Hv. unfold not_false. congruence.
Qed.

Ltac step_tac f :=
  intros s;
  match goal with |- context [fn _ ?dd ?enc ?body] =>
    destruct (fn_skeleton top_ev not_false f dd enc body s) as (r & Hres & Hr & Hd & Hsk);
      [unfold not_false; hoare_go|exists r; now repeat split]
  end.

Lemma click_new_post_step d : step_spec d F_click_new_post (click_new_post d).
Proof. unfold click_new_post. step_tac F_click_new_post. Qed.

Lemma upload_video_step d vb : step_spec d F_upload_video (upload_video d vb).
Proof. unfold upload_video. step_tac F_upload_video. Qed.

Lemma type_content_step d : step_spec d F_type_content (type_content d).
Proof. unfold type_content. step_tac F_type_content. Qed.

Lemma click_customize_button_step d :
  step_spec d F_click_customize_button (click_customize_button d).
Proof. unfold click_customize_button, click_step. step_tac F_click_customize_button. Qed.

Lemma click_second_text_area_step d :
  step_spec d F_click_second_text_area (click_second_text_area d).
Proof. unfold click_second_text_area, click_step. step_tac F_click_second_text_area. Qed.

Lemma fill_reels_input_step d : step_spec d F_fill_reels_input (fill_reels_input d).
Proof. unfold fill_reels_input. step_tac F_fill_reels_input. Qed.

Lemma click_section_button_step d :
  step_spec d F_click_section_button (click_section_button d).
Proof. unfold click_section_button, click_step. step_tac F_click_section_button. Qed.

Lemma click_list_item_step d : step_spec d F_click_list_item (click_list_item d).
Proof. unfold click_list_item, click_step. step_tac F_click_list_item. Qed.

Lemma submit_post_step d : step_spec d F_submit_post (submit_post d).
Proof.
  unfold submit_post. intros s.
  destruct (fn_skeleton top_ev not_false F_submit_post (Some d) enc_step
              (submit_attempts d (seq 1 max_attempts)) s) as (r & Hres & Hr & Hd & Hsk);
    [apply submit_attempts_top|exists r; now repeat split].
Qed.

Lemma take_screenshot_skeleton d s :
  exists png,
    res (take_screenshot d s) = Val png /\
    driver (st (take_screenshot d s)) = driver s /\
    filter top_ev (tr (take_screenshot d s))
    = [EvCall F_take_screenshot (Some d); EvRet F_take_screenshot (enc_png png)].
Proof.
  unfold take_screenshot.
  match goal with |- context [fn ?f ?dd ?enc ?body] =>
    destruct (fn_skeleton top_ev any f dd enc body s) as (r & Hres & _ & Hd & Hsk);
      [hoare_go|exists r; now repeat split]
  end.
Qed.

(** *** The sequence of steps *)

Lemma run_step_shape d f step failure l k todo s :
  step_spec d f step ->
  (forall l' s', wp top_ev (k l') (steps_post d todo l' s') s') ->
  wp top_ev (run_step d step failure l k) (steps_post d ((f, failure) :: todo) l s) s.
Proof.
  intros Hstep Hk. unfold run_step. apply wp_bind.
  unfold wp at 1. destruct (Hstep s) as (r & -> & Hr & Hd & ->).
  destruct r as [[|]|]; [|now contradiction Hr|].
  - apply wp_bind. unfold wp at 1.
    destruct (take_screenshot_skeleton d (st (step s))) as (png & -> & Hd2 & ->).
    assert (Hgo : forall l', l' = keep l png ->
      wp top_ev (k l')
         (fun r2 s2 t2 =>
            steps_post d ((f, failure) :: todo) l s r2 s2
              ([EvCall f (Some d); EvRet f (enc_step (Some true))]
               ++ [EvCall F_take_screenshot (Some d);
                   EvRet F_take_screenshot (enc_png png)] ++ t2))
         (st (take_screenshot d (st (step s))))).
    { intros l' ->. eapply wp_conseq; [apply Hk|].
      intros r2 s2 t2 (Hd3 & v & -> & Hshape).
      split; [congruence|]. exists v. split; [reflexivity|].
      now apply (step_captured d f failure todo l png). }
    destruct png as [[|b bs]|]; now apply Hgo.
  - apply wp_bind. apply wp_emit. apply wp_ret.
    split; [exact Hd|]. exists None. split; [reflexivity|].
    apply step_failed.
Qed.

Lemma workflow_shape d vb s :
  wp top_ev (workflow d vb) (steps_post d the_steps [] s) s.
Proof.
  unfold workflow, the_steps.
  apply run_step_shape; [apply click_new_post_step|intros l1 s1].
  apply run_step_shape; [apply upload_video_step|intros l2 s2].
  apply run_step_shape; [apply type_content_step|intros l3 s3].
  apply run_step_shape; [apply click_customize_button_step|intros l4 s4].
  apply run_step_shape; [apply click_second_text_area_step|intros l5 s5].
  apply run_step_shape; [apply fill_reels_input_step|intros l6 s6].
  apply run_step_shape; [apply click_section_button_step|intros l7 s7].
  apply run_step_shape; [apply click_list_item_step|intros l8 s8].
  apply run_step_shape; [apply submit_post_step|intros l9 s9].
  apply wp_ret. split; [reflexivity|]. exists (Some l9). split; [reflexivity|].
  apply steps_done.
Qed.

(** *** The session phase *)

Lemma establish_session_top d s :
  wp top_ev (establish_session d)
     (fun r s1 t =>
        driver s1 = driver s /\
        t = [EvCall F_establish_session (Some d);
             match r with
             | Val b => EvRet F_establish_session (PyBool b)
             | Exn e => EvRaise F_establish_session e
             end]) s.
Proof.
  unfold establish_session, establish_session_with. apply wp_fn.
  apply (wp_quiet _ true any).
  - unfold check_session_validity, load_cookies, load_cookies_with,
      login_with_credentials, handle_captcha, save_cookies, send_keys_opt.
    hoare_go.
  - intros a s1 _ Hd. now split.
  - intros _ e s1 Hd. now split.
Qed.

Lemma cleanup_driver_top d s :
  driver s = Some d ->
  wp top_ev cleanup_driver
     (fun r s1 t =>
        r = Val tt /\ driver s1 = None /\
        exists a, t = [EvCall F_cleanup_driver None; EvOp (quit d) a;
                       EvRet F_cleanup_driver PyNone]) s.
Proof.
  intros Hd. unfold cleanup_driver. apply wp_fn. apply wp_bind. apply wp_get_driver.
  rewrite Hd. apply wp_bind. unfold wp at 1.
  destruct (attempt_call (quit d) s) as (a & w & ->). cbn [res st tr].
  apply wp_set_driver. split; [reflexivity|]. split; [reflexivity|].
  exists a. reflexivity.
Qed.

(** The retry: shutdown, fresh launch, second try. *)
Lemma retry_top d vb s :
  driver s = Some d ->
  wp top_ev
     (print "Failed to establish session" ;;
      cleanup_driver ;;
      d2 <- setup_chrome ;;
      set_driver (Some d2) ;;
      established <- establish_session d2 ;;
      if established then workflow d2 vb
      else print "Failed to establish session after retry" ;; ret None)
     (fun r _ t =>
        match r with
        | Val v =>
            exists a t', t = EvPrint "Failed to establish session"
                             :: EvCall F_cleanup_driver None
                             :: EvOp (quit d) a
                             :: EvRet F_cleanup_driver PyNone :: t' /\
                         retry_shape v t'
        | Exn _ =>
            exists a t', t = EvPrint "Failed to establish session"
                             :: EvCall F_cleanup_driver None
                             :: EvOp (quit d) a
                             :: EvRet F_cleanup_driver PyNone :: t' /\
                         retry_shape None t'
        end) s.
Proof.
  intros Hd. apply wp_bind. apply wp_emit. apply wp_bind.
  eapply wp_conseq; [apply (cleanup_driver_top d s Hd)|].
  intros r s1 t (-> & Hd1 & a & ->).
  apply wp_bind. unfold setup_chrome. apply wp_call.
  intros [d2|] s2 Hd2.
  - apply wp_bind. apply wp_set_driver. apply wp_bind.
    eapply wp_conseq; [apply establish_session_top|].
    intros [[|]|e] s3 t3 (Hd3 & ->).
    + eapply wp_conseq; [apply workflow_shape|].
      intros r s4 t4 (_ & v & -> & Hshape).
      exists a, (EvOp chrome_launch (Some d2) :: EvCall F_establish_session (Some d2)
                   :: EvRet F_establish_session (PyBool true) :: t4).
      split; [reflexivity|]. now apply second_try_valid.
    + apply wp_bind. apply wp_emit. apply wp_ret.
      exists a, [EvOp chrome_launch (Some d2); EvCall F_establish_session (Some d2);
                 EvRet F_establish_session (PyBool false);
                 EvPrint "Failed to establish session after retry"].
      split; [reflexivity|]. apply second_try_failed.
    + exists a, [EvOp chrome_launch (Some d2); EvCall F_establish_session (Some d2);
                 EvRaise F_establish_session e].
      split; [reflexivity|]. apply second_try_raised.
  - exists a, [EvOp chrome_launch None]. split; [reflexivity|]. apply relaunch_raised.
Qed.

Lemma session_phase_top d vb s :
  driver s = Some d ->
  wp top_ev
     (established <- establish_session d ;;
      if established then workflow d vb
      else
        print "Failed to establish session" ;;
        cleanup_driver ;;
        d2 <- setup_chrome ;;
        set_driver (Some d2) ;;
        established <- establish_session d2 ;;
        if established then workflow d2 vb
        else print "Failed to establish session after retry" ;; ret None)
     (fun r _ t =>
        exists t', t = EvCall F_establish_session (Some d) :: t' /\
                   match r with
                   | Val v => session_phase d v t'
                   | Exn _ => session_phase d None t'
                   end) s.
Proof.
  intros Hd. apply wp_bind.
  eapply wp_conseq; [apply establish_session_top|].
  intros [[|]|e] s1 t1 (Hd1 & ->).
  - eapply wp_conseq; [apply workflow_shape|].
    intros r s2 t2 (_ & v & -> & Hshape).
    eexists. split; [reflexivity|]. now apply first_try_valid.
  - eapply wp_conseq; [apply (retry_top d vb s1); congruence|].
    intros [v|e] s2 t2 (a & t' & -> & Hretry);
      (eexists; split; [reflexivity|]; now apply first_try_failed).
  - eexists. split; [reflexivity|]. apply first_try_raised.
Qed.

Lemma process_media_file_shape vb s :
  exists v t,
    res (process_media_file vb s) = Val v /\
    filter top_ev (tr (process_media_file vb s))
    = EvCall F_process_media_file None :: t
      ++ [EvRet F_process_media_file (enc_shots v)] /\
    process_shape (driver s) v t.
Proof.
  assert (H : wp top_ev (process_media_file vb)
                 (fun r _ t =>
                    exists v t', r = Val v /\
                      t = EvCall F_process_media_file None :: t'
                          ++ [EvRet F_process_media_file (enc_shots v)] /\
                      process_shape (driver s) v t') s).
  { unfold process_media_file. apply wp_fn. apply wp_try. apply wp_bind.
    apply wp_get_driver. apply wp_bind.
    destruct (driver s) as [d|] eqn:Hcur.
    - apply wp_ret.
      eapply wp_conseq; [apply (session_phase_top d vb s Hcur)|].
      intros [v|e] s1 t1 (t' & -> & Hphase).
      + exists v, (EvCall F_establish_session (Some d) :: t').
        split; [reflexivity|]. split; [reflexivity|]. now apply (reused _ d).
      + apply wp_ret. exists None, (EvCall F_establish_session (Some d) :: t').
        split; [reflexivity|]. split; [now rewrite !app_nil_r|]. now apply (reused _ d).
    - apply wp_bind. unfold setup_chrome. apply wp_call.
      intros [d|] s1 Hd1.
      + apply wp_bind. apply wp_set_driver. apply wp_ret.
        eapply wp_conseq; [apply (session_phase_top d vb); reflexivity|].
        intros [v|e] s2 t2 (t' & -> & Hphase).
        * exists v, (EvOp chrome_launch (Some d) :: EvCall F_establish_session (Some d) :: t').
          split; [reflexivity|]. split; [reflexivity|]. now apply (launched _ d).
        * apply wp_ret.
          exists None, (EvOp chrome_launch (Some d) :: EvCall F_establish_session (Some d) :: t').
          split; [reflexivity|]. split; [now rewrite !app_nil_r|]. now apply (launched _ d).
      + apply wp_ret. exists None, [EvOp chrome_launch None].
        split; [reflexivity|]. split; [reflexivity|]. now apply launch_raised. }
  destruct H as (v & t & Hres & Htr & Hshape). now exists v, t.
Qed.

End Sequencer.

(** ** Splitting traces *)

Lemma absent_split {A} (P : A -> bool) (l before : list A) (x : A) (after : list A) :
  filter P l = [] -> P x = true -> l <> before ++ x :: after.
Proof.
  intros Hl Hx Heq. rewrite Heq, filter_app in Hl. cbn [filter] in Hl.
  rewrite Hx in Hl. now destruct (filter P before).
Qed.

Lemma split_skip {A} (P : A -> bool) (pre t before : list A) (x : A) (after : list A) :
  pre ++ t = before ++ x :: after -> P x = true -> filter P pre = [] ->
  exists before', before = pre ++ before' /\ t = before' ++ x :: after.
Proof.
  revert before. induction pre as [|a pre IH]; intros before Heq Hx Hpre.
  - now exists before.
  - cbn [filter] in Hpre. destruct (P a) eqn:Ha; [discriminate|].
    destruct before as [|b before]; cbn [app] in Heq; injection Heq as Hhd Heq.
    + subst a. congruence.
    + subst b. destruct (IH before Heq Hx Hpre) as (before' & -> & Ht).
      now exists before'.
Qed.

Lemma split_last {A} (P : A -> bool) (t : list A) (z : A) (before : list A) (x : A)
      (after : list A) :
  t ++ [z] = before ++ x :: after -> P x = true -> P z = false ->
  exists after', after = after' ++ [z] /\ t = before ++ x :: after'.
Proof.
  intros Heq Hx Hz.
  destruct (exists_last (l := x :: after) ltac:(discriminate)) as (after0 & z' & Hlast).
  rewrite Hlast, app_assoc in Heq. apply app_inj_tail in Heq as [Ht Hzz]. subst z'.
  destruct after0 as [|x' after0].
  - cbn [app] in Hlast. injection Hlast as -> _. congruence.
  - cbn [app] in Hlast. injection Hlast as -> Hafter. exists after0. now split.
Qed.

Lemma first_split {A} (P : A -> bool) (pre : list A) (x : A) (post before : list A)
      (y : A) (after : list A) :
  pre ++ x :: post = before ++ y :: after ->
  filter P pre = [] -> filter P before = [] -> P x = true -> P y = true ->
  before = pre /\ x = y /\ post = after.
Proof.
  revert before. induction pre as [|a pre IH]; intros before Heq Hpre Hbefore Hx Hy.
  - destruct before as [|b before]; cbn [app] in Heq; injection Heq as Hhd Heq.
    + now repeat split.
    + subst b. cbn [filter] in Hbefore. now rewrite Hx in Hbefore.
  - cbn [filter] in Hpre. destruct (P a) eqn:Ha; [discriminate|].
    destruct before as [|b before]; cbn [app] in Heq; injection Heq as Hhd Heq.
    + subst a. congruence.
    + subst b. cbn [filter] in Hbefore. rewrite Ha in Hbefore.
      destruct (IH before Heq Hpre Hbefore Hx Hy) as (-> & -> & ->). now repeat split.
Qed.

(** ** Abort, evidence and retry *)

Section Runs.
Context {E : Env}.

Lemma steps_shape_failure d todo l v t :
  steps_shape d todo l v t ->
  forall before f after,
    t = before ++ EvRet f PyNone :: after -> step_fn f = true ->
    v = None /\ exists msg, In (f, msg) todo /\ after = [EvPrint msg].
Proof.
  induction 1 as [l|f0 msg0 todo l|f0 msg0 todo l png v t _ IH];
    intros before f after Heq Hf.
  - now destruct before.
  - assert (Hb : before = [EvCall f0 (Some d)]).
    { apply (unique_split is_step_failure [EvCall f0 (Some d)] (EvRet f0 PyNone)
               [EvPrint msg0] ltac:(reflexivity) ltac:(reflexivity)
               before (EvRet f PyNone) after Heq Hf). }
    subst before. cbn [app] in Heq. injection Heq as -> <-.
    split; [reflexivity|]. exists msg0. split; [now left|reflexivity].
  - assert (Hpre : filter is_step_failure (step_block d f0 png) = []).
    { unfold step_block. cbn [filter is_step_failure].
      destruct png; cbn [enc_png step_fn]; reflexivity. }
    destruct (split_skip is_step_failure _ _ _ _ _ Heq Hf Hpre) as (before' & -> & Ht).
    destruct (IH before' f after Ht Hf) as (-> & msg & Hin & ->).
    split; [reflexivity|]. exists msg. split; [now right|reflexivity].
Qed.

Lemma steps_shape_success d todo l l' t :
  steps_shape d todo l (Some l') t ->
  exists pngs,
    List.length pngs = List.length todo /\
    l' = fold_left keep pngs l /\
    t = step_blocks d (map fst todo) pngs.
Proof.
  intros H. remember (Some l') as v eqn:Hv. revert l' Hv.
  induction H as [l|f0 msg0 todo l|f0 msg0 todo l png v t _ IH]; intros l' Hv.
  - injection Hv as <-. now exists [].
  - discriminate.
  - destruct (IH l' Hv) as (pngs & Hlen & -> & ->).
    exists (png :: pngs). split; [cbn; now rewrite Hlen|]. now split.
Qed.

Lemma steps_shape_no_establish d todo l v t :
  Forall (fun fm => step_fn (fst fm) = true) todo ->
  steps_shape d todo l v t -> filter is_establish t = [].
Proof.
  intros Htodo H. induction H as [l|f0 msg0 todo l|f0 msg0 todo l png v t _ IH].
  - reflexivity.
  - inversion Htodo as [|? ? Hf0 _]; subst. cbn [fst] in Hf0.
    cbn [filter is_establish]. destruct f0; try discriminate; reflexivity.
  - inversion Htodo as [|? ? Hf0 Hrest]; subst. cbn [fst] in Hf0.
    rewrite filter_app, (IH Hrest). unfold step_block. cbn [filter is_establish].
    destruct f0; try discriminate; reflexivity.
Qed.

Lemma the_steps_are_steps : Forall (fun fm => step_fn (fst fm) = true) the_steps.
Proof. unfold the_steps. repeat constructor. Qed.

Lemma fold_keep_length pngs l :
  List.length (fold_left keep pngs l) <= List.length l + List.length pngs.
Proof.
  revert l. induction pngs as [|png pngs IH]; intros l; cbn [fold_left List.length]; [lia|].
  specialize (IH (keep l png)).
  assert (List.length (keep l png) <= S (List.length l)).
  { destruct png as [[|b bs]|]; cbn [keep]; rewrite ?length_app; cbn [List.length]; lia. }
  lia.
Qed.

(** A failed step inside a run of the steps that follows a prefix without
    failures and is followed by one more event. *)
Lemma tail_failure d v t pre z before f after :
  steps_shape d the_steps [] v t ->
  filter is_step_failure pre = [] -> is_step_failure z = false ->
  pre ++ t ++ [z] = before ++ EvRet f PyNone :: after -> step_fn f = true ->
  v = None /\ exists msg, In (f, msg) the_steps /\ after = [EvPrint msg; z].
Proof.
  intros Hshape Hpre Hz Heq Hf.
  destruct (split_skip is_step_failure _ _ _ _ _ Heq Hf Hpre) as (before' & -> & Ht).
  destruct (split_last is_step_failure _ _ _ _ _ Ht Hf Hz) as (after' & -> & Ht').
  destruct (steps_shape_failure _ _ _ _ _ Hshape _ _ _ Ht' Hf) as (-> & msg & Hin & ->).
  split; [reflexivity|]. now exists msg.
Qed.

Ltac no_failure Heq Hf :=
  exfalso; revert Heq;
  apply (absent_split is_step_failure); [reflexivity|exact Hf].

(** C5, as the script has it: once a step has returned None nothing
    further happens at the level of the sequencer but the step's own
    failure message and the return of None: no later step is entered and
    no screenshot is taken.  The caller receives None whichever step
    failed; the step is named by the message, which differs from step to
    step. *)
Theorem abort_on_failed_step (video_bytes : bytes) (s : State)
        (before : list Event) (f : Fn) (after : list Event) :
  filter top_ev (tr (process_media_file video_bytes s))
  = before ++ EvRet f PyNone :: after ->
  step_fn f = true ->
  res (process_media_file video_bytes s) = Val None /\
  (exists msg, In (f, msg) the_steps /\
               after = [EvPrint msg; EvRet F_process_media_file PyNone]) /\
  (forall g msg, In (f, msg) the_steps -> In (g, msg) the_steps -> g = f).
Proof.
  intros Heq Hf.
  destruct (process_media_file_shape video_bytes s) as (v & t & Hres & Htr & Hshape).
  rewrite Htr in Heq. rewrite Hres.
  assert (Hz : forall v0, is_step_failure (EvRet F_process_media_file (enc_shots v0)) = false)
    by (intros [l|]; reflexivity).
  assert (Hmain : v = None /\
                  exists msg, In (f, msg) the_steps /\
                              after = [EvPrint msg; EvRet F_process_media_file (enc_shots v)]).
  { destruct Hshape as [Hcur|d v1 t1 Hcur [v2 t2 Hsteps|e|a v2 t2 Hretry]
                       |d v1 t1 Hcur [v2 t2 Hsteps|e|a v2 t2 Hretry]].
    - no_failure Heq Hf.
    - apply (tail_failure d v2 t2
               [EvCall F_process_media_file None; EvOp chrome_launch (Some d);
                EvCall F_establish_session (Some d);
                EvRet F_establish_session (PyBool true)] _ before f after
               Hsteps ltac:(reflexivity) (Hz v2) Heq Hf).
    - no_failure Heq Hf.
    - destruct Hretry as [|d2 v3 t3 Hsteps|d2|d2 e].
      + no_failure Heq Hf.
      + apply (tail_failure d2 v3 t3
                 [EvCall F_process_media_file None; EvOp chrome_launch (Some d);
                  EvCall F_establish_session (Some d);
                  EvRet F_establish_session (PyBool false);
                  EvPrint "Failed to establish session";
                  EvCall F_cleanup_driver None; EvOp (quit d) a;
                  EvRet F_cleanup_driver PyNone;
                  EvOp chrome_launch (Some d2); EvCall F_establish_session (Some d2);
                  EvRet F_establish_session (PyBool true)] _ before f after
                 Hsteps ltac:(reflexivity) (Hz v3) Heq Hf).
      + no_failure Heq Hf.
      + no_failure Heq Hf.
    - apply (tail_failure d v2 t2
               [EvCall F_process_media_file None;
                EvCall F_establish_session (Some d);
                EvRet F_establish_session (PyBool true)] _ before f after
               Hsteps ltac:(reflexivity) (Hz v2) Heq Hf).
    - no_failure Heq Hf.
    - destruct Hretry as [|d2 v3 t3 Hsteps|d2|d2 e].
      + no_failure Heq Hf.
      + apply (tail_failure d2 v3 t3
                 [EvCall F_process_media_file None;
                  EvCall F_establish_session (Some d);
                  EvRet F_establish_session (PyBool false);
                  EvPrint "Failed to establish session";
                  EvCall F_cleanup_driver None; EvOp (quit d) a;
                  EvRet F_cleanup_driver PyNone;
                  EvOp chrome_launch (Some d2); EvCall F_establish_session (Some d2);
                  EvRet F_establish_session (PyBool true)] _ before f after
                 Hsteps ltac:(reflexivity) (Hz v3) Heq Hf).
      + no_failure Heq Hf.
      + no_failure Heq Hf. }
  destruct Hmain as (-> & msg & Hin & ->).
  split; [reflexivity|]. split; [now exists msg|].
  intros g msg' Hf' Hg. unfold the_steps in Hf', Hg. cbn [In] in Hf', Hg.
  repeat (destruct Hf' as [Hf'|Hf']; [injection Hf' as <- <-|]); try contradiction;
    repeat (destruct Hg as [Hg|Hg]; [try discriminate Hg; injection Hg as <-; reflexivity|]);
    contradiction.
Qed.

(** C8, as the script has it: a run that returns its evidence list has
    completed the nine steps in order, each followed by one capture, and
    the list holds, in that order, the captures that returned non-empty
    bytes; a capture that raised or came back empty leaves no entry.  The
    list therefore has at most nine entries. *)
Theorem evidence_follows_captures (video_bytes : bytes) (s : State) (l : list bytes) :
  res (process_media_file video_bytes s) = Val (Some l) ->
  exists d before pngs,
    List.length pngs = 9 /\
    l = kept pngs /\
    filter top_ev (tr (process_media_file video_bytes s))
    = before ++ step_blocks d (map fst the_steps) pngs
      ++ [EvRet F_process_media_file (PyList l)] /\
    filter is_evidence_ev before = [] /\
    List.length l <= 9.
Proof.
  intros Hl.
  destruct (process_media_file_shape video_bytes s) as (v & t & Hres & Htr & Hshape).
  rewrite Hres in Hl. injection Hl as ->. rewrite Htr.
  assert (Hsteps : forall d t2 pre,
    steps_shape d the_steps [] (Some l) t2 ->
    filter is_evidence_ev pre = [] ->
    exists d0 before pngs,
      List.length pngs = 9 /\ l = kept pngs /\
      pre ++ t2 ++ [EvRet F_process_media_file (enc_shots (Some l))]
      = before ++ step_blocks d0 (map fst the_steps) pngs
        ++ [EvRet F_process_media_file (PyList l)] /\
      filter is_evidence_ev before = [] /\ List.length l <= 9).
  { intros d t2 pre Hst Hpre.
    destruct (steps_shape_success _ _ _ _ _ Hst) as (pngs & Hlen & Hkept & ->).
    exists d, pre, pngs. split; [exact Hlen|]. split; [exact Hkept|].
    split; [reflexivity|]. split; [exact Hpre|].
    rewrite Hkept. pose proof (fold_keep_length pngs []) as Hle.
    rewrite Hlen in Hle. cbn [List.length the_steps] in Hle. unfold kept. lia. }
  inversion Hshape as [Hcur Hv|d v1 t1 Hcur Hphase Hv Ht|d v1 t1 Hcur Hphase Hv Ht]; subst.
  - inversion Hphase as [v2 t2 Hst|e|a v2 t2 Hretry]; subst.
    + apply (Hsteps d t2
               [EvCall F_process_media_file None; EvOp chrome_launch (Some d);
                EvCall F_establish_session (Some d);
                EvRet F_establish_session (PyBool true)] Hst). reflexivity.
    + inversion Hretry as [|d2 v3 t3 Hst| |]; subst.
      apply (Hsteps d2 t3
               [EvCall F_process_media_file None; EvOp chrome_launch (Some d);
                EvCall F_establish_session (Some d);
                EvRet F_establish_session (PyBool false);
                EvPrint "Failed to establish session";
                EvCall F_cleanup_driver None; EvOp (quit d) a;
                EvRet F_cleanup_driver PyNone;
                EvOp chrome_launch (Some d2); EvCall F_establish_session (Some d2);
                EvRet F_establish_session (PyBool true)] Hst). reflexivity.
  - inversion Hphase as [v2 t2 Hst|e|a v2 t2 Hretry]; subst.
    + apply (Hsteps d t2
               [EvCall F_process_media_file None;
                EvCall F_establish_session (Some d);
                EvRet F_establish_session (PyBool true)] Hst). reflexivity.
    + inversion Hretry as [|d2 v3 t3 Hst| |]; subst.
      apply (Hsteps d2 t3
               [EvCall F_process_media_file None;
                EvCall F_establish_session (Some d);
                EvRet F_establish_session (PyBool false);
                EvPrint "Failed to establish session";
                EvCall F_cleanup_driver None; EvOp (quit d) a;
                EvRet F_cleanup_driver PyNone;
                EvOp chrome_launch (Some d2); EvCall F_establish_session (Some d2);
                EvRet F_establish_session (PyBool true)] Hst). reflexivity.
Qed.

Lemma retry_shape_facts v rest :
  retry_shape v rest ->
  List.length (filter is_establish rest) <= 2 /\
  (~ In (EvRet F_establish_session (PyBool true)) rest ->
   v = None /\ filter is_step_call rest = []).
Proof.
  intros [|d2 v0 t Hst|d2|d2 e].
  - split; [cbn; lia|]. now intros _.
  - cbn [filter is_establish].
    rewrite (steps_shape_no_establish _ _ _ _ _ the_steps_are_steps Hst).
    split; [cbn; lia|]. intros Hno. exfalso. apply Hno. cbn [In]. auto.
  - split; [cbn; lia|]. now intros _.
  - split; [cbn; lia|]. now intros _.
Qed.

(** C10, as the script has it: when the first call of
    [establish_session] in a run of [process_media_file] returns False,
    the run prints its message, shuts the browser of that call down
    ([cleanup_driver] quits it), launches a browser again and, if the
    launch answers, enters [establish_session] once more with the new
    browser and never a third time ([retry_shape]); unless that second
    call returns True, the run returns None and no step is entered at
    all: that is so when the second call returns False, and also when the
    launch or the second call raises. *)
Theorem session_retry_once (video_bytes : bytes) (s : State)
        (before : list Event) (d : Driver) (after : list Event) :
  filter top_ev (tr (process_media_file video_bytes s))
  = before ++ EvCall F_establish_session (Some d)
      :: EvRet F_establish_session (PyBool false) :: after ->
  filter is_establish before = [] ->
  exists a rest v,
    res (process_media_file video_bytes s) = Val v /\
    after = EvPrint "Failed to establish session"
              :: EvCall F_cleanup_driver None
              :: EvOp (quit d) a
              :: EvRet F_cleanup_driver PyNone
              :: rest ++ [EvRet F_process_media_file (enc_shots v)] /\
    retry_shape v rest /\
    List.length (filter is_establish rest) <= 2 /\
    (~ In (EvRet F_establish_session (PyBool true)) rest ->
     v = None /\
     filter is_step_call (tr (process_media_file video_bytes s)) = []).
Proof.
  intros Heq Hbefore.
  destruct (process_media_file_shape video_bytes s) as (v & t & Hres & Htr & Hshape).
  rewrite Htr in Heq.
  assert (Hsub : filter is_step_call (tr (process_media_file video_bytes s))
                 = filter is_step_call (filter top_ev (tr (process_media_file video_bytes s)))).
  { symmetry. apply filter_filter_sub. intros [] H; try discriminate.
    cbn [is_step_call] in H. cbn [top_ev]. unfold top_fn. now rewrite H. }
  rewrite Hsub, Htr. clear Hsub Htr.
  assert (Hmain : forall pre t1,
    filter is_establish pre = [] -> filter is_step_call pre = [] ->
    session_phase d v t1 ->
    pre ++ EvCall F_establish_session (Some d)
        :: t1 ++ [EvRet F_process_media_file (enc_shots v)]
    = before ++ EvCall F_establish_session (Some d)
        :: EvRet F_establish_session (PyBool false) :: after ->
    exists a rest,
      after = EvPrint "Failed to establish session"
                :: EvCall F_cleanup_driver None
                :: EvOp (quit d) a
                :: EvRet F_cleanup_driver PyNone
                :: rest ++ [EvRet F_process_media_file (enc_shots v)] /\
      retry_shape v rest /\
      List.length (filter is_establish rest) <= 2 /\
      (~ In (EvRet F_establish_session (PyBool true)) rest ->
       v = None /\
       filter is_step_call
         (pre ++ EvCall F_establish_session (Some d)
              :: t1 ++ [EvRet F_process_media_file (enc_shots v)]) = [])).
  { intros pre t1 Hpre Hcalls Hphase Hsplit.
    destruct (first_split is_establish _ _ _ _ _ _ Hsplit Hpre Hbefore
                ltac:(reflexivity) ltac:(reflexivity)) as (_ & _ & Hpost).
    destruct Hphase as [v2 t2 Hst|e|a v2 t2 Hretry]; cbn [app] in Hpost;
      try discriminate Hpost.
    injection Hpost as <-. exists a, t2.
    destruct (retry_shape_facts _ _ Hretry) as [Hcount Hsecond].
    split; [reflexivity|]. split; [exact Hretry|]. split; [exact Hcount|].
    intros Hin. destruct (Hsecond Hin) as [-> Hnone]. split; [reflexivity|].
    rewrite filter_app, Hcalls. cbn [filter is_step_call app step_fn].
    rewrite filter_app, Hnone. reflexivity. }
  destruct Hshape as [Hcur|d0 v1 t1 Hcur Hphase|d0 v1 t1 Hcur Hphase].
  - exfalso. revert Heq. apply (absent_split is_establish); reflexivity.
  - assert (d0 = d) as ->.
    { destruct (first_split is_establish
                  [EvCall F_process_media_file None; EvOp chrome_launch (Some d0)]
                  _ _ _ _ _ Heq ltac:(reflexivity) Hbefore
                  ltac:(reflexivity) ltac:(reflexivity)) as (_ & Hx & _).
      now injection Hx. }
    destruct (Hmain [EvCall F_process_media_file None; EvOp chrome_launch (Some d)] t1
                ltac:(reflexivity) ltac:(reflexivity) Hphase Heq)
      as (a & rest & Hafter & Hretry & Hcount & Hsecond).
    exists a, rest, v1.
    split; [exact Hres|]. split; [exact Hafter|]. split; [exact Hretry|].
    split; [exact Hcount|]. exact Hsecond.
  - assert (d0 = d) as ->.
    { destruct (first_split is_establish [EvCall F_process_media_file None]
                  _ _ _ _ _ Heq ltac:(reflexivity) Hbefore
                  ltac:(reflexivity) ltac:(reflexivity)) as (_ & Hx & _).
      now injection Hx. }
    destruct (Hmain [EvCall F_process_media_file None] t1
                ltac:(reflexivity) ltac:(reflexivity) Hphase Heq)
      as (a & rest & Hafter & Hretry & Hcount & Hsecond).
    exists a, rest, v1.
    split; [exact Hres|]. split; [exact Hafter|]. split; [exact Hretry|].
    split; [exact Hcount|]. exact Hsecond.
Qed.

End Runs.

Lemma abort_on_failed_step_witness :
  res (@process_media_file env_no_button [x00] (@start env_no_button 0)) = Val None.
Proof.
  apply (proj1 (@abort_on_failed_step env_no_button [x00] (@start env_no_button 0)
                  [ EvCall F_process_media_file None; EvOp chrome_launch (Some 1);
                    EvCall F_establish_session (Some 1);
                    EvRet F_establish_session (PyBool true);
                    EvCall F_click_new_post (Some 1) ]
                  F_click_new_post
                  [ EvPrint "Failed to click New Post button";
                    EvRet F_process_media_file PyNone ]
                  ltac:(vm_compute; reflexivity) ltac:(reflexivity))).
Defined.

(** C5 as stated fails in its last clause: two runs in which different
    steps fail hand the same value to the caller. *)
Lemma failed_step_not_in_result :
  failed_step (tr (@process_media_file env_no_button [x00] (@start env_no_button 0)))
    = Some F_click_new_post /\
  failed_step (tr (@process_media_file env_no_tempfile [x00] (@start env_no_tempfile 0)))
    = Some F_upload_video /\
  res (@process_media_file env_no_button [x00] (@start env_no_button 0))
    = res (@process_media_file env_no_tempfile [x00] (@start env_no_tempfile 0)).
Proof. vm_compute. repeat split; reflexivity. Qed.

Lemma evidence_follows_captures_witness :
  exists d before pngs,
    List.length pngs = 9 /\
    repeat [x89; x50] 9 = kept pngs /\
    filter top_ev (tr (@process_media_file env_all_fine [x00] (@start env_all_fine 0)))
    = before ++ step_blocks d (map fst the_steps) pngs
      ++ [EvRet F_process_media_file (PyList (repeat [x89; x50] 9))] /\
    filter is_evidence_ev before = [] /\
    List.length (repeat [x89; x50] 9) <= 9.
Proof.
  apply (@evidence_follows_captures env_all_fine [x00] (@start env_all_fine 0)).
  vm_compute. reflexivity.
Defined.

(** C8 as stated fails: a run whose first capture raises completes nine
    steps and returns eight snapshots. *)
Lemma evidence_misses_failed_capture :
  res (@process_media_file (env_capture_fails 8) [x00] (@start (env_capture_fails 8) 0))
    = Val (Some (repeat [x89; x50] 8)) /\
  List.length (filter step_completed
                 (tr (@process_media_file (env_capture_fails 8) [x00]
                        (@start (env_capture_fails 8) 0)))) = 9.
Proof. vm_compute. split; reflexivity. Qed.

Lemma session_retry_once_witness :
  exists a rest v,
    res (@process_media_file env_logged_out [x00] (@start env_logged_out 0)) = Val v /\
    [ EvPrint "Failed to establish session"; EvCall F_cleanup_driver None;
      EvOp (quit 1) (Some tt); EvRet F_cleanup_driver PyNone;
      EvOp chrome_launch (Some 26); EvCall F_establish_session (Some 26);
      EvRet F_establish_session (PyBool false);
      EvPrint "Failed to establish session after retry";
      EvRet F_process_media_file PyNone ]
    = EvPrint "Failed to establish session"
        :: EvCall F_cleanup_driver None
        :: EvOp (quit 1) a
        :: EvRet F_cleanup_driver PyNone
        :: rest ++ [EvRet F_process_media_file (enc_shots v)] /\
    retry_shape v rest.
Proof.
  destruct (@session_retry_once env_logged_out [x00] (@start env_logged_out 0)
              [EvCall F_process_media_file None; EvOp chrome_launch (Some 1)] 1
              [ EvPrint "Failed to establish session"; EvCall F_cleanup_driver None;
                EvOp (quit 1) (Some tt); EvRet F_cleanup_driver PyNone;
                EvOp chrome_launch (Some 26); EvCall F_establish_session (Some 26);
                EvRet F_establish_session (PyBool false);
                EvPrint "Failed to establish session after retry";
                EvRet F_process_media_file PyNone ]
              ltac:(vm_compute; reflexivity) ltac:(reflexivity))
    as (a & rest & v & Hres & Hafter & Hretry & _).
  exists a, rest, v. split; [exact Hres|]. split; [exact Hafter|exact Hretry].
Defined.

(** C10 as stated fails when the second launch raises: the run returns
    None although [establish_session] was entered once only. *)
Lemma no_retry_without_browser :
  res (@process_media_file env_no_second_browser [x00] (@start env_no_second_browser 0))
    = Val None /\
  filter top_ev
    (tr (@process_media_file env_no_second_browser [x00] (@start env_no_second_browser 0)))
  = [ EvCall F_process_media_file None; EvOp chrome_launch (Some 1);
      EvCall F_establish_session (Some 1);
      EvRet F_establish_session (PyBool false);
      EvPrint "Failed to establish session"; EvCall F_cleanup_driver None;
      EvOp (quit 1) (Some tt); EvRet F_cleanup_driver PyNone;
      EvOp chrome_launch None;
      EvRet F_process_media_file PyNone ].
Proof. vm_compute. split; reflexivity. Qed.

Lemma submit_post_bounded_retry_witness :
  res (@submit_post env_no_click 1 (@start env_no_click 0)) = Val None /\
  ~ In (EvClicked 1) (tr (@submit_post env_no_click 1 (@start env_no_click 0))).
Proof.
  destruct (@submit_post_bounded_retry env_no_click 1 (@start env_no_click 0))
    as (v & Hres & _ & _ & _ & _ & Hnone).
  assert (Hv : v = None) by (vm_compute in Hres; now injection Hres).
  subst v. split; [exact Hres|]. apply Hnone. reflexivity.
Defined.

(* ================================================================== *)
(** * Further properties of the script, the handlers and Vesion1.py *)

(** ** The session functions *)

Section SessionParts.
Context {E : Env}.

Lemma cleanup_driver_idle (s : State) :
  driver s = None ->
  cleanup_driver s
  = mkOut (Val tt) s [EvCall F_cleanup_driver None; EvRet F_cleanup_driver PyNone].
Proof.
  intros H. unfold cleanup_driver, fn, bind, try_, emit, get_driver, ret.
  cbn [res st tr]. rewrite H. reflexivity.
Qed.

Lemma cleanup_driver_live (s : State) (d : Driver) :
  driver s = Some d ->
  exists a w,
    cleanup_driver s
    = mkOut (Val tt) (mkState w None)
        [EvCall F_cleanup_driver None; EvOp (quit d) a; EvRet F_cleanup_driver PyNone].
Proof.
  intros H.
  unfold cleanup_driver, fn, attempt, bind, try_, emit, get_driver, set_driver, call, ret.
  cbn [res st tr]. rewrite H.
  destruct (exec unit (quit d) (world s)) as [[[]|] w]; cbn [world driver app];
    eexists _, _; reflexivity.
Qed.

(** X1: cleanup_driver never raises, whatever [driver.quit()] does, and
    always leaves the global [driver] at None.  With a live browser it
    sends exactly one request, the quit of that browser; with none it
    sends nothing and changes nothing.  Hence a second cleanup right after
    the first is silent. *)
Theorem cleanup_driver_clears_global (s : State) :
  res (cleanup_driver s) = Val tt /\
  driver (st (cleanup_driver s)) = None /\
  match driver s with
  | Some d =>
      exists a,
        tr (cleanup_driver s)
        = [EvCall F_cleanup_driver None; EvOp (quit d) a; EvRet F_cleanup_driver PyNone]
  | None =>
      cleanup_driver s
      = mkOut (Val tt) s [EvCall F_cleanup_driver None; EvRet F_cleanup_driver PyNone]
  end /\
  tr (cleanup_driver (st (cleanup_driver s)))
  = [EvCall F_cleanup_driver None; EvRet F_cleanup_driver PyNone].
Proof.
  destruct (driver s) as [d|] eqn:Hd.
  - destruct (cleanup_driver_live s d Hd) as (a & w & ->). cbn [res st tr driver].
    split; [reflexivity|]. split; [reflexivity|]. split; [now exists a|].
    now rewrite cleanup_driver_idle.
  - rewrite (cleanup_driver_idle s Hd). cbn [res st tr].
    split; [reflexivity|]. split; [exact Hd|]. split; [reflexivity|].
    now rewrite (cleanup_driver_idle s Hd).
Qed.

(** X2: save_cookies never raises and leaves the global [driver] alone.
    It opens the cookie file for writing before it asks the browser for
    its cookies, and the only list it ever dumps is the one the browser
    returned: it stops after the open, after the reading, or after the
    dump of exactly that list. *)
Theorem save_cookies_dumps_browser_cookies (d : Driver) (s : State) :
  exists t,
    res (save_cookies d s) = Val tt /\
    driver (st (save_cookies d s)) = driver s /\
    tr (save_cookies d s)
    = EvCall F_save_cookies (Some d) :: t ++ [EvRet F_save_cookies PyNone] /\
    save_shape d t.
Proof.
  unfold save_cookies.
  match goal with |- context [fn _ _ _ ?b] => set (body := b) end.
  assert (Hbody : exists w t, body s = mkOut (Val tt) (mkState w (driver s)) t /\ save_shape d t).
  { unfold body, bind, try_, call, ret.
    destruct (exec unit (file_open COOKIE_FILE "wb") (world s)) as [[[]|] w1];
      cbn [world driver app];
      [|eexists _, _; split; [reflexivity|apply save_not_opened]].
    destruct (exec (list Cookie) (get_cookies d) w1) as [[cs|] w2];
      cbn [world driver app];
      [|eexists _, _; split; [reflexivity|apply save_not_read]].
    destruct (exec unit (pickle_dump COOKIE_FILE cs) w2) as [[[]|] w3];
      cbn [world driver app];
      eexists _, _; (split; [reflexivity|apply save_dumped]). }
  destruct Hbody as (w & t & Hrun & Hshape).
  exists t. rewrite (fn_val _ _ _ _ _ tt) by (now rewrite Hrun). rewrite Hrun.
  cbn [res st tr driver]. now repeat split.
Qed.

Lemma check_indicators_run (d : Driver) (l : list xpath) (s : State) :
  (exists before x e after s',
      l = before ++ x :: after /\
      check_indicators d l s
      = mkOut (Val true) s'
          (failed_polls d presence_of_element_located 3 before
             ++ [tried d presence_of_element_located 3 x (Some e)])) \/
  (exists s',
      check_indicators d l s
      = mkOut (Val false) s' (failed_polls d presence_of_element_located 3 l)).
Proof.
  revert s. induction l as [|x rest IH]; intros s; cbn [check_indicators].
  - right. now exists s.
  - destruct (attempt_call (wait_until d 3 (presence_of_element_located x)) s)
      as (a & w & Hrun).
    rewrite (bind_val _ _ _ a) by (now rewrite Hrun). rewrite Hrun. cbn [res st tr].
    destruct a as [e|].
    + left. exists [], x, e, rest, (mkState w (driver s)). split; reflexivity.
    + destruct (IH (mkState w (driver s)))
        as [(before & y & e & after & s' & -> & Hr)|(s' & Hr)].
      * left. exists (x :: before), y, e, after, s'. split; [reflexivity|].
        rewrite Hr. reflexivity.
      * right. exists s'. rewrite Hr. reflexivity.
Qed.

(** X7: check_session_validity never raises, and every run is one of
    five: the dashboard could not be opened, the URL could not be read,
    the URL does not contain publish.buffer.com, the URL is right but the
    three indicators were polled in order (3 seconds each) and all raised
    - the result is False in these four - or the URL is right and the
    first indicator whose poll answered ends the run with True.  So True
    needs both the URL and an indicator, and no indicator is polled on a
    foreign URL. *)
Theorem probe_needs_url_and_indicator (d : Driver) (s : State) :
  exists b t,
    res (check_session_validity d s) = Val b /\
    tr (check_session_validity d s)
    = EvCall F_check_session_validity (Some d) :: t
        ++ [EvRet F_check_session_validity (PyBool b)] /\
    probe_shape d b t.
Proof.
  unfold check_session_validity.
  match goal with |- context [fn _ _ _ ?b] => set (body := b) end.
  assert (Hbody : exists b s' t, body s = mkOut (Val b) s' t /\ probe_shape d b t).
  { unfold body, bind, try_, call, sleep, emit, ret.
    destruct (exec unit (get d "https://publish.buffer.com/all-channels") (world s))
      as [[[]|] w1]; cbn [world driver app];
      [|eexists _, _, _; split; [reflexivity|apply probe_unreachable]].
    destruct (exec string (current_url d) w1) as [[url|] w2]; cbn [world driver app];
      [|eexists _, _, _; split; [reflexivity|apply probe_no_url]].
    destruct (contains "publish.buffer.com" url) eqn:Hurl; cbn [negb];
      [|eexists _, _, _; split; [reflexivity|now apply probe_elsewhere]].
    destruct (check_indicators_run d indicators (mkState w2 (driver s)))
      as [(before & x & e & after & s' & Hsplit & Hr)|(s' & Hr)]; rewrite Hr.
    - eexists _, _, _; split; [reflexivity|]. now apply (probe_valid d url before x e after).
    - eexists _, _, _; split; [reflexivity|]. now apply probe_no_indicator. }
  destruct Hbody as (b & s' & t & Hrun & Hshape).
  exists b, t. rewrite (fn_val _ _ _ _ _ b) by (now rewrite Hrun). rewrite Hrun.
  cbn [res st tr]. now repeat split.
Qed.

(** X5: without a cookie file load_cookies returns False at once: it
    checks for the file, sends no request to the browser (it does not even
    open the root domain) and leaves the state as it was.  The same holds
    for Vesion1.py. *)
Theorem load_cookies_without_file (settle : nat) (d : Driver) (s : State) :
  file_exists COOKIE_FILE (world s) = false ->
  load_cookies_with settle d s
  = mkOut (Val false) s
      [ EvCall F_load_cookies (Some d); EvExists COOKIE_FILE false;
        EvRet F_load_cookies (PyBool false) ].
Proof.
  intros H. unfold load_cookies_with, fn, bind, try_, emit, exists_, ret.
  cbn [res st tr]. rewrite H. reflexivity.
Qed.



Lemma wp_any {A} p X (P : A -> Prop) (m : M A)
      (Q : outcome A -> State -> list Event -> Prop) s :
  hoare everything X P m ->
  (forall a s1 t, P a -> driver s1 = driver s -> Q (Val a) s1 t) ->
  (X = true -> forall e s1 t, driver s1 = driver s -> Q (Exn e) s1 t) ->
  wp p m Q s.
Proof.
  unfold wp. intros H HV HE. destruct (H s) as (_ & Hd & Hr).
  destruct (res (m s)) as [a|e]; auto.
Qed.

Lemma wp_attempt_call {A} p (o : Op A)
      (Q : outcome (option A) -> State -> list Event -> Prop) s :
  (forall a s1, driver s1 = driver s -> Q (Val a) s1 (filter p [EvOp o a])) ->
  wp p (attempt (call o)) Q s.
Proof.
  intros H. unfold wp. destruct (attempt_call o s) as (a & w & ->). cbn [res st tr].
  now apply H.
Qed.

(** X8: handle_captcha never raises, and the last request of every run
    is a switch back to the default content, whatever happened before:
    when the frame was not found, when switching into it raised, and when
    the first switch back raised (it is then tried again).  A run that
    returns True has entered the reCAPTCHA frame and has left it. *)
Theorem handle_captcha_leaves_frame (d : Driver) (s : State) :
  exists b before a,
    res (handle_captcha d s) = Val b /\
    filter is_request (tr (handle_captcha d s))
    = before ++ [EvOp (switch_to_default_content d) a] /\
    (b = true ->
     a = Some tt /\
     exists captcha_iframe, In (EvOp (switch_to_frame d captcha_iframe) (Some tt)) before).
Proof.
  change (wp is_request (handle_captcha d)
            (fun r _ t =>
               exists b before a,
                 r = Val b /\
                 t = before ++ [EvOp (switch_to_default_content d) a] /\
                 (b = true ->
                  a = Some tt /\
                  exists captcha_iframe,
                    In (EvOp (switch_to_frame d captcha_iframe) (Some tt)) before)) s).
  unfold handle_captcha. apply wp_fn. apply wp_try. apply wp_bind. apply wp_call.
  intros [captcha_iframe|] s1 _; cbn [filter is_request app].
  2:{ apply wp_bind. apply wp_attempt_call. intros a s2 _. apply wp_ret.
      cbn [filter is_request app].
      eexists false, [_], a. split; [reflexivity|]. split; [reflexivity|discriminate]. }
  apply wp_bind. apply wp_call. intros [[]|] s2 _; cbn [filter is_request app].
  2:{ apply wp_bind. apply wp_attempt_call. intros a s3 _. apply wp_ret.
      cbn [filter is_request app].
      eexists false, [_; _], a. split; [reflexivity|]. split; [reflexivity|discriminate]. }
  apply wp_bind. apply (wp_any _ false any); [hoare_go| |discriminate].
  intros [] s3 t _ _. apply wp_bind. apply wp_call.
  intros [[]|] s4 _; cbn [filter is_request app].
  2:{ apply wp_bind. apply wp_attempt_call. intros a s5 _. apply wp_ret.
      cbn [filter is_request app]. rewrite ?app_nil_r.
      eexists false, (_ :: _ :: t ++ [_]), a. cbn [app].
      split; [reflexivity|]. split; [reflexivity|discriminate]. }
  apply wp_bind. apply wp_emit. apply wp_ret.
  cbn [filter is_request app]. rewrite ?app_nil_r.
  eexists true, (_ :: _ :: t), (Some tt). cbn [app].
  split; [reflexivity|]. split; [reflexivity|]. intros _. split; [reflexivity|].
  exists captcha_iframe. right. left. reflexivity.
Qed.

(** One silent step of a sequence, for a backward proof. *)
Ltac quiet_step :=
  apply wp_bind; apply (wp_quiet _ true any);
  [ unfold handle_captcha, send_keys_opt; hoare_go
  | intros ? ? _ _
  | intros _ ? ? _; cbn beta iota ].

(** X9: login_with_credentials never raises, and it enters
    save_cookies exactly in the runs that return True, once: the session
    cookies are stored when and only when the login was verified. *)
Theorem login_saves_cookies_on_success (d : Driver) (s : State) :
  exists b,
    res (login_with_credentials d s) = Val b /\
    filter is_save_call (tr (login_with_credentials d s))
    = if b then [EvCall F_save_cookies (Some d)] else [].
Proof.
  change (wp is_save_call (login_with_credentials d)
            (fun r _ t =>
               exists b, r = Val b /\
                         t = if b then [EvCall F_save_cookies (Some d)] else []) s).
  unfold login_with_credentials. apply wp_fn. apply wp_try.
  do 14 (quiet_step; [|apply wp_ret; exists false; split; reflexivity]).
  match goal with |- wp _ (if ?c then _ else _) _ _ => destruct c end.
  - apply wp_try.
    quiet_step; [|apply wp_ret; exists false; split; reflexivity].
    apply wp_bind. unfold save_cookies. apply wp_fn.
    apply (wp_quiet _ false any); [hoare_go| |discriminate].
    intros [] s' _ _. apply wp_ret. exists true. split; reflexivity.
  - quiet_step; [|apply wp_ret; exists false; split; reflexivity].
    apply wp_ret. exists false. split; reflexivity.
Qed.

(** X10: when EMAIL or PASSWORD is unset or empty, establish_session
    never enters login_with_credentials, and it either returns True
    (the probe succeeded, at once or after the cookie restore) or raises
    the ValueError; it never returns False.  When both are set it never
    raises. *)
Theorem establish_session_needs_credentials (settle : nat) (d : Driver) (s : State) :
  if negb (truthy EMAIL) || negb (truthy PASSWORD)
  then
    filter is_login_call (tr (establish_session_with settle d s)) = [] /\
    (res (establish_session_with settle d s) = Val true \/
     res (establish_session_with settle d s)
     = Exn (ValueError "EMAIL and PASSWORD must be set in .env file"))
  else
    exists b, res (establish_session_with settle d s) = Val b.
Proof.
  change (wp is_login_call (establish_session_with settle d)
            (fun r _ t =>
               if negb (truthy EMAIL) || negb (truthy PASSWORD)
               then t = [] /\
                    (r = Val true \/
                     r = Exn (ValueError "EMAIL and PASSWORD must be set in .env file"))
               else exists b, r = Val b) s).
  assert (Hprobe : hoare (outside is_login_call) false any (check_session_validity d))
    by (unfold check_session_validity; hoare_go).
  assert (Hload : hoare (outside is_login_call) false any (load_cookies d))
    by (unfold load_cookies, load_cookies_with; hoare_go).
  assert (Hlast : forall s3,
    wp is_login_call
       (if negb (truthy EMAIL) || negb (truthy PASSWORD)
        then raise (ValueError "EMAIL and PASSWORD must be set in .env file")
        else logged_in <- login_with_credentials d ;;
             (if logged_in then ret true else ret false))
       (fun r _ t =>
          if negb (truthy EMAIL) || negb (truthy PASSWORD)
          then t = [] /\
               (r = Val true \/
                r = Exn (ValueError "EMAIL and PASSWORD must be set in .env file"))
          else exists b, r = Val b) s3).
  { intros s3. destruct (negb (truthy EMAIL) || negb (truthy PASSWORD)).
    - apply wp_raise. split; [reflexivity|now right].
    - apply wp_bind. apply (wp_any _ false any).
      + unfold login_with_credentials, handle_captcha, save_cookies, send_keys_opt.
        hoare_go.
      + intros [|] s4 t _ _; apply wp_ret; eexists; reflexivity.
      + discriminate. }
  assert (Hdone : forall s3 : State,
    (fun (r : outcome bool) (_ : State) (t : list Event) =>
       if negb (truthy EMAIL) || negb (truthy PASSWORD)
       then t = [] /\
            (r = Val true \/
             r = Exn (ValueError "EMAIL and PASSWORD must be set in .env file"))
       else exists b, r = Val b) (Val true) s3 []).
  { intros s3. cbn beta. destruct (negb (truthy EMAIL) || negb (truthy PASSWORD)).
    - split; [reflexivity|now left].
    - now exists true. }
  unfold establish_session_with. apply wp_fn. cbn [filter is_login_call app].
  apply wp_bind. apply (wp_quiet _ false any); [exact Hprobe| |discriminate].
  intros [|] s1 _ _; [apply wp_ret; rewrite ?app_nil_r; apply (Hdone s1)|].
  apply wp_bind. apply (wp_quiet _ false any); [exact Hload| |discriminate].
  intros loaded s2 _ _. apply wp_bind.
  apply (wp_quiet _ false any (if loaded then sleep settle ;; check_session_validity d
                               else ret false)).
  - destruct loaded; [|hoare_go].
    apply (hoare_bind _ _ any); [hoare_go|intros _ _; exact Hprobe].
  - intros [|] s3 _ _; [apply wp_ret; rewrite ?app_nil_r; apply (Hdone s3)|].
    eapply wp_conseq; [apply Hlast|].
    intros r s4 t H.
    destruct (negb (truthy EMAIL) || negb (truthy PASSWORD)); [|exact H].
    destruct H as [-> H].
    destruct r as [a|e]; cbn [filter is_login_call app]; (split; [reflexivity|exact H]).
  - discriminate.
Qed.

End SessionParts.

(** ** What the steps do to the page *)

Section StepActions.
Context {E : Env}.

Lemma wp_resolve p d mode timeout selectors
      (Q : outcome (option Elem) -> State -> list Event -> Prop) s :
  (forall x, p (tried d mode timeout x None) = false) ->
  (forall s1, Q (Val None) s1 []) ->
  (forall x e s1, In x selectors ->
                  Q (Val (Some e)) s1 (filter p [tried d mode timeout x (Some e)])) ->
  wp p (resolve d mode timeout selectors) Q s.
Proof.
  intros Hp. unfold tried in Hp. revert Q s.
  induction selectors as [|x rest IH]; intros Q s HN HS; cbn [resolve].
  - apply wp_ret. apply HN.
  - apply wp_bind. apply wp_attempt_call. intros [e|] s1 _.
    + apply wp_ret. rewrite app_nil_r. apply HS. now left.
    + cbn [filter]. rewrite Hp. cbn [app]. apply IH.
      * intros s2. apply HN.
      * intros y e s2 Hin. apply HS. now right.
Qed.


Lemma clicked_ok_step_ev ev : clicked_ok ev = true -> step_ev ev = true.
Proof.
  unfold clicked_ok, step_ev. destruct ev as [A o a| | | | | | | | | | |]; try discriminate.
  destruct o; try discriminate. intros _. apply orb_true_r.
Qed.

Lemma sent_ok_step_ev ev : sent_ok ev = true -> step_ev ev = true.
Proof.
  unfold sent_ok, step_ev. destruct ev as [A o a| | | | | | | | | | |]; try discriminate.
  destruct o; try discriminate. intros _. apply orb_true_r.
Qed.

(** X14: the four click-only steps (click_customize_button,
    click_second_text_area, click_section_button, click_list_item) never
    raise.  When one returns True, what it shows of answered locator polls
    and interactions is the poll of one of its selectors that answered
    followed by one click, which went through, on the element that poll
    returned.  When it returns None, no click went through. *)
Theorem click_step_clicks_what_it_found (f : Fn) (d : Driver) (selectors : list xpath)
        (s : State) :
  exists r,
    res (click_step f d selectors s) = Val r /\
    ((r = Some true /\
      exists x e,
        In x selectors /\
        filter step_ev (tr (click_step f d selectors s))
        = [tried d element_to_be_clickable 3 x (Some e); EvOp (click e) (Some tt)]) \/
     (r = None /\ filter clicked_ok (tr (click_step f d selectors s)) = [])).
Proof.
  assert (H : wp step_ev (click_step f d selectors)
                 (fun r _ t => exists r', r = Val r' /\ clicked_resolved d selectors r' t) s).
  { unfold click_step. apply wp_fn. apply wp_try. apply wp_bind. apply wp_resolve.
    - reflexivity.
    - intros s1. apply wp_ret. exists None. split; [reflexivity|].
      right. split; reflexivity.
    - intros x e s1 Hin. apply wp_bind. apply wp_call. intros [[]|] s2 _.
      + apply wp_ret. exists (Some true). split; [reflexivity|].
        left. split; [reflexivity|]. exists x, e. split; [exact Hin|reflexivity].
      + apply wp_ret. exists None. split; [reflexivity|]. right. split; reflexivity. }
  destruct H as (r & Hres & [(-> & x & e & Hin & Ht)|(-> & Ht)]).
  - exists (Some true). split; [exact Hres|]. left. split; [reflexivity|]. now exists x, e.
  - exists None. split; [exact Hres|]. right. split; [reflexivity|].
    rewrite <- Ht. symmetry. apply filter_filter_sub. apply clicked_ok_step_ev.
Qed.

Lemma typing_run (f : Fn) (d : Driver) (selectors : list xpath) (keys : string)
      (s : State) :
  wp step_ev
     (fn f (Some d) enc_step
        (try_ (target <- resolve d presence_of_element_located 3 selectors ;;
               match target with
               | None => ret None
               | Some target =>
                   call (click target) ;;
                   call (clear target) ;;
                   call (send_keys target keys) ;;
                   ret (Some true)
               end)
              (fun _ => ret None)))
     (fun r _ t => exists r', r = Val r' /\ typed_into d selectors keys r' t) s.
Proof.
  apply wp_fn. apply wp_try. apply wp_bind. apply wp_resolve.
  - reflexivity.
  - intros s1. apply wp_ret. exists None. split; [reflexivity|]. right. split; reflexivity.
  - intros x e s1 Hin.
    apply wp_bind. apply wp_call. intros [[]|] s2 _;
      [|apply wp_ret; exists None; split; [reflexivity|]; right; split; reflexivity].
    apply wp_bind. apply wp_call. intros [[]|] s3 _;
      [|apply wp_ret; exists None; split; [reflexivity|]; right; split; reflexivity].
    apply wp_bind. apply wp_call. intros [[]|] s4 _;
      [|apply wp_ret; exists None; split; [reflexivity|]; right; split; reflexivity].
    apply wp_ret. exists (Some true). split; [reflexivity|].
    left. split; [reflexivity|]. exists x, e. split; [exact Hin|reflexivity].
Qed.

Lemma typing_result (d : Driver) (selectors : list xpath) (keys : string)
      (m : M (option bool)) (s : State) :
  wp step_ev m (fun r _ t => exists r', r = Val r' /\ typed_into d selectors keys r' t) s ->
  exists r,
    res (m s) = Val r /\
    ((r = Some true /\
      exists x e,
        In x selectors /\
        filter step_ev (tr (m s))
        = [ tried d presence_of_element_located 3 x (Some e);
            EvOp (click e) (Some tt); EvOp (clear e) (Some tt);
            EvOp (send_keys e keys) (Some tt) ]) \/
     (r = None /\ filter sent_ok (tr (m s)) = [])).
Proof.
  intros (r & Hres & [(-> & x & e & Hin & Ht)|(-> & Ht)]).
  - exists (Some true). split; [exact Hres|]. left. split; [reflexivity|]. now exists x, e.
  - exists None. split; [exact Hres|]. right. split; [reflexivity|].
    rewrite <- Ht. symmetry. apply filter_filter_sub. apply sent_ok_step_ev.
Qed.

(** X13: type_content and fill_reels_input never raise.  When one
    returns True it has clicked, cleared and typed into the element that
    the answering poll of its locator loop returned, all three went
    through, and the text is '#viral #Reels' for type_content and '#reels'
    for fill_reels_input.  When it returns None no text was typed. *)
Theorem typing_steps_send_their_text (d : Driver) (s : State) :
  (exists r,
     res (type_content d s) = Val r /\
     ((r = Some true /\
       exists x e,
         In x type_content_selectors /\
         filter step_ev (tr (type_content d s))
         = [ tried d presence_of_element_located 3 x (Some e);
             EvOp (click e) (Some tt); EvOp (clear e) (Some tt);
             EvOp (send_keys e "#viral #Reels") (Some tt) ]) \/
      (r = None /\ filter sent_ok (tr (type_content d s)) = []))) /\
  (exists r,
     res (fill_reels_input d s) = Val r /\
     ((r = Some true /\
       exists x e,
         In x reels_selectors /\
         filter step_ev (tr (fill_reels_input d s))
         = [ tried d presence_of_element_located 3 x (Some e);
             EvOp (click e) (Some tt); EvOp (clear e) (Some tt);
             EvOp (send_keys e "#reels") (Some tt) ]) \/
      (r = None /\ filter sent_ok (tr (fill_reels_input d s)) = []))).
Proof.
  split.
  - apply typing_result. apply typing_run.
  - apply typing_result. apply typing_run.
Qed.

(** X11: click_new_post never raises.  When it returns True, what it
    shows of answered locator polls, clicks, clears and typing is the poll
    of one of its selectors that answered followed by one click, which
    went through, on the element that poll returned.  When it returns
    None, no click went through. *)
Theorem click_new_post_clicks_what_it_found (d : Driver) (s : State) :
  exists r,
    res (click_new_post d s) = Val r /\
    ((r = Some true /\
      exists x e,
        In x new_post_selectors /\
        filter step_ev (tr (click_new_post d s))
        = [tried d element_to_be_clickable 3 x (Some e); EvOp (click e) (Some tt)]) \/
     (r = None /\ filter clicked_ok (tr (click_new_post d s)) = [])).
Proof.
  assert (H : wp step_ev (click_new_post d)
                 (fun r _ t =>
                    exists r', r = Val r' /\ clicked_resolved d new_post_selectors r' t) s).
  { unfold click_new_post. apply wp_fn. apply wp_try.
    apply wp_bind. apply wp_call. intros [[]|] s1 _;
      [|apply wp_ret; exists None; split; [reflexivity|]; right; split; reflexivity].
    apply wp_bind. apply wp_emit.
    apply wp_bind. apply wp_resolve.
    - reflexivity.
    - intros s2. apply wp_ret. exists None. split; [reflexivity|].
      right. split; reflexivity.
    - intros x e s2 Hin. apply wp_bind. apply wp_call. intros [[]|] s3 _;
        [|apply wp_ret; exists None; split; [reflexivity|]; right; split; reflexivity].
      apply wp_bind. apply wp_emit.
      apply wp_bind. apply wp_attempt_call. intros opened s4 _.
      assert (Hsame : match opened with
                      | Some _ => ret (Some true)
                      | None => ret (Some true)
                      end = ret (Some true)) by now destruct opened.
      rewrite Hsame. apply wp_ret. exists (Some true). split; [reflexivity|].
      left. split; [reflexivity|]. exists x, e. split; [exact Hin|].
      destruct opened; reflexivity. }
  destruct H as (r & Hres & [(-> & x & e & Hin & Ht)|(-> & Ht)]).
  - exists (Some true). split; [exact Hres|]. left. split; [reflexivity|]. now exists x, e.
  - exists None. split; [exact Hres|]. right. split; [reflexivity|].
    rewrite <- Ht. symmetry. apply filter_filter_sub. apply clicked_ok_step_ev.
Qed.


End StepActions.

(** ** Overlay dismissal *)

Section Overlays.
Context {E : Env}.

Lemma wp_attempt {A} p (m : M A)
      (Q : outcome (option A) -> State -> list Event -> Prop) s :
  wp p m (fun r s1 t =>
            Q (Val (match r with Val a => Some a | Exn _ => None end)) s1 t) s ->
  wp p (attempt m) Q s.
Proof.
  intros H. unfold attempt. apply wp_try. apply wp_bind.
  eapply wp_conseq; [exact H|].
  intros [a|e] s1 t HQ; apply wp_ret; rewrite app_nil_r; exact HQ.
Qed.

Lemma try_close_buttons_dismissed (overlay_element : Elem) (l : list xpath) (s : State) :
  wp dismiss_ok (try_close_buttons overlay_element l) dismissed_once s.
Proof.
  revert s. induction l as [|x rest IH]; intros s; cbn [try_close_buttons].
  - apply wp_ret. now exists false.
  - apply wp_bind. apply wp_attempt.
    apply wp_bind. apply wp_call. intros [close_button|] s1 _; cbn [filter dismiss_ok app].
    2:{ eapply wp_conseq; [apply IH|]. intros r s2 t H. exact H. }
    apply wp_bind. apply wp_call. intros [[]|] s2 _; cbn [filter dismiss_ok raised negb app].
    2:{ eapply wp_conseq; [apply IH|]. intros r s3 t H. exact H. }
    apply wp_emit. cbn [filter dismiss_ok app]. apply wp_ret. now exists true.
Qed.

Lemma dismiss_loop_dismissed (d : Driver) (l : list xpath) (s : State) :
  wp dismiss_ok (dismiss_loop d l) dismissed_once s.
Proof.
  revert s. induction l as [|x rest IH]; intros s; cbn [dismiss_loop].
  - apply wp_ret. now exists false.
  - apply wp_bind. apply wp_attempt.
    apply wp_bind. apply wp_call. intros [overlay_element|] s1 _; cbn [filter dismiss_ok app].
    2:{ eapply wp_conseq; [apply IH|]. intros r s2 t H. exact H. }
    apply wp_bind. apply wp_call. intros [[|]|] s2 _; cbn [filter dismiss_ok app].
    2:{ apply wp_ret. eapply wp_conseq; [apply IH|]. intros r s3 t H. exact H. }
    2:{ eapply wp_conseq; [apply IH|]. intros r s3 t H. exact H. }
    apply wp_bind. eapply wp_conseq; [apply try_close_buttons_dismissed|].
    intros r s3 t (closed & -> & Hlen).
    destruct closed.
    + apply wp_ret. apply wp_ret. exists true. split; [reflexivity|].
      rewrite !app_nil_r. exact Hlen.
    + destruct t; [|discriminate]. cbn [app].
      apply wp_bind. apply wp_call. intros [[]|] s4 _;
        cbn [filter dismiss_ok raised negb app].
      2:{ eapply wp_conseq; [apply IH|]. intros r s5 t H. exact H. }
      apply wp_bind. apply wp_emit. apply wp_ret. apply wp_ret. now exists true.
Qed.

(** X15: dismiss_overlays never raises; it returns True after exactly
    one click that went through (on a close control or beside the
    overlay), and False after none: the first successful click ends the
    pass. *)
Theorem dismiss_overlays_true_iff_dismissed (d : Driver) (s : State) :
  exists b,
    res (dismiss_overlays d s) = Val b /\
    List.length (filter dismiss_ok (tr (dismiss_overlays d s))) = if b then 1 else 0.
Proof.
  change (wp dismiss_ok (dismiss_overlays d) dismissed_once s).
  unfold dismiss_overlays. apply wp_fn. apply wp_try.
  eapply wp_conseq; [apply dismiss_loop_dismissed|].
  intros [b|e] s1 t (b' & Hr & Hlen); [|discriminate].
  exists b'. split; [exact Hr|]. cbn [filter dismiss_ok app]. now rewrite app_nil_r.
Qed.

End Overlays.

(** ** The submit button and the work of submit_post *)

Lemma last_found_quiet (t : list Event) (init : option Elem) :
  forallb no_find t = true -> last_found t init = init.
Proof.
  unfold last_found. revert init. induction t as [|ev t IH]; intros init H; [reflexivity|].
  cbn [forallb] in H. apply andb_prop in H as [Hev Ht]. cbn [fold_left].
  unfold no_find in Hev. destruct (found_element ev); [discriminate|]. now apply IH.
Qed.

Lemma last_found_app (t1 t2 : list Event) (init : option Elem) :
  last_found (t1 ++ t2) init = last_found t2 (last_found t1 init).
Proof. unfold last_found. apply fold_left_app. Qed.

Section ShareButton.
Context {E : Env}.

(** X16: the selector loop of submit_post never raises and returns the
    element of the last presence poll that answered, whether or not that
    element was displayed and enabled (the loop only stops early at one
    that is), or the initial value, None in submit_post, when no poll
    answered. *)
Theorem find_share_button_keeps_last_found (d : Driver) (l : list xpath)
        (share_button : option Elem) (s : State) :
  res (find_share_button d l share_button s)
  = Val (last_found (tr (find_share_button d l share_button s)) share_button).
Proof.
  revert share_button s. induction l as [|x rest IH]; intros share_button s;
    cbn [find_share_button]; [reflexivity|].
  destruct (attempt_call (wait_until d 5 (presence_of_element_located x)) s)
    as (a & w & Hrun).
  rewrite (bind_val _ _ _ a) by (now rewrite Hrun). rewrite Hrun. cbn [res st tr].
  destruct a as [b|].
  - set (usable := attempt (shown <- call (is_displayed b) ;;
                            if shown then call (is_enabled b) else ret false)).
    assert (Husable : hoare no_find false any usable) by (unfold usable; hoare_go).
    destruct (Husable (mkState w (driver s))) as (Hq & _ & Hr).
    destruct (res (usable (mkState w (driver s)))) as [u|e] eqn:Hu; [|discriminate].
    rewrite (bind_val _ _ _ u Hu). cbn [res st tr].
    rewrite !last_found_app. cbn [last_found fold_left found_element].
    fold (last_found (tr (usable (mkState w (driver s)))) (Some b)).
    rewrite (last_found_quiet _ _ Hq).
    destruct u as [[|]|]; [reflexivity|apply IH|apply IH].
  - cbn [app]. apply IH.
Qed.

Lemma strategy_run_counts d b i x t :
  strategy_run d b i x t ->
  i <= 4 /\ filter is_method t = [] /\ filter is_dismiss_call t = [].
Proof. intros H. destruct H; repeat split; cbn; lia. Qed.

Lemma clicks_shape_counts d b i r t :
  clicks_shape d b i r t ->
  List.length (filter is_method t) + i <= 5 /\ filter is_dismiss_call t = [].
Proof.
  induction 1 as [|i t Hrun|i t r rest Hrun _ [IHm IHd]].
  - split; [cbn; lia|reflexivity].
  - destruct (strategy_run_counts _ _ _ _ _ Hrun) as (Hi & Hm & Hd).
    cbn [filter is_method is_dismiss_call]. rewrite !filter_app, Hm, Hd.
    split; [cbn; lia|reflexivity].
  - destruct (strategy_run_counts _ _ _ _ _ Hrun) as (Hi & Hm & Hd).
    cbn [filter is_method is_dismiss_call]. rewrite !filter_app, Hm, Hd.
    cbn [filter is_method is_dismiss_call app List.length]. split; [lia|exact IHd].
Qed.

Lemma dismissal_counts d t :
  dismissal d t ->
  filter is_method t = [] /\ List.length (filter is_dismiss_call t) = 1.
Proof.
  intros (b & noise & -> & Hnoise).
  assert (Hq : forall c, (forall ev, is_click ev = true -> c ev = false) ->
                         filter c noise = []).
  { intros c Hc. induction noise as [|ev noise IH]; [reflexivity|].
    cbn [forallb] in Hnoise. apply andb_prop in Hnoise as [Hev Hn].
    cbn [filter]. rewrite (Hc ev Hev). now apply IH. }
  cbn [filter is_method is_dismiss_call]. rewrite !filter_app.
  rewrite (Hq is_method), (Hq is_dismiss_call).
  - split; reflexivity.
  - intros [A o a| | | | | | | | | | |]; try discriminate. reflexivity.
  - intros [A o a| | | | | | | | | | |]; try discriminate. reflexivity.
Qed.

Lemma opening_counts d n t :
  opening d n t ->
  filter is_method t = [] /\
  List.length (filter is_dismiss_call t) = if 1 <? n then 1 else 0.
Proof.
  unfold opening. destruct (1 <? n); [apply dismissal_counts|].
  intros ->. split; reflexivity.
Qed.

Lemma closing_counts d n t :
  closing d n t ->
  filter is_method t = [] /\
  List.length (filter is_dismiss_call t) = if n <? max_attempts then 1 else 0.
Proof.
  unfold closing. destruct (n <? max_attempts); [apply dismissal_counts|].
  intros ->. split; reflexivity.
Qed.

Lemma attempt_shape_counts d n c t :
  attempt_shape d n c t ->
  List.length (filter is_method t) <= 4 /\
  List.length (filter is_dismiss_call t) <= dismiss_budget n.
Proof.
  unfold dismiss_budget.
  intros [t0 Ho|t0 b t1 Ho Hc|t0 b t1 t2 Ho Hc Hcl];
    destruct (opening_counts _ _ _ Ho) as [Hm0 Hd0];
    cbn [filter is_method is_dismiss_call]; rewrite ?filter_app, ?length_app, Hm0.
  - cbn [List.length]. lia.
  - destruct (clicks_shape_counts _ _ _ _ _ Hc) as [Hm1 Hd1]. rewrite Hd1.
    cbn [List.length app]. lia.
  - destruct (clicks_shape_counts _ _ _ _ _ Hc) as [Hm1 Hd1].
    destruct (closing_counts _ _ _ Hcl) as [Hm2 Hd2].
    rewrite Hd1, Hm2. cbn [List.length app]. rewrite ?app_nil_r. lia.
Qed.

Lemma submit_shape_counts d attempts v t :
  submit_shape d attempts v t ->
  List.length (filter is_method t) <= 4 * List.length attempts /\
  List.length (filter is_dismiss_call t) <= list_sum (map dismiss_budget attempts).
Proof.
  induction 1 as [|n rest v t Ha|n rest v t t' Ha _ [IHm IHd]].
  - split; cbn; lia.
  - destruct (attempt_shape_counts _ _ _ _ Ha) as [Hm Hd].
    unfold list_sum. cbn [List.length map fold_right]. split; lia.
  - destruct (attempt_shape_counts _ _ _ _ Ha) as [Hm Hd].
    rewrite !filter_app, !length_app.
    unfold list_sum in *. cbn [List.length map fold_right]. split; lia.
Qed.

(** X17: a run of submit_post announces at most 12 click
    methods (3 attempts of 4) and enters dismiss_overlays at most 4
    times. *)
Theorem submit_post_bounded_work (d : Driver) (s : State) :
  List.length (filter is_method (tr (submit_post d s))) <= 12 /\
  List.length (filter is_dismiss_call (tr (submit_post d s))) <= 4.
Proof.
  destruct (submit_post_shape d s) as (v & _ & _ & Hshape).
  destruct (submit_shape_counts _ _ _ _ Hshape) as [Hm Hd].
  rewrite filter_filter_sub in Hm by (now intros []).
  rewrite filter_filter_sub in Hd by (intros [| f | | | | | | | | | |]; try discriminate;
                                      destruct f; try discriminate; reflexivity).
  split; [exact Hm|exact Hd].
Qed.

End ShareButton.

(** ** The browser of a run *)

Lemma is_lifecycle_top (ev : Event) : is_lifecycle ev = true -> top_ev ev = true.
Proof.
  destruct ev as [A o a| | | | | | | | | | |]; try discriminate.
  destruct o; try discriminate; reflexivity.
Qed.

Lemma browser_after_other (current : option Driver) (ev : Event) :
  is_lifecycle ev = false -> browser_after current ev = current.
Proof.
  destruct ev as [A o a| | | | | | | | | | |]; try reflexivity.
  destruct o; try reflexivity; discriminate.
Qed.

Lemma live_browser_filter (t : list Event) (current : option Driver) :
  live_browser (filter is_lifecycle t) current = live_browser t current.
Proof.
  unfold live_browser. revert current. induction t as [|ev t IH]; intros current;
    [reflexivity|].
  cbn [filter fold_left]. destruct (is_lifecycle ev) eqn:Hev.
  - cbn [fold_left]. apply IH.
  - rewrite (browser_after_other _ _ Hev). apply IH.
Qed.

Lemma live_browser_app (t1 t2 : list Event) (current : option Driver) :
  live_browser (t1 ++ t2) current = live_browser t2 (live_browser t1 current).
Proof. unfold live_browser. apply fold_left_app. Qed.

Section Lifecycle.
Context {E : Env}.

Lemma steps_shape_no_lifecycle d todo l v t :
  steps_shape d todo l v t -> filter is_lifecycle t = [].
Proof.
  induction 1 as [l|f0 msg0 todo l|f0 msg0 todo l png v t _ IH]; [reflexivity..|].
  rewrite filter_app, IH. reflexivity.
Qed.

Lemma retry_shape_lifecycle v t :
  retry_shape v t -> exists a, filter is_lifecycle t = [EvOp chrome_launch a].
Proof.
  intros [|d2 v' t' Hsteps|d2|d2 e].
  - now exists None.
  - exists (Some d2). cbn [filter is_lifecycle].
    now rewrite (steps_shape_no_lifecycle _ _ _ _ _ Hsteps).
  - now exists (Some d2).
  - now exists (Some d2).
Qed.

Lemma session_phase_lifecycle d v t :
  session_phase d v t ->
  filter is_lifecycle t = [] \/
  exists a a', filter is_lifecycle t = [EvOp (quit d) a; EvOp chrome_launch a'].
Proof.
  intros [v' t' Hsteps|e|a v' t' Hretry].
  - left. cbn [filter is_lifecycle]. apply (steps_shape_no_lifecycle _ _ _ _ _ Hsteps).
  - now left.
  - right. destruct (retry_shape_lifecycle _ _ Hretry) as [a' Ha'].
    exists a, a'. cbn [filter is_lifecycle]. now rewrite Ha'.
Qed.

Lemma tracked_frame {A} (m : M A) :
  (forall s, driver (st (m s)) = driver s /\ filter is_lifecycle (tr (m s)) = []) ->
  tracked m.
Proof.
  intros H s. destruct (H s) as [Hd Hq].
  now rewrite <- live_browser_filter, Hq.
Qed.

Lemma tracked_quiet {A} X (P : A -> Prop) (m : M A) :
  hoare (outside is_lifecycle) X P m -> tracked m.
Proof.
  intros H. apply tracked_frame. intros s. destruct (H s) as (Hq & Hd & _).
  split; [exact Hd|now apply outside_filter].
Qed.

Lemma tracked_bind {A B} (m : M A) (f : A -> M B) :
  tracked m -> (forall a, tracked (f a)) -> tracked (bind m f).
Proof.
  intros Hm Hf s. destruct (res (m s)) as [a|e] eqn:Hres.
  - rewrite (bind_val _ _ _ a Hres). cbn [st tr].
    now rewrite live_browser_app, <- Hm, <- Hf.
  - rewrite (bind_exn _ _ _ e Hres). cbn [st tr]. apply Hm.
Qed.

Lemma tracked_try {A} (m : M A) (h : exn -> M A) :
  tracked m -> (forall e, tracked (h e)) -> tracked (try_ m h).
Proof.
  intros Hm Hh s. destruct (res (m s)) as [a|e] eqn:Hres.
  - rewrite (try_val _ _ _ a Hres). apply Hm.
  - rewrite (try_exn _ _ _ e Hres). cbn [st tr].
    now rewrite live_browser_app, <- Hm, <- Hh.
Qed.

Lemma tracked_fn {A} f d enc (body : M A) : tracked body -> tracked (fn f d enc body).
Proof.
  intros Hb s. destruct (res (body s)) as [a|e] eqn:Hres.
  - rewrite (fn_val _ _ _ _ _ a Hres). cbn [st tr].
    change (EvCall f d :: tr (body s) ++ [EvRet f (enc a)])
      with ([EvCall f d] ++ tr (body s) ++ [EvRet f (enc a)]).
    rewrite !live_browser_app. cbn. apply Hb.
  - rewrite (fn_exn _ _ _ _ _ e Hres). cbn [st tr].
    change (EvCall f d :: tr (body s) ++ [EvRaise f e])
      with ([EvCall f d] ++ tr (body s) ++ [EvRaise f e]).
    rewrite !live_browser_app. cbn. apply Hb.
Qed.

(** [driver = setup_chrome()] *)
Lemma tracked_launch {A} (k : Driver -> M A) :
  (forall d, tracked (k d)) ->
  tracked (d <- setup_chrome ;; set_driver (Some d) ;; k d).
Proof.
  intros Hk s. unfold setup_chrome.
  destruct (call_cases chrome_launch s) as ([d|] & w & Hrun).
  - rewrite (bind_val _ _ _ d) by (now rewrite Hrun). rewrite Hrun. cbn [res st tr].
    rewrite (bind_val _ _ _ tt) by reflexivity. cbn [res st tr set_driver app].
    rewrite Hk. reflexivity.
  - rewrite (bind_exn _ _ _ EnvError) by (now rewrite Hrun). now rewrite Hrun.
Qed.

Lemma tracked_cleanup_driver : tracked cleanup_driver.
Proof.
  intros s. destruct (driver s) as [d|] eqn:Hd.
  - destruct (cleanup_driver_live s d Hd) as (a & w & ->). reflexivity.
  - rewrite (cleanup_driver_idle s Hd). cbn [st tr]. now rewrite Hd.
Qed.

Lemma tracked_establish_session d : tracked (establish_session d).
Proof.
  apply tracked_frame. intros s.
  pose proof (establish_session_top d s) as H. unfold wp in H. destruct H as [Hd Ht].
  split; [exact Hd|].
  rewrite <- (filter_filter_sub is_lifecycle top_ev) by apply is_lifecycle_top.
  rewrite Ht. cbn [filter is_lifecycle].
  destruct (res (establish_session d s)); reflexivity.
Qed.

Lemma tracked_workflow d vb : tracked (workflow d vb).
Proof.
  apply tracked_frame. intros s.
  pose proof (workflow_shape d vb s) as H. unfold wp, steps_post in H.
  destruct H as (Hd & v & _ & Hshape). split; [exact Hd|].
  rewrite <- (filter_filter_sub is_lifecycle top_ev) by apply is_lifecycle_top.
  apply (steps_shape_no_lifecycle _ _ _ _ _ Hshape).
Qed.

(** X22: a run of process_media_file launches or quits a browser only
    as follows.  With a browser in the global [driver]: nothing, or the
    quit of that browser followed by one launch.  With none: one launch
    (which may raise), possibly followed by the quit of the launched
    browser and one more launch.  So there are at most two launches, and a
    second browser is launched only after the first was quit.  After the
    run the global [driver] is the browser that these launches and quits
    leave alive. *)
Theorem process_media_file_browser_lifecycle (video_bytes : bytes) (s : State) :
  lifecycle_shape (driver s)
    (filter is_lifecycle (tr (process_media_file video_bytes s))) /\
  driver (st (process_media_file video_bytes s))
  = live_browser (tr (process_media_file video_bytes s)) (driver s).
Proof.
  split.
  - destruct (process_media_file_shape video_bytes s) as (v & t & _ & Htr & Hshape).
    rewrite <- (filter_filter_sub is_lifecycle top_ev) by apply is_lifecycle_top.
    rewrite Htr. cbn [filter is_lifecycle]. rewrite filter_app. cbn [filter is_lifecycle].
    rewrite app_nil_r.
    destruct Hshape as [Hcur|d v' t' Hcur Hphase|d v' t' Hcur Hphase]; rewrite Hcur.
    + apply launch_failed.
    + cbn [filter is_lifecycle].
      destruct (session_phase_lifecycle _ _ _ Hphase) as [->|(a & a' & ->)].
      * apply browser_launched.
      * apply browser_relaunched.
    + cbn [filter is_lifecycle].
      destruct (session_phase_lifecycle _ _ _ Hphase) as [->|(a & a' & ->)].
      * apply browser_reused.
      * apply browser_replaced.
  - revert s. change (tracked (process_media_file video_bytes)).
    unfold process_media_file. apply tracked_fn. apply tracked_try;
      [|intros e; apply (tracked_quiet false any); hoare_go].
    apply tracked_bind; [apply (tracked_quiet false any); hoare_go|intros current].
    assert (Hrest : forall d,
      tracked (established <- establish_session d ;;
               if established then workflow d video_bytes
               else
                 print "Failed to establish session" ;;
                 cleanup_driver ;;
                 d2 <- setup_chrome ;;
                 set_driver (Some d2) ;;
                 established <- establish_session d2 ;;
                 if established then workflow d2 video_bytes
                 else print "Failed to establish session after retry" ;; ret None)).
    { intros d. apply tracked_bind; [apply tracked_establish_session|intros [|]];
        [apply tracked_workflow|].
      apply tracked_bind; [apply (tracked_quiet false any); hoare_go|intros _].
      apply tracked_bind; [apply tracked_cleanup_driver|intros _].
      apply tracked_launch. intros d2.
      apply tracked_bind; [apply tracked_establish_session|intros [|]];
        [apply tracked_workflow|].
      apply (tracked_quiet false any). hoare_go. }
    destruct current as [d|].
    + apply tracked_bind; [apply (tracked_quiet false any); hoare_go|exact Hrest].
    + apply tracked_bind; [|exact Hrest].
      apply (tracked_launch (fun d => ret d)). intros d.
      apply (tracked_quiet false any). hoare_go.
Qed.

End Lifecycle.

(** ** The Telegram handlers *)

Lemma is_process_ret_top (ev : Event) : is_process_ret ev = true -> top_ev ev = true.
Proof.
  destruct ev as [| |f v| | | | | | | | |]; try discriminate.
  destruct f; try discriminate. reflexivity.
Qed.

Section HandlerProofs.
Context {E : Env} {B : Bot} {I : Imaging}.

Lemma steps_shape_no_process_ret d todo l v t :
  Forall (fun fm => step_fn (fst fm) = true) todo ->
  steps_shape d todo l v t -> filter is_process_ret t = [].
Proof.
  intros Htodo Hs. induction Hs as [l|f0 msg0 todo l|f0 msg0 todo l png v t _ IH].
  - reflexivity.
  - inversion Htodo as [|? ? Hf0 _]; subst. cbn [fst] in Hf0.
    cbn [filter is_process_ret]. destruct f0; try discriminate; reflexivity.
  - inversion Htodo as [|? ? Hf0 Hrest]; subst. cbn [fst] in Hf0.
    rewrite filter_app, (IH Hrest). unfold step_block. cbn [filter is_process_ret].
    destruct f0; try discriminate; reflexivity.
Qed.

Lemma process_shape_no_process_ret current v t :
  process_shape current v t -> filter is_process_ret t = [].
Proof.
  assert (Hsteps : forall d v t, steps_shape d the_steps [] v t ->
                                 filter is_process_ret t = []).
  { intros d v0 t0. apply steps_shape_no_process_ret, the_steps_are_steps. }
  assert (Hretry : forall v t, retry_shape v t -> filter is_process_ret t = []).
  { intros v0 t0 [|d2 v' t' Hs|d2|d2 e]; try reflexivity.
    cbn [filter is_process_ret]. apply (Hsteps _ _ _ Hs). }
  assert (Hphase : forall d v t, session_phase d v t -> filter is_process_ret t = []).
  { intros d v0 t0 [v' t' Hs|e|a v' t' Hr]; try reflexivity.
    - cbn [filter is_process_ret]. apply (Hsteps _ _ _ Hs).
    - cbn [filter is_process_ret]. apply (Hretry _ _ Hr). }
  intros [Hcur|d v' t' Hcur Hp|d v' t' Hcur Hp]; try reflexivity;
    cbn [filter is_process_ret]; apply (Hphase _ _ _ Hp).
Qed.

(** A run of [process_media_file] returns, and its last event records
    the result; no earlier event does. *)
Lemma process_media_file_run (video_bytes : bytes) (s : State) :
  exists v s' t,
    process_media_file video_bytes s
    = mkOut (Val v) s' (t ++ [EvRet F_process_media_file (enc_shots v)]) /\
    filter is_process_ret t = [].
Proof.
  destruct (process_media_file_shape video_bytes s) as (v & t' & Hres & Htr & Hshape).
  revert Hres Htr. unfold process_media_file.
  match goal with |- context [fn _ _ _ ?b] => set (body := b) end.
  intros Hres Htr.
  destruct (res (body s)) as [v0|e] eqn:Hbody.
  - rewrite (fn_val _ _ _ _ _ v0 Hbody) in Hres, Htr |- *. cbn [res tr] in Hres, Htr.
    injection Hres as ->.
    exists v, (st (body s)), (EvCall F_process_media_file None :: tr (body s)).
    split; [reflexivity|].
    cbn [filter top_ev top_fn step_fn orb] in Htr. rewrite filter_app in Htr.
    cbn [filter top_ev top_fn step_fn orb] in Htr.
    injection Htr as Htr. apply app_inv_tail in Htr.
    cbn [filter is_process_ret].
    rewrite <- (filter_filter_sub is_process_ret top_ev) by apply is_process_ret_top.
    rewrite Htr. apply (process_shape_no_process_ret _ _ _ Hshape).
  - rewrite (fn_exn _ _ _ _ _ e Hbody) in Hres. discriminate.
Qed.

End HandlerProofs.

Lemma existsb_script (p : HEvent -> bool) (t : list Event) :
  (forall ev, p (HScript ev) = false) -> existsb p (map HScript t) = false.
Proof.
  intros Hp. induction t as [|ev t IH]; [reflexivity|].
  cbn [map existsb]. now rewrite Hp, IH.
Qed.

(** Case analysis of a run of a handler along its requests. *)
Ltac handler_cases :=
  repeat match goal with
         | |- context [bot_exec ?A ?o ?w] =>
             destruct (bot_exec A o w) as [[?|] ?]; cbn [world driver app hres hst htr]
         | |- context [process_media_file ?f ?s0] =>
             let v := fresh "v" in
             let s' := fresh "s'" in
             let t := fresh "t" in
             let Hrun := fresh "Hrun" in
             let Hret := fresh "Hret" in
             destruct (process_media_file_run f s0) as (v & s' & t & Hrun & Hret);
             rewrite Hrun; cbn [world driver app hres hst htr];
             clear Hrun; destruct v as [[|? ?]|]
         | |- context [combine_screenshots ?l] =>
             let Hc := fresh "Hcombine" in
             destruct (combine_screenshots l) eqn:Hc
         end.

Section HandlerRuns.
Context {E : Env} {B : Bot} {I : Imaging}.

Ltac report_last :=
  first
    [ match goal with
      | |- exists before e', ?a :: ?b :: ?c :: ?d :: ?t ++ [_] = _ =>
          exists (a :: b :: c :: d :: t), EnvError; reflexivity
      end
    | match goal with
      | |- exists before e', ?l = _ => exists (removelast l), EnvError; reflexivity
      end ].

(** X23: handle_media raises only when its own error report could not
    be sent: in a run that raises, the last event is the failed
    send_message of the error text. *)
Theorem handle_media_raises_only_from_its_report (message : Message) (s : State) :
  match hres (handle_media message s) with
  | Val _ => True
  | Exn e =>
      e = EnvError /\
      exists before e',
        htr (handle_media message s)
        = before ++ [HBot (send_message TELEGRAM_USER_CHAT_ID (error_text e')) None]
  end.
Proof.
  unfold handle_media, post_file, htry, hbind, bot, script.
  destruct (video message); [|destruct (document message)];
    handler_cases; cbn [hres htr]; try exact Logic.I;
    (split; [reflexivity|report_last]).
Qed.

(** X24: for a message with neither video nor document, handle_media
    only talks to the bot: no function of the script is entered and the
    global [driver] is unchanged. *)
Theorem handle_media_unsupported_is_inert (message : Message) (s : State) :
  video message = None -> document message = None ->
  forallb is_bot (htr (handle_media message s)) = true /\
  driver (hst (handle_media message s)) = driver s.
Proof.
  intros Hv Hd. unfold handle_media, htry, hbind, bot. rewrite Hv, Hd.
  handler_cases; split; reflexivity.
Qed.

(** X25: the text 'Your media has been successfully posted to Buffer!'
    is sent only right after the combined photo went out, which happens
    only when process_media_file returned a non-empty evidence list and
    combine_screenshots made an image of it. *)
Theorem posted_report_is_backed (message : Message) (s : State) :
  existsb (says posted_text) (htr (handle_media message s)) = true ->
  exists l combined_image_bytes before a after,
    l <> [] /\
    combine_screenshots l = Some combined_image_bytes /\
    htr (handle_media message s)
    = before
      ++ [ HScript (EvRet F_process_media_file (PyList l));
           HBot (send_message TELEGRAM_USER_CHAT_ID combining_text) (Some tt);
           HBot (send_photo TELEGRAM_USER_CHAT_ID combined_image_bytes caption_text)
                (Some tt);
           HBot (send_message TELEGRAM_USER_CHAT_ID posted_text) a ]
      ++ after.
Proof.
  unfold handle_media, post_file, htry, hbind, bot, script.
  destruct (video message); [|destruct (document message)];
    handler_cases; cbn [hres htr];
    rewrite <- ?app_assoc; cbn [existsb app says];
    rewrite ?existsb_app, ?existsb_script by reflexivity;
    cbn [existsb says orb]; intros Hsaid.
  all: try discriminate Hsaid.
  all: repeat match goal with u : unit |- _ => destruct u end.
  all: rewrite map_app; cbn [map enc_shots]; rewrite <- ?app_assoc; cbn [app].
  all: eexists (_ :: _), _, (_ :: _ :: _ :: _ :: map HScript _), _, _;
    (split; [discriminate|]); (split; [eassumption|]); reflexivity.
Qed.

Lemma in_handler_trace (pre : list HEvent) (t : list Event) (x : Event)
      (post : list HEvent) (ev : Event) :
  filter is_process_ret t = [] -> is_process_ret ev = true ->
  forallb is_bot pre = true -> forallb is_bot post = true ->
  In (HScript ev) (pre ++ map HScript t ++ HScript x :: post) -> ev = x.
Proof.
  intros Ht Hev Hpre Hpost Hin.
  apply in_app_or in Hin as [Hin|Hin].
  - rewrite forallb_forall in Hpre. apply Hpre in Hin. discriminate.
  - apply in_app_or in Hin as [Hin|[Hin|Hin]].
    + apply in_map_iff in Hin as (ev' & Heq & Hin). injection Heq as ->.
      assert (Hin' : In ev (filter is_process_ret t)) by (apply filter_In; now split).
      rewrite Ht in Hin'. destruct Hin'.
    + now injection Hin.
    + rewrite forallb_forall in Hpost. apply Hpost in Hin. discriminate.
Qed.

(** X26: when process_media_file returns the empty list (all nine
    steps completed, no capture succeeded), handle_media reports a
    failure: the next message is 'Failed to process your media file
    through Buffer.', and the success text is never sent. *)
Theorem empty_evidence_is_reported_as_failure (message : Message) (s : State) :
  In (HScript (EvRet F_process_media_file (PyList [])))
     (htr (handle_media message s)) ->
  existsb (says posted_text) (htr (handle_media message s)) = false /\
  exists before a after,
    htr (handle_media message s)
    = before
      ++ [ HScript (EvRet F_process_media_file (PyList []));
           HBot (send_message TELEGRAM_USER_CHAT_ID failed_text) a ]
      ++ after.
Proof.
  unfold handle_media, post_file, htry, hbind, bot, script.
  destruct (video message); [|destruct (document message)];
    handler_cases; cbn [hres htr];
    rewrite ?map_app; cbn [map enc_shots]; rewrite <- ?app_assoc; cbn [app];
    intros Hin.
  all: first
    [ match type of Hin with
      | In _ (?a1 :: ?a2 :: ?a3 :: ?a4 :: map HScript ?t ++ HScript ?x :: ?post) =>
          apply (in_handler_trace [a1; a2; a3; a4] t x post) in Hin;
          [|assumption|reflexivity|reflexivity|reflexivity]
      end
    | exfalso; cbn [In] in Hin;
      repeat (destruct Hin as [Hin|Hin]; [discriminate Hin|]); exact Hin ].
  all: try discriminate Hin.
  all: clear Hin; split;
    [ cbn [existsb says]; rewrite existsb_app, existsb_script by reflexivity; reflexivity
    | eexists (_ :: _ :: _ :: _ :: map HScript _), _, _; reflexivity ].
Qed.


End HandlerRuns.

(** A video arrives, every request is answered. *)
Lemma posted_report_is_backed_witness :
  exists l combined_image_bytes before a after,
    l <> [] /\
    @combine_screenshots toy_imaging l = Some combined_image_bytes /\
    htr (@handle_media env_all_fine
           (answering_bot (failing (fun _ _ _ => false)) false
                          (Some "me@example.com") (Some "secret"))
           toy_imaging (mkMessage (Some "BAAC") None) (@start env_all_fine 0))
    = before
      ++ [ HScript (EvRet F_process_media_file (PyList l));
           HBot (send_message (Some "1001") combining_text) (Some tt);
           HBot (send_photo (Some "1001") combined_image_bytes caption_text) (Some tt);
           HBot (send_message (Some "1001") posted_text) a ]
      ++ after.
Proof.
  apply (@posted_report_is_backed env_all_fine
           (answering_bot (failing (fun _ _ _ => false)) false
                          (Some "me@example.com") (Some "secret"))
           toy_imaging (mkMessage (Some "BAAC") None) (@start env_all_fine 0)).
  vm_compute. reflexivity.
Defined.

Lemma empty_evidence_is_reported_as_failure_witness :
  existsb (says posted_text)
    (htr (@handle_media env_no_capture
            (answering_bot (failing no_capture) false
                           (Some "me@example.com") (Some "secret"))
            toy_imaging (mkMessage None (Some "BQAC")) (@start env_no_capture 0)))
  = false /\
  exists before a after,
    htr (@handle_media env_no_capture
           (answering_bot (failing no_capture) false
                          (Some "me@example.com") (Some "secret"))
           toy_imaging (mkMessage None (Some "BQAC")) (@start env_no_capture 0))
    = before
      ++ [ HScript (EvRet F_process_media_file (PyList []));
           HBot (send_message (Some "1001") failed_text) a ]
      ++ after.
Proof.
  apply (@empty_evidence_is_reported_as_failure env_no_capture
           (answering_bot (failing no_capture) false
                          (Some "me@example.com") (Some "secret"))
           toy_imaging (mkMessage None (Some "BQAC")) (@start env_no_capture 0)).
  vm_compute. tauto.
Defined.

Lemma handle_media_unsupported_is_inert_witness :
  forallb is_bot
    (htr (@handle_media env_all_fine
            (answering_bot (failing (fun _ _ _ => false)) false
                           (Some "me@example.com") (Some "secret"))
            toy_imaging (mkMessage None None) (@start env_all_fine 0))) = true /\
  driver (hst (@handle_media env_all_fine
                 (answering_bot (failing (fun _ _ _ => false)) false
                                (Some "me@example.com") (Some "secret"))
                 toy_imaging (mkMessage None None) (@start env_all_fine 0))) = None.
Proof.
  apply (@handle_media_unsupported_is_inert env_all_fine
           (answering_bot (failing (fun _ _ _ => false)) false
                          (Some "me@example.com") (Some "secret"))
           toy_imaging (mkMessage None None) (@start env_all_fine 0));
    reflexivity.
Defined.

(** ** Waiting budgets *)

Lemma waited_app (t1 t2 : list Event) : waited (t1 ++ t2) = waited t1 + waited t2.
Proof. unfold waited. now rewrite map_app, list_sum_app. Qed.

Section BudgetRules.
Context {E : Env}.

Lemma within_ret {A} n (a : A) : within n (ret a).
Proof. intros s. cbn. lia. Qed.

Lemma within_raise {A} n (e : exn) : within n (@raise _ A e).
Proof. intros s. cbn. lia. Qed.

Lemma within_emit n ev : waiting ev <= n -> within n (emit ev).
Proof. intros H s. cbn [emit tr]. unfold waited. cbn. lia. Qed.

Lemma within_call {A} n (o : Op A) :
  (forall a, waiting (EvOp o a) <= n) -> within n (call o).
Proof.
  intros H s. destruct (call_cases o s) as (a & w & ->). cbn [tr].
  unfold waited. cbn [map list_sum fold_right]. specialize (H a). lia.
Qed.

Lemma within_bind {A B} n1 n2 n (m : M A) (f : A -> M B) :
  within n1 m -> (forall a, within n2 (f a)) -> n1 + n2 <= n -> within n (bind m f).
Proof.
  intros Hm Hf Hn s. destruct (res (m s)) as [a|e] eqn:Hres.
  - rewrite (bind_val _ _ _ a Hres). cbn [tr]. rewrite waited_app.
    specialize (Hm s). specialize (Hf a (st (m s))). lia.
  - rewrite (bind_exn _ _ _ e Hres). cbn [tr]. specialize (Hm s). lia.
Qed.

Lemma within_try {A} n1 n2 n (m : M A) (h : exn -> M A) :
  within n1 m -> (forall e, within n2 (h e)) -> n1 + n2 <= n -> within n (try_ m h).
Proof.
  intros Hm Hh Hn s. destruct (res (m s)) as [a|e] eqn:Hres.
  - rewrite (try_val _ _ _ a Hres). specialize (Hm s). lia.
  - rewrite (try_exn _ _ _ e Hres). cbn [tr]. rewrite waited_app.
    specialize (Hm s). specialize (Hh e (st (m s))). lia.
Qed.

Lemma within_finally {A} n1 n2 n (m : M A) (f : M unit) :
  within n1 m -> within n2 f -> n1 + n2 <= n -> within n (finally m f).
Proof.
  intros Hm Hf Hn s. unfold finally.
  specialize (Hm s). destruct (m s) as [r s1 t1]. cbn [tr] in Hm.
  specialize (Hf s1). destruct (f s1) as [[u|e] s2 t2]; cbn [tr] in Hf |- *;
    rewrite waited_app; lia.
Qed.

Lemma within_attempt {A} n (m : M A) : within n m -> within n (attempt m).
Proof.
  intros Hm. unfold attempt. apply (within_try n 0); [|intros; apply within_ret|lia].
  apply (within_bind n 0); [exact Hm|intros; apply within_ret|lia].
Qed.

Lemma within_fn {A} n f d enc (body : M A) : within n body -> within n (fn f d enc body).
Proof.
  intros Hb s. specialize (Hb s). destruct (res (body s)) as [a|e] eqn:Hres.
  - rewrite (fn_val _ _ _ _ _ a Hres). cbn [tr].
    change (EvCall f d :: tr (body s) ++ [EvRet f (enc a)])
      with ([EvCall f d] ++ tr (body s) ++ [EvRet f (enc a)]).
    rewrite !waited_app. unfold waited at 1 3. cbn. lia.
  - rewrite (fn_exn _ _ _ _ _ e Hres). cbn [tr].
    change (EvCall f d :: tr (body s) ++ [EvRaise f e])
      with ([EvCall f d] ++ tr (body s) ++ [EvRaise f e]).
    rewrite !waited_app. unfold waited at 1 3. cbn. lia.
Qed.

Lemma within_resolve d mode timeout selectors :
  within (timeout * List.length selectors) (resolve d mode timeout selectors).
Proof.
  induction selectors as [|x rest IH]; cbn [resolve List.length].
  - apply within_ret.
  - apply (within_bind timeout (timeout * List.length rest)); [| |lia].
    + apply within_attempt. apply within_call. intros a. cbn. lia.
    + intros [e|]; [apply within_ret|exact IH].
Qed.

Lemma within_check_indicators d l :
  within (3 * List.length l) (check_indicators d l).
Proof.
  induction l as [|x rest IH]; cbn [check_indicators List.length].
  - apply within_ret.
  - apply (within_bind 3 (3 * List.length rest)); [| |lia].
    + apply within_attempt. apply within_call. intros a. cbn. lia.
    + intros [e|]; [apply within_ret|exact IH].
Qed.

Lemma within_check_indicators_v1 d l :
  within (5 * List.length l) (check_indicators_v1 d l).
Proof.
  induction l as [|x rest IH]; cbn [check_indicators_v1 List.length].
  - apply within_ret.
  - apply (within_bind 5 (5 * List.length rest)); [| |lia].
    + apply within_attempt. apply within_call. intros a. cbn. lia.
    + intros [e|]; [apply within_ret|exact IH].
Qed.

(** One sequential step of a budget proof: the step may wait [n1], the
    rest [n2]. *)
Ltac spend n1 n2 :=
  apply (within_bind n1 n2);
  [ first [ apply within_call; intros ?; cbn; lia
          | apply within_emit; cbn; lia
          | apply within_attempt; apply within_call; intros ?; cbn; lia
          | idtac ]
  | intros ?
  | cbn; lia ].

(** X29: by its own pauses and timeouts a probe waits at most 11
    seconds in version2.py and at most 50 seconds in Vesion1.py. *)
Theorem probe_waiting_budget (d : Driver) (s : State) :
  waited (tr (check_session_validity d s)) <= 11 /\
  waited (tr (check_session_validity_v1 d s)) <= 50.
Proof.
  split.
  - revert s. change (within 11 (check_session_validity d)).
    unfold check_session_validity. apply within_fn.
    apply (within_try 11 0); [|intros; apply within_ret|lia].
    spend 0 11. spend 2 9. spend 0 9.
    match goal with |- within _ (if ?c then _ else _) => destruct c end;
      [apply within_ret|apply (within_check_indicators d indicators)].
  - revert s. change (within 50 (check_session_validity_v1 d)).
    unfold check_session_validity_v1. apply within_fn.
    apply (within_try 50 0); [|intros; apply within_ret|lia].
    spend 0 50. spend 5 45. spend 0 45.
    match goal with |- within _ (if ?c then _ else _) => destruct c end;
      [apply within_ret|].
    spend 35 10; [apply (within_check_indicators_v1 d indicators_v1)|].
    match goal with |- within _ (if ?c then _ else _) => destruct c end;
      [apply within_ret|].
    apply (within_try 10 0); [|intros; apply within_ret|lia].
    spend 10 0. apply within_ret.
Qed.

(** X18: by the script's own pauses and timeouts, click_new_post waits
    at most 24 seconds, upload_video at most 130, type_content and
    fill_reels_input at most 9 each, and a click-only step at most 3
    seconds per selector. *)
Theorem step_waiting_budget (d : Driver) (video_bytes : bytes) (s : State) :
  waited (tr (click_new_post d s)) <= 24 /\
  waited (tr (upload_video d video_bytes s)) <= 130 /\
  waited (tr (type_content d s)) <= 9 /\
  waited (tr (fill_reels_input d s)) <= 9 /\
  (forall f selectors,
     waited (tr (click_step f d selectors s)) <= 3 * List.length selectors).
Proof.
  repeat split.
  - revert s. change (within 24 (click_new_post d)).
    unfold click_new_post. apply within_fn.
    apply (within_try 24 0); [|intros; apply within_ret|lia].
    spend 0 24. spend 2 22.
    spend 15 7; [apply (within_resolve d element_to_be_clickable 3 new_post_selectors)|].
    match goal with |- within _ (match ?c with _ => _ end) => destruct c end;
      [|apply within_ret].
    spend 0 7. spend 2 5. spend 5 0.
    match goal with |- within _ (match ?c with _ => _ end) => destruct c end;
      apply within_ret.
  - revert s. change (within 130 (upload_video d video_bytes)).
    unfold upload_video. apply within_fn.
    apply (within_try 130 0); [|intros; apply within_ret|lia].
    spend 0 130.
    apply (within_finally 130 0); [| |lia].
    + spend 5 125. spend 0 125. spend 5 120.
      spend 120 0; [|apply within_ret].
      apply (within_try 60 60); [apply within_call; intros ?; cbn; lia| |lia].
      intros e. apply (within_try 60 0); [|intros; apply within_ret|lia].
      spend 60 0. apply within_ret.
    + spend 0 0. apply within_ret.
  - revert s. change (within 9 (type_content d)).
    unfold type_content. apply within_fn.
    apply (within_try 9 0); [|intros; apply within_ret|lia].
    spend 9 0; [apply (within_resolve d presence_of_element_located 3
                         type_content_selectors)|].
    match goal with |- within _ (match ?c with _ => _ end) => destruct c end;
      [|apply within_ret].
    spend 0 0. spend 0 0. spend 0 0. apply within_ret.
  - revert s. change (within 9 (fill_reels_input d)).
    unfold fill_reels_input. apply within_fn.
    apply (within_try 9 0); [|intros; apply within_ret|lia].
    spend 9 0; [apply (within_resolve d presence_of_element_located 3 reels_selectors)|].
    match goal with |- within _ (match ?c with _ => _ end) => destruct c end;
      [|apply within_ret].
    spend 0 0. spend 0 0. spend 0 0. apply within_ret.
  - intros f selectors. revert s.
    change (within (3 * List.length selectors) (click_step f d selectors)).
    unfold click_step. apply within_fn.
    apply (within_try (3 * List.length selectors) 0); [|intros; apply within_ret|lia].
    apply (within_bind (3 * List.length selectors) 0);
      [apply within_resolve| |lia].
    intros [target|]; [|apply within_ret].
    spend 0 0. apply within_ret.
Qed.

End BudgetRules.

(** ** The probe of Vesion1.py *)

Section Vesion1Proofs.
Context {E : Env}.

Lemma wp_check_indicators_v1 d l
      (Q : outcome bool -> State -> list Event -> Prop) s :
  (forall before x e after s1,
      l = before ++ x :: after ->
      Q (Val true) s1 (failed_polls d presence_of_element_located 5 before
                         ++ [tried d presence_of_element_located 5 x (Some e)])) ->
  (forall s1, Q (Val false) s1 (failed_polls d presence_of_element_located 5 l)) ->
  wp is_poll (check_indicators_v1 d l) Q s.
Proof.
  revert Q s. induction l as [|x rest IH]; intros Q s HS HN; cbn [check_indicators_v1].
  - apply wp_ret. apply HN.
  - apply wp_bind. apply wp_attempt_call. intros [e|] s1 _; cbn [filter is_poll].
    + apply wp_ret. apply (HS [] x e rest). reflexivity.
    + apply IH.
      * intros before y e after s2 ->. apply (HS (x :: before) y e after). reflexivity.
      * intros s2. apply HN.
Qed.

(** X28: the probe of Vesion1.py never raises, and its polls are: none
    (the page or its URL failed - False); or the seven indicators in order,
    5 seconds each, up to the first that answers (True); or all seven
    raised and one last poll of 10 seconds for the New Post button, whose
    answer decides. *)
Theorem probe_v1_last_chance (d : Driver) (s : State) :
  exists b,
    res (check_session_validity_v1 d s) = Val b /\
    polls_shape_v1 d b (filter is_poll (tr (check_session_validity_v1 d s))).
Proof.
  change (wp is_poll (check_session_validity_v1 d)
            (fun r _ t => exists b, r = Val b /\ polls_shape_v1 d b t) s).
  unfold check_session_validity_v1. apply wp_fn. apply wp_try.
  apply wp_bind. apply wp_call. intros [[]|] s1 _;
    [|apply wp_ret; exists false; split; [reflexivity|apply v1_not_polled]].
  apply wp_bind. apply wp_emit.
  apply wp_bind. apply wp_call. intros [url|] s2 _;
    [|apply wp_ret; exists false; split; [reflexivity|apply v1_not_polled]].
  destruct (negb (contains "publish.buffer.com" url));
    [apply wp_ret; exists false; split; [reflexivity|apply v1_not_polled]|].
  apply wp_bind. apply wp_check_indicators_v1.
  - intros before x e after s3 Hsplit. apply wp_ret. exists true.
    split; [reflexivity|]. cbn [filter is_poll app]. rewrite !app_nil_r.
    apply (v1_indicator_found d before x e after Hsplit).
  - intros s3. apply wp_try. apply wp_bind. apply wp_call. intros [e|] s4 _.
    + apply wp_ret. exists true. split; [reflexivity|].
      cbn [filter is_poll app]. rewrite !app_nil_r.
      apply (v1_last_chance d (Some e)).
    + apply wp_ret. exists false. split; [reflexivity|].
      cbn [filter is_poll app]. rewrite !app_nil_r.
      apply (v1_last_chance d None).
Qed.

End Vesion1Proofs.

(** ** More on the evidence grid *)

Section EvidenceMore.
Context {I : Imaging}.



(** The grid as a function of the images that opened. *)
Lemma combine_grid_open (l : list bytes) :
  combine_grid l
  = match open_images l with
    | [] => None
    | first :: rest =>
        Some (paste_images 2 (width first) (height first)
                (image_new (2 * width first)
                   ((List.length (first :: rest) + 2 - 1) / 2 * height first))
                0 (first :: rest))
    end.
Proof.
  destruct l as [|b l]; [reflexivity|].
  unfold combine_grid. cbv zeta. destruct (open_images (b :: l)); reflexivity.
Qed.


(** X20: the canvas is sized by the first readable screenshot alone:
    when the screenshots that open are [first :: rest], the grid is twice
    as wide as [first] and ceil(N/2) times as high, N being their number,
    whatever the sizes of the others. *)
Theorem combine_grid_sized_by_first (l : list bytes) (first : Image pixel)
        (rest : list (Image pixel)) :
  open_images l = first :: rest ->
  exists grid,
    combine_grid l = Some grid /\
    width grid = 2 * width first /\
    height grid = (List.length rest + 2) / 2 * height first.
Proof.
  intros Hopen. rewrite combine_grid_open, Hopen.
  eexists. split; [reflexivity|].
  destruct (paste_images_size (width first) (height first) (first :: rest)
              (image_new (2 * width first)
                 ((List.length (first :: rest) + 2 - 1) / 2 * height first)) 0)
    as [-> ->].
  cbn [image_new width height List.length]. split; [reflexivity|].
  replace (S (List.length rest) + 2 - 1) with (List.length rest + 2) by lia.
  reflexivity.
Qed.

Section EqualSizes.
Variables w h : nat.

(** X21: for screenshots that all open to images of size w x h, the
    grid is black at every point outside the boxes of the N snapshots - in
    particular in the last cell when N is odd. *)
Theorem combine_grid_black_elsewhere (l : list bytes) (imgs : list (Image pixel))
        (X Y : nat) :
  l <> [] ->
  map image_open l = map Some imgs ->
  Forall (sized w h) imgs ->
  (forall k, k < List.length imgs -> ~ in_box w h k X Y) ->
  exists grid, combine_grid l = Some grid /\ pix grid X Y = black.
Proof.
  intros Hne Hopen Hs Hout.
  pose proof (open_images_map _ _ Hopen) as Himgs.
  destruct imgs as [|first rest].
  { destruct l; [contradiction|discriminate]. }
  rewrite combine_grid_open, Himgs.
  destruct (Forall_inv Hs) as [Hw Hh]. rewrite Hw, Hh.
  eexists. split; [reflexivity|].
  rewrite (paste_images_outside w h); [reflexivity|exact Hs|].
  intros k Hk. apply Hout. lia.
Qed.

End EqualSizes.

End EvidenceMore.

Lemma combine_grid_sized_by_first_witness :
  exists grid,
    @combine_grid toy_imaging [[]; [x07]; []; [x09]; [x0b]] = Some grid /\
    width grid = 4 /\ height grid = 2.
Proof.
  destruct (@combine_grid_sized_by_first toy_imaging [[]; [x07]; []; [x09]; [x0b]]
              (mkImage 2 1 (fun _ _ => 7))
              [mkImage 2 1 (fun _ _ => 9); mkImage 2 1 (fun _ _ => 11)])
    as (grid & Hgrid & Hw & Hh); [reflexivity|].
  exists grid. split; [exact Hgrid|]. split; [exact Hw|exact Hh].
Defined.

Lemma combine_grid_black_elsewhere_witness :
  exists grid,
    @combine_grid toy_imaging [[x07]; [x09]; [x0b]] = Some grid /\
    pix grid 3 1 = 0.
Proof.
  apply (@combine_grid_black_elsewhere toy_imaging 2 1 [[x07]; [x09]; [x0b]]
           [mkImage 2 1 (fun _ _ => 7); mkImage 2 1 (fun _ _ => 9);
            mkImage 2 1 (fun _ _ => 11)] 3 1).
  - discriminate.
  - reflexivity.
  - repeat constructor.
  - intros k Hk [Hx Hy]. cbn [List.length] in Hk.
    destruct k as [|[|[|k]]]; cbn in Hx, Hy; lia.
Defined.

(** ** Saving and restoring cookies through a file *)

Lemma add_cookies_file_world (jar : option (list Cookie)) (d : Driver)
      (cookies : list Cookie) (skipped : nat) (s : @State (file_world jar)) :
  @add_cookies (file_world jar) d cookies skipped s
  = mkOut (Val skipped) s
      (add_events d cookies (map (fun _ => Some tt) cookies)).
Proof.
  revert s. induction cookies as [|c rest IH]; intros s; [reflexivity|].
  cbn [add_cookies].
  unfold bind at 1, attempt, try_, bind, call, ret. cbn [exec file_world file_exec].
  cbn [world driver app res st tr default_answer].
  destruct s as [w dr]. cbn [world driver]. rewrite IH. reflexivity.
Qed.

Lemma filter_add_events d cookies answers :
  filter is_add_cookie (add_events d cookies answers) = add_events d cookies answers.
Proof.
  unfold add_events. induction (combine cookies answers) as [|ca l IH]; [reflexivity|].
  cbn [map filter is_add_cookie]. now rewrite IH.
Qed.

Lemma add_events_accepted d cookies :
  add_events d cookies (map (fun _ => Some tt) cookies)
  = map (fun c => EvOp (add_cookie d (fix_domain c)) (Some tt)) cookies.
Proof.
  unfold add_events. induction cookies as [|c rest IH]; [reflexivity|].
  cbn [map combine fst snd]. now rewrite IH.
Qed.

(** X3: where the cookie file behaves as a file and the browser reports
    the cookies [jar], saving and then restoring returns True and hands the
    browser every cookie of [jar], in order, each after the domain rewrite,
    and nothing else. *)
Theorem save_then_load_round_trip (jar : list Cookie) (d : Driver)
        (s : @State (file_world (Some jar))) :
  res ((@save_cookies (file_world (Some jar)) d ;;
        @load_cookies (file_world (Some jar)) d) s) = Val true /\
  filter is_add_cookie
    (tr ((@save_cookies (file_world (Some jar)) d ;;
          @load_cookies (file_world (Some jar)) d) s))
  = map (fun c => EvOp (add_cookie d (fix_domain c)) (Some tt)) jar.
Proof.
  unfold save_cookies, load_cookies, load_cookies_with, fn, bind, try_, call, exists_,
    sleep, emit, ret.
  cbn [exec file_exists file_world file_exec world driver res st tr app negb
       String.eqb Ascii.eqb Bool.eqb default_answer].
  rewrite add_cookies_file_world.
  cbn [res st tr app Nat.ltb Nat.leb].
  split; [reflexivity|].
  cbn [filter is_add_cookie]. rewrite app_nil_r, filter_app, filter_add_events.
  cbn [filter is_add_cookie]. rewrite app_nil_r. apply add_events_accepted.
Qed.

(** X4: when the browser cannot report its cookies, save_cookies leaves
    the cookie file truncated whatever it held before, since the file is
    opened for writing first; the next load_cookies then returns False. *)
Theorem failed_save_truncates_cookie_file (d : Driver)
        (s : @State (file_world None)) :
  world (st (@save_cookies (file_world None) d s)) = Truncated /\
  res (@load_cookies (file_world None) d (st (@save_cookies (file_world None) d s)))
  = Val false.
Proof.
  unfold save_cookies, load_cookies, load_cookies_with, fn, bind, try_, call, exists_,
    sleep, emit, ret.
  cbn [exec file_exists file_world file_exec world driver res st tr app negb
       String.eqb Ascii.eqb Bool.eqb default_answer].
  split; reflexivity.
Qed.

(** ** Further concrete runs *)

(** No cookie file: nothing is sent. *)
Lemma load_cookies_without_file_witness :
  @load_cookies_with env_logged_out 1 1 (@start env_logged_out 0)
  = mkOut (Val false) (@start env_logged_out 0)
      [ EvCall F_load_cookies (Some 1); EvExists COOKIE_FILE false;
        EvRet F_load_cookies (PyBool false) ].
Proof.
  apply (@load_cookies_without_file env_logged_out 1 1 (@start env_logged_out 0)).
  reflexivity.
Defined.


(** Where no click of any kind goes through the two bounds are reached. *)
Example submit_post_worst_case :
  List.length (filter is_method (tr (@submit_post env_no_click 1 (@start env_no_click 0))))
  = 12 /\
  List.length (filter is_dismiss_call
                 (tr (@submit_post env_no_click 1 (@start env_no_click 0))))
  = 4.
Proof. vm_compute. split; reflexivity. Qed.
